(** * Dissolve: adaptive compression engine and worker orchestration

    A shallow embedding of the parts of the Dissolve sources that decide
    how parameters are searched and how work is scheduled:

    - [Fragmenter]      : [splitLargeImagesIntoFragments]
                          (utils/threadManagerFragmentation)
    - [ThreadManager]   : [calculateOptimalThreads], [chunkFiles] and the
                          message handler of [createWorker]
                          (utils/threadManager)
    - [ImageCompressor] : target-size search, strategy racing and format
                          selection (compressors/imageCompressor.ts)
    - [Worker]          : [processChunk] (workers/compressionWorker.ts)
    - [Api]             : option validation of [compress] and
                          [accumulateThreadResults] (the public API module)
    - [Demo]            : small concrete codecs and files to run the
                          model on

    JavaScript numbers that hold byte counts, pixel counts, qualities and
    indices are integers well below 2^53, where double arithmetic is
    exact; they are modelled as [Z] (or [nat] for list positions).  The
    image codec (sharp), the filesystem and [path] are external: they
    enter the model as section variables, except sharp's [extract],
    which is modelled with the check of the area it makes.  Strings that
    a pattern reads for white space (target sizes, file names) are lists
    of UTF-16 code units.

    The first part of the file holds the model, the second part the
    properties. *)

From Stdlib Require Import ZArith List String Ascii Bool Lia Permutation.
From Stdlib Require Import Strings.Byte.
From Stdlib Require Import QArith Qround.
From Stdlib Require Import DecimalString DecimalPos.
Import ListNotations.
Close Scope Q_scope.
Open Scope Z_scope.

(* ================================================================== *)
(** * Part I: the model                                                 *)
(* ================================================================== *)

(** ** JavaScript helpers shared by the modules *)

(** A Node [Buffer]: a sequence of bytes; [buffer.length] is its size. *)
Definition Buffer : Type := list byte.

Definition buffer_length (b : Buffer) : Z := Z.of_nat (List.length b).

(** [array.slice(start, end)] for [0 <= start], [0 <= end]. *)
Definition slice {A : Type} (l : list A) (start stop : nat) : list A :=
  firstn (stop - start) (skipn start l).

(** [Math.ceil(a / b)] on non-negative integers with [b > 0]. *)
Definition ceil_div (a b : nat) : nat := ((a + b - 1) / b)%nat.

(** Truthiness of a JavaScript string: every string but the empty one. *)
Definition truthy_string (s : string) : bool :=
  match s with EmptyString => false | _ => true end.

(** [x ?? d] on an optional number. *)
Definition nullish (x : option Z) (d : Z) : Z :=
  match x with Some v => v | None => d end.

(** [a || b] on numbers: [b] when [a] is [0]. *)
Definition num_or (a b : Z) : Z := if a =? 0 then b else a.

(* ------------------------------------------------------------------ *)
(** ** Fragmenter *)

Module Fragmenter.

Definition MIN_FRAGMENT_SIZE : Z := 100 * 1024 * 1024.
Definition MIN_FRAGMENTS : Z := 2.

(** The argument of [sharp(file).extract({ left, top, width, height })]. *)
Record Region : Type := mkRegion
  { left : Z; top : Z; width : Z; height : Z }.

(** [FragmentedImage]; [buffer] is kept as the region of [originalFile]
    whose pixels the buffer holds. *)
Record FragmentedImage : Type := mkFragment
  { buffer : Region;
    fragmentIndex : Z;
    totalFragments : Z;
    originalFile : string;
    ext : string }.

(** [FragmentResult = string | FragmentedImage] *)
Inductive FragmentResult : Type :=
| Whole (file : string)
| Fragment (f : FragmentedImage).

(** What [sharp(file).metadata()] reports about the dimensions. *)
Record Metadata : Type := mkMetadata
  { meta_height : option Z; meta_width : option Z }.

Definition image_extensions : list string :=
  [".jpg"; ".jpeg"; ".png"; ".webp"; ".avif"; ".bmp"; ".tiff"]%string.

Definition is_image_extension (e : string) : bool :=
  existsb (String.eqb e) image_extensions.

Section Split.

(** [path.extname(file).toLowerCase()] *)
Variable extname_lower : string -> string.
(** [(await fs.stat(file)).size] *)
Variable stat_size : string -> Z.
(** [await sharp(file).metadata()] *)
Variable metadata : string -> Metadata.

(** [await sharp(file).extract(region).toBuffer()] on an image of
    [imageHeight] rows and [imageWidth] columns.  sharp takes offsets
    and sizes that are integers from [0] up, and rejects an area that
    is empty or not inside the image; [inr] is the error the promise
    rejects with.  The buffer returned is kept as the region it
    holds. *)
Definition extract (imageHeight imageWidth : Z) (region : Region)
  : Region + string :=
  if (left region <? 0) || (top region <? 0) || (width region <? 0)
     || (height region <? 0)
  then inr "Expected integer for extract parameter"%string
  else if (0 <? width region) && (0 <? height region)
          && (left region + width region <=? imageWidth)
          && (top region + height region <=? imageHeight)
  then inl region
  else inr "extract_area: bad extract area"%string.

(** The argument of [extract] in iteration [i] of
    [for (let i = 0; i < fragments; i++)]. *)
Definition fragmentRegion (fragments imageHeight imageWidth
                           fragmentHeight i : Z) : Region :=
  let top := i * fragmentHeight in
  let height :=
    if i =? fragments - 1 then imageHeight - top else fragmentHeight in
  mkRegion 0 top imageWidth height.

(** The inner loop, with [n] iterations left and counter [i]: the
    fragments it pushes, or the error of the first [extract] that
    rejects, which ends the whole call. *)
Fixpoint fragmentLoop (n : nat) (file e : string) (fragments imageHeight
                       imageWidth fragmentHeight i : Z)
  : list FragmentResult + string :=
  match n with
  | O => inl []
  | S n' =>
      match extract imageHeight imageWidth
              (fragmentRegion fragments imageHeight imageWidth
                 fragmentHeight i) with
      | inr error => inr error
      | inl buffer =>
          match fragmentLoop n' file e fragments imageHeight imageWidth
                  fragmentHeight (i + 1) with
          | inr error => inr error
          | inl rest =>
              inl (Fragment {| buffer := buffer;
                               fragmentIndex := i;
                               totalFragments := fragments;
                               originalFile := file;
                               ext := e |} :: rest)
          end
      end
  end.

(** One iteration of [for (const file of files)]: what it pushes, or
    the error it rejects with. *)
Definition splitFile (threadCount : Z) (file : string)
  : list FragmentResult + string :=
  let e := extname_lower file in
  if negb (is_image_extension e) then inl [Whole file]
  else if stat_size file <? MIN_FRAGMENT_SIZE then inl [Whole file]
  else
    let fragments := Z.max MIN_FRAGMENTS threadCount in
    let imageHeight := nullish (meta_height (metadata file)) 0 in
    let imageWidth := nullish (meta_width (metadata file)) 0 in
    if (imageHeight =? 0) || (imageWidth =? 0) then inl [Whole file]
    else
      let fragmentHeight := num_or (imageHeight / fragments) imageHeight in
      fragmentLoop (Z.to_nat fragments) file e fragments imageHeight
        imageWidth fragmentHeight 0.

(** [splitLargeImagesIntoFragments(files, threadCount)]: the list it
    resolves to, or the error it rejects with. *)
Fixpoint splitLargeImagesIntoFragments (files : list string)
                                       (threadCount : Z)
  : list FragmentResult + string :=
  match files with
  | [] => inl []
  | file :: rest =>
      match splitFile threadCount file with
      | inr error => inr error
      | inl pushed =>
          match splitLargeImagesIntoFragments rest threadCount with
          | inr error => inr error
          | inl result => inl (pushed ++ result)
          end
      end
  end.

End Split.

(** Row ranges.  A fragment holds the pixel rows [top <= r < top + height]
    of its file; a whole file holds none of them as a band. *)
Definition holds_row (r : Z) (x : FragmentResult) : bool :=
  match x with
  | Whole _ => false
  | Fragment f =>
      (top (buffer f) <=? r) && (r <? top (buffer f) + height (buffer f))
  end.

(** In how many of the emitted bands row [r] lies. *)
Definition rows_covering (r : Z) (out : list FragmentResult) : nat :=
  List.length (filter (holds_row r) out).

(** The bands of [out] cover the rows [0 <= r < imageHeight] with no gap
    and no overlap, and hold no row outside that range. *)
Definition covers_exactly (imageHeight : Z) (out : list FragmentResult)
  : Prop :=
  forall r : Z,
    rows_covering r out
    = if (0 <=? r) && (r <? imageHeight) then 1%nat else 0%nat.

Section Origins.

Variable extname_lower : string -> string.
Variable stat_size : string -> Z.
Variable metadata : string -> Metadata.

(** The three tests a file has to pass to be split: an image extension,
    a size of at least [MIN_FRAGMENT_SIZE], and a height and a width
    that are known and not [0]. *)
Definition splittable (file : string) : bool :=
  is_image_extension (extname_lower file)
  && negb (stat_size file <? MIN_FRAGMENT_SIZE)
  && negb ((nullish (meta_height (metadata file)) 0 =? 0)
           || (nullish (meta_width (metadata file)) 0 =? 0)).

(** Whether every band of a file that is split lies in the image: the
    image has at least as many rows as there are fragments, and a
    positive width. *)
Definition bandsFit (threadCount : Z) (file : string) : bool :=
  (Z.max MIN_FRAGMENTS threadCount
   <=? nullish (meta_height (metadata file)) 0)
  && (0 <? nullish (meta_width (metadata file)) 0).

End Origins.



End Fragmenter.

(* ------------------------------------------------------------------ *)
(** ** Options objects, strings and sorting *)

(** The values that occur in the option objects handed to the codec. *)
Inductive JsValue : Type :=
| VNum (z : Z)
| VBool (b : bool)
| VStr (s : string).

(** An object literal such as [{ quality, effort: 4 }], in key order. *)
Definition JsObject : Type := list (string * JsValue).

Fixpoint js_get (o : JsObject) (k : string) : option JsValue :=
  match o with
  | [] => None
  | (k', v) :: o' => if String.eqb k k' then Some v else js_get o' k
  end.

(** The [quality] entry of an option object, when it is a number. *)
Definition quality_of (o : JsObject) : option Z :=
  match js_get o "quality" with Some (VNum q) => Some q | _ => None end.

Definition lower_ascii (c : ascii) : ascii :=
  let n := nat_of_ascii c in
  if ((65 <=? n) && (n <=? 90))%nat then ascii_of_nat (n + 32) else c.

(** [s.toLowerCase()] on ASCII strings. *)
Fixpoint toLowerCase (s : string) : string :=
  match s with
  | EmptyString => EmptyString
  | String c s' => String (lower_ascii c) (toLowerCase s')
  end.

(** [a === b] on strings. *)
Notation "a === b" := (String.eqb a b) (at level 70, no associativity).

(** [array.includes(x)] on strings. *)
Definition includes (l : list string) (x : string) : bool :=
  existsb (String.eqb x) l.

(** The names every object literal inherits from [Object.prototype].  A
    lookup [map[key]] with one of them does not give [undefined]: it
    finds a function (the prototype object itself for [__proto__]), a
    truthy value that is not a string. *)
Definition objectPrototypeKeys : list string :=
  ["constructor"; "__defineGetter__"; "__defineSetter__"; "hasOwnProperty";
   "__lookupGetter__"; "__lookupSetter__"; "isPrototypeOf";
   "propertyIsEnumerable"; "toString"; "valueOf"; "__proto__";
   "toLocaleString"]%string.

(** The value of [map[key] || fallback] for a literal [map] whose own
    values are non-empty strings: a string, or the value inherited under
    [key]. *)
Inductive MapValue : Type :=
| Str (s : string)
| Inherited (key : string).

(** [Array.prototype.sort(cmp)]: the sort is stable, and for a comparator
    that orders by a key its result is the stable insertion sort. *)
Fixpoint js_insert {A : Type} (cmp : A -> A -> Z) (x : A) (l : list A)
  : list A :=
  match l with
  | [] => [x]
  | y :: l' => if cmp x y <=? 0 then x :: l else y :: js_insert cmp x l'
  end.

Fixpoint js_sort {A : Type} (cmp : A -> A -> Z) (l : list A) : list A :=
  match l with
  | [] => []
  | x :: l' => js_insert cmp x (js_sort cmp l')
  end.

(* ------------------------------------------------------------------ *)
(** ** Effects of the engine

    An engine method either returns or throws, and on the way it calls
    the codec and writes files.  [M X] is the list of those events, in
    program order, with the returned value or the thrown error message. *)

Inductive Event : Type :=
| EvCompressWithQuality (format : string) (quality : Z)
| EvCodec (format : string) (opts : JsObject)
| EvToFile (path : string)
| EvWriteFile (path : string) (data : Buffer).

Definition M (X : Type) : Type := (list Event * (X + string))%type.

Definition ret {X : Type} (x : X) : M X := ([], inl x).
Definition throw {X : Type} (e : string) : M X := ([], inr e).
Definition tell (ev : Event) : M unit := ([ev], inl tt).

Definition bind {X Y : Type} (m : M X) (f : X -> M Y) : M Y :=
  match snd m with
  | inl x => (fst m ++ fst (f x), snd (f x))
  | inr e => (fst m, inr e)
  end.

(** [try { m } catch (error) { h(error.message) }] *)
Definition try_catch {X : Type} (m : M X) (h : string -> M X) : M X :=
  match snd m with
  | inl x => m
  | inr e => (fst m ++ fst (h e), snd (h e))
  end.

Declare Scope engine_scope.
Delimit Scope engine_scope with engine.
Notation "x <- m ;; k" := (bind m (fun x => k))
  (at level 61, m at next level, right associativity) : engine_scope.
Notation "m ;;; k" := (bind m (fun _ => k))
  (at level 61, right associativity) : engine_scope.

(** The events of a run and what it returned or threw. *)
Definition events {X : Type} (m : M X) : list Event := fst m.
Definition outcome {X : Type} (m : M X) : X + string := snd m.

(** The qualities handed to [compressWithQuality] during a run. *)
Fixpoint tested_qualities (t : list Event) : list Z :=
  match t with
  | [] => []
  | EvCompressWithQuality _ q :: t' => q :: tested_qualities t'
  | _ :: t' => tested_qualities t'
  end.

(** The file writes of a run. *)
Fixpoint written (t : list Event) : list (string * Buffer) :=
  match t with
  | [] => []
  | EvWriteFile p b :: t' => (p, b) :: written t'
  | _ :: t' => written t'
  end.

(* ------------------------------------------------------------------ *)
(** ** Worker runtime *)

(** [String(n)] for an integer [n] below [10^21]: its decimal notation. *)
Definition js_number_toString (n : Z) : string :=
  NilZero.string_of_int (Z.to_int n).

(** [s] ends with [suffix]. *)
Definition ends_with (suffix s : string) : bool :=
  (String.length suffix <=? String.length s)%nat
  && String.eqb suffix
       (substring (String.length s - String.length suffix)
          (String.length suffix) s).

(** [/(a|b|...)$/i.test(s)] for lower-case alternatives. *)
Definition ends_with_any_ci (alternatives : list string) (s : string)
  : bool :=
  existsb (fun a => ends_with a (toLowerCase s)) alternatives.

Module Worker.

Local Open Scope string_scope.
Local Open Scope list_scope.
Local Open Scope Z_scope.

(** The first argument of [compress]: a path or the bytes of a
    fragment. *)
Inductive Input : Type :=
| PathInput (path : string)
| BufferInput (bytes : Buffer).

(** What a compressor's [compress] resolves to, with the three fields
    the worker adds for a fragment. *)
Record CompressionResult : Type := mkResult
  { inputFile : Input;
    outputFile : option string;
    originalSize : Z;
    compressedSize : Z;
    fragmentIndex : option Z;
    totalFragments : option Z;
    originalFile : option string }.

Record FragmentTask : Type := mkFragmentTask
  { f_buffer : Buffer;
    f_fragmentIndex : Z;
    f_totalFragments : Z;
    f_originalFile : string;
    f_ext : option string }.

(** An entry of [payload.files]: [string | FragmentTask]. *)
Inductive Task : Type :=
| FileTask (file : string)
| Fragment (f : FragmentTask).

(** An entry of the worker's [results]: the object with [success: true]
    or the one with [success: false]. *)
Inductive ItemResult : Type :=
| ItemOk (result : CompressionResult) (processingTime : Z) (workerIndex : Z)
| ItemFailed (file : string) (error : string) (workerIndex : Z).

(** The messages a worker posts, by their [type]. *)
Inductive Message : Type :=
| Progress (file : string) (result : CompressionResult) (workerIndex : Z)
| ErrorMessage (file : string) (error : string) (workerIndex : Z)
| Complete (results : list ItemResult) (workerIndex : Z)
| WorkerError (error : string) (workerIndex : Z).

Definition isImage (file : string) : bool :=
  ends_with_any_ci ["jpg"; "jpeg"; "png"; "webp"; "avif"; "bmp"; "tiff"] file.

Definition isVideo (file : string) : bool :=
  ends_with_any_ci ["mp4"; "avi"; "mov"; "mkv"; "webm"; "flv"; "wmv"] file.

Section Chunk.

(** [imageCompressor.compress(input, options)] and
    [videoCompressor.compress(file, options)]: the result, or the
    message of the error thrown. *)
Variable imageCompress : Input -> CompressionResult + string.
Variable videoCompress : string -> CompressionResult + string.
(** [path.basename] and [path.extname] *)
Variable basename : string -> string.
Variable extname : string -> string.
(** [Date.now() - startTime] as measured for an item. *)
Variable elapsed : Task -> Z.
(** Reading the payload and constructing the two compressors: done, or
    the message of the error thrown. *)
Variable setup : unit + string.
Variable workerIndex : Z.

(** The [file] of the progress and error messages. *)
Definition displayName (task : Task) : string :=
  match task with
  | FileTask file => basename file
  | Fragment f =>
      (basename (f_originalFile f) ++ "[fragment "
       ++ js_number_toString (f_fragmentIndex f + 1) ++ "/"
       ++ js_number_toString (f_totalFragments f) ++ "]")%string
  end.

(** The part of the inner [try] block that produces [result]. *)
Definition compressItem (task : Task) : CompressionResult + string :=
  match task with
  | Fragment f =>
      if truthy_string (f_originalFile f) then
        match imageCompress (BufferInput (f_buffer f)) with
        | inl r =>
            inl (mkResult (inputFile r) (outputFile r) (originalSize r)
                   (compressedSize r) (Some (f_fragmentIndex f))
                   (Some (f_totalFragments f)) (Some (f_originalFile f)))
        | inr e => inr e
        end
      else inr "Unknown task payload received by worker"
  | FileTask file =>
      if isImage file then imageCompress (PathInput file)
      else if isVideo file then videoCompress file
      else inr ("Unsupported file type: " ++ extname file)%string
  end.

(** One iteration of [for (const file of files)]: the entry pushed to
    [results] and the message posted. *)
Definition processItem (task : Task) : ItemResult * Message :=
  match compressItem task with
  | inl result =>
      (ItemOk result (elapsed task) workerIndex,
       Progress (displayName task) result workerIndex)
  | inr e =>
      (ItemFailed (match task with
                   | FileTask file => file
                   | Fragment f => f_originalFile f
                   end) e workerIndex,
       ErrorMessage (displayName task) e workerIndex)
  end.

(** The loop over [files]: [results] as it stands after the loop and the
    messages posted, in order. *)
Fixpoint processItems (files : list Task) (results : list ItemResult)
  : list ItemResult * list Message :=
  match files with
  | [] => (results, [])
  | task :: rest =>
      let '(r, m) := processItem task in
      let '(rs, ms) := processItems rest (results ++ [r]) in
      (rs, m :: ms)
  end.

(** [processChunk()]: every message the worker posts. *)
Definition processChunk (files : list Task) : list Message :=
  match setup with
  | inr e => [WorkerError e workerIndex]
  | inl _ =>
      let '(results, posted) := processItems files [] in
      posted ++ [Complete results workerIndex]
  end.

End Chunk.

End Worker.

(* ------------------------------------------------------------------ *)
(** ** Thread manager: thread count and chunking *)

Module ThreadManager.

(** The options [calculateOptimalThreads] reads.  [threads] is
    [parseInt(options.threads)] when the option is truthy and parses to
    an integer, [None] when the option is absent or falsy. *)
Record Options : Type := mkOptions
  { threads : option Z; ultrafast : bool }.

(** [Math.ceil(x * 1.5)] on an integer [x]. *)
Definition ceil_3_2 (x : Z) : Z := (3 * x + 1) / 2.

(** [calculateOptimalThreads], with [totalCores = os.cpus().length]. *)
Definition calculateOptimalThreads (totalCores : Z) (o : Options) : Z :=
  match threads o with
  | Some baseThreads =>
      if ultrafast o
      then Z.max 2 (Z.min (ceil_3_2 baseThreads) 32)
      else Z.max 2 (Z.min baseThreads 32)
  | None =>
      if ultrafast o
      then Z.max 2 (Z.min (totalCores * 2) 32)
      else Z.max 2 (Z.min (ceil_3_2 totalCores) 32)
  end.

(** An entry of [chunks]: [{ files: chunk, workerIndex: i }]. *)
Record WorkChunk (A : Type) : Type := mkChunk
  { files : list A; workerIndex : nat }.
Arguments mkChunk {A} _ _.
Arguments files {A} _.
Arguments workerIndex {A} _.

(** The loop of [chunkFiles]
    [for (let i = 0; i < threadCount && i * filesPerWorker < files.length; i++)]
    from counter [i], as the list of chunks it pushes.  [fuel] bounds the
    number of iterations; the loop leaves by its own condition within
    [threadCount - i] of them ([chunkLoop_fuel] below). *)
Fixpoint chunkLoop {A : Type} (fuel i : nat) (fs : list A)
                   (threadCount filesPerWorker : nat)
  : list (WorkChunk A) :=
  match fuel with
  | O => []
  | S fuel' =>
      if (i <? threadCount)%nat && (i * filesPerWorker <? List.length fs)%nat
      then
        let start := (i * filesPerWorker)%nat in
        let stop := Nat.min (start + filesPerWorker) (List.length fs) in
        let chunk := slice fs start stop in
        (if (0 <? List.length chunk)%nat then [mkChunk chunk i] else [])
        ++ chunkLoop fuel' (S i) fs threadCount filesPerWorker
      else []
  end.

(** [chunkFiles(files)] with [this.threadCount = threadCount]. *)
Definition chunkFiles {A : Type} (fs : list A) (threadCount : nat)
  : list (WorkChunk A) :=
  let filesPerWorker := ceil_div (List.length fs) threadCount in
  chunkLoop threadCount 0 fs threadCount filesPerWorker.

(** An entry of [results.errors]; [worker] is absent on the
    single-threaded path. *)
Record ErrorEntry : Type := mkError
  { e_file : string; e_error : string; e_worker : option Z }.

(** An entry of [results.files]. *)
Record FilePair : Type := mkPair
  { p_inputFile : Worker.Input; p_outputFile : string }.

(** The [results] object of [processFiles], shared by the handlers of
    all workers. *)
Record BatchResults : Type := mkBatch
  { processed : Z;
    errors : list ErrorEntry;
    totalSizeReduction : Z;
    processingTimes : list Z;
    batchFiles : list FilePair }.

Definition emptyResults : BatchResults := mkBatch 0 [] 0 [] [].

(** The body of [message.results.forEach(result => ...)]. *)
Definition onResult (results : BatchResults) (r : Worker.ItemResult)
  : BatchResults :=
  match r with
  | Worker.ItemOk result processingTime _ =>
      mkBatch (processed results + 1)
        (errors results)
        (totalSizeReduction results
         + (Worker.originalSize result - Worker.compressedSize result))
        (processingTimes results ++ [processingTime])
        (batchFiles results
         ++ match Worker.outputFile result with
            | Some out =>
                if truthy_string out
                then [mkPair (Worker.inputFile result) out]
                else []
            | None => []
            end)
  | Worker.ItemFailed _ _ _ => results
  end.

(** What [worker.on('message', ...)] does to [results]. *)
Definition onMessage (results : BatchResults) (message : Worker.Message)
  : BatchResults :=
  match message with
  | Worker.Progress _ _ _ => results
  | Worker.ErrorMessage file error workerIndex =>
      mkBatch (processed results)
        (errors results ++ [mkError file error (Some workerIndex)])
        (totalSizeReduction results)
        (processingTimes results)
        (batchFiles results)
  | Worker.Complete rs _ => fold_left onResult rs results
  | Worker.WorkerError _ _ => results
  end.

(** The promise [createWorker] returns: a promise settles once, later
    calls of [resolve] and [reject] change nothing. *)
Inductive Settlement : Type :=
| Pending
| Resolved
| Rejected (reason : string).

Definition settle (now : Settlement) (next : Settlement) : Settlement :=
  match now with Pending => next | _ => now end.

(** What [worker.on('message', ...)] does to the worker's promise. *)
Definition onMessageSettle (now : Settlement) (message : Worker.Message)
  : Settlement :=
  match message with
  | Worker.Complete _ _ => settle now Resolved
  | Worker.WorkerError error workerIndex =>
      settle now
        (Rejected ("Worker " ++ js_number_toString workerIndex
                   ++ " failed: " ++ error)%string)
  | _ => now
  end.

(** What one entry of a [complete] message adds to [results]. *)
Definition addedCount (r : Worker.ItemResult) : Z :=
  match r with Worker.ItemOk _ _ _ => 1 | Worker.ItemFailed _ _ _ => 0 end.

Definition addedReduction (r : Worker.ItemResult) : Z :=
  match r with
  | Worker.ItemOk result _ _ =>
      Worker.originalSize result - Worker.compressedSize result
  | Worker.ItemFailed _ _ _ => 0
  end.

Definition addedTimes (r : Worker.ItemResult) : list Z :=
  match r with
  | Worker.ItemOk _ processingTime _ => [processingTime]
  | Worker.ItemFailed _ _ _ => []
  end.

Definition addedFiles (r : Worker.ItemResult) : list FilePair :=
  match r with
  | Worker.ItemOk result _ _ =>
      match Worker.outputFile result with
      | Some out =>
          if truthy_string out
          then [mkPair (Worker.inputFile result) out]
          else []
      | None => []
      end
  | Worker.ItemFailed _ _ _ => []
  end.

(** The entries of a message's [results]; other messages carry none. *)
Definition completed (message : Worker.Message) : list Worker.ItemResult :=
  match message with Worker.Complete rs _ => rs | _ => [] end.

(** The entry an [error] message adds to [results.errors]. *)
Definition reported (message : Worker.Message) : list ErrorEntry :=
  match message with
  | Worker.ErrorMessage file error workerIndex =>
      [mkError file error (Some workerIndex)]
  | _ => []
  end.

Definition zsum (l : list Z) : Z := fold_right Z.add 0 l.

(** [results] after the messages [messages] arrived in this order. *)
Definition handleMessages (results : BatchResults)
                          (messages : list Worker.Message) : BatchResults :=
  fold_left onMessage messages results.

Definition settleMessages (now : Settlement)
                          (messages : list Worker.Message) : Settlement :=
  fold_left onMessageSettle messages now.

(** The test [this.threadCount > totalCores * 2] at the end of
    [calculateOptimalThreads], which prints the high-thread-count
    warning. *)
Definition highThreadWarning (totalCores : Z) (o : Options) : bool :=
  totalCores * 2 <? calculateOptimalThreads totalCores o.

(** A [complete] or [worker_error] message: the last word of a worker. *)
Definition isTerminal (message : Worker.Message) : bool :=
  match message with
  | Worker.Complete _ _ | Worker.WorkerError _ _ => true
  | _ => false
  end.

Definition isRejected (s : Settlement) : bool :=
  match s with Rejected _ => true | _ => false end.

Section SingleThread.

(** [mime.lookup(file)]: the type, or [None] for [false]. *)
Variable mimeLookup : string -> option string.
(** [imageCompressor.compress(file, options)] and
    [videoCompressor.compress(file, options)]. *)
Variable imageCompress : string -> Worker.CompressionResult + string.
Variable videoCompress : string -> Worker.CompressionResult + string.
(** [new VideoCompressor({...})]: done, or the message of the error
    thrown. *)
Variable videoSetup : unit + string.
(** [Date.now() - startTime] as measured for a file. *)
Variable elapsed : string -> Z.

(** [mimeType && mimeType.startsWith(kind)] *)
Definition mimeStartsWith (kind file : string) : bool :=
  match mimeLookup file with
  | Some mimeType => prefix kind mimeType
  | None => false
  end.

(** The [try] block of the loop up to [result]; [haveVideo] tells
    whether [videoCompressor] was constructed. *)
Definition compressOne (haveVideo : bool) (file : string)
  : Worker.CompressionResult + string :=
  if mimeStartsWith "image/" file then imageCompress file
  else if mimeStartsWith "video/" file then
    if haveVideo then videoCompress file
    else inr "VideoCompressor not available for video file"%string
  else inr ("Unsupported file type: "
            ++ match mimeLookup file with
               | Some m => if truthy_string m then m else "unknown"
               | None => "unknown"
               end)%string.

(** One iteration of [for (const file of files)]. *)
Definition singleStep (haveVideo : bool) (results : BatchResults)
                      (file : string) : BatchResults :=
  match compressOne haveVideo file with
  | inl result =>
      mkBatch (processed results + 1)
        (errors results)
        (totalSizeReduction results
         + (Worker.originalSize result - Worker.compressedSize result))
        (processingTimes results ++ [elapsed file])
        (batchFiles results
         ++ match Worker.outputFile result with
            | Some out =>
                if truthy_string out
                then [mkPair (Worker.inputFile result) out]
                else []
            | None => []
            end)
  | inr e =>
      mkBatch (processed results)
        (errors results ++ [mkError file e None])
        (totalSizeReduction results)
        (processingTimes results)
        (batchFiles results)
  end.

(** [processSingleThreaded(files, options)]: the results, or the message
    of the error it rejects with. *)
Definition processSingleThreaded (files : list string)
  : BatchResults + string :=
  let hasVideo := existsb (mimeStartsWith "video/") files in
  if hasVideo then
    match videoSetup with
    | inl _ => inl (fold_left (singleStep true) files emptyResults)
    | inr e => inr e
    end
  else inl (fold_left (singleStep false) files emptyResults).

End SingleThread.

Section Pool.

(** The collaborators of the workers; [setup w] is what the setup of
    worker [w] does. *)
Variable imageCompress : Worker.Input -> Worker.CompressionResult + string.
Variable videoCompress : string -> Worker.CompressionResult + string.
Variable basename : string -> string.
Variable extname : string -> string.
Variable elapsed : Worker.Task -> Z.
Variable setup : Z -> unit + string.

(** The messages the worker of a chunk posts, in order. *)
Definition workerPosts (chunk : WorkChunk Worker.Task)
  : list Worker.Message :=
  let w := Z.of_nat (workerIndex chunk) in
  Worker.processChunk imageCompress videoCompress basename extname elapsed
    (setup w) w (files chunk).

(** All messages of a batch, worker after worker; the pool receives
    them in some interleaving of the workers' sequences. *)
Definition allPosts (tasks : list Worker.Task) (threadCount : nat)
  : list Worker.Message :=
  flat_map workerPosts (chunkFiles tasks threadCount).

(** The promises [executeWorkers] waits for, once every worker is
    through. *)
Definition workerPromises (tasks : list Worker.Task) (threadCount : nat)
  : list Settlement :=
  map (fun chunk => settleMessages Pending (workerPosts chunk))
    (chunkFiles tasks threadCount).

End Pool.

End ThreadManager.

(* ------------------------------------------------------------------ *)
(** ** Image compressor: the adaptive engine *)

Module ImageCompressor.

Local Open Scope string_scope.
Local Open Scope list_scope.
Local Open Scope Z_scope.
Local Open Scope engine_scope.

(** The fields of [this] the methods below read. *)
Record Self : Type := mkSelf
  { speedOptimized : bool; skipOptimizations : bool }.

(** [getCompressionOptions(format, quality)] *)
Definition getCompressionOptions (self : Self) (format : string)
                                 (quality : Z) : JsObject :=
  let f := toLowerCase format in
  if f === "avif" then
    [("quality", VNum (Z.max 20 (quality - 35)));
     ("effort", VNum (if speedOptimized self then 2 else 6));
     ("chromaSubsampling", VStr "4:2:0");
     ("lossless", VBool false)]
  else if f === "webp" then
    [("quality", VNum quality);
     ("effort", VNum (if speedOptimized self then 2 else 6));
     ("lossless", VBool false);
     ("smartSubsample", VBool true);
     ("nearLossless", VBool false)]
  else if (f === "jpeg") || (f === "jpg") then
    [("quality", VNum quality);
     ("progressive", VBool true);
     ("mozjpeg", VBool (negb (speedOptimized self)));
     ("chromaSubsampling", VStr "4:2:0");
     ("optimiseCoding", VBool (negb (skipOptimizations self)));
     ("optimiseScans", VBool (negb (skipOptimizations self)))]
  else if f === "png" then
    [("quality", VNum quality);
     ("compressionLevel", VNum (if speedOptimized self then 6 else 9));
     ("palette", VBool (quality <? 90));
     ("adaptiveFiltering", VBool (negb (skipOptimizations self)));
     ("effort", VNum (if speedOptimized self then 5 else 10))]
  else [("quality", VNum quality)].

(** [getExtensionForFormat(format)] *)
Definition getExtensionForFormat (format : string) : MapValue :=
  if format === "avif" then Str ".avif"
  else if format === "webp" then Str ".webp"
  else if format === "jpeg" then Str ".jpg"
  else if format === "png" then Str ".png"
  else if includes objectPrototypeKeys format then Inherited format
  else Str ".jpg".

(** A strategy of the extreme path: [{ format, quality, effort?,
    palette?, colors?, resize? }]. *)
Record Strategy : Type := mkStrategy
  { s_format : string;
    s_quality : Z;
    s_effort : option Z;
    s_palette : option bool;
    s_colors : option Z;
    s_resize : option Q }.

Definition strat (f : string) (q : Z) (e : option Z) : Strategy :=
  mkStrategy f q e None None None.
Definition strat_png (q c : Z) : Strategy :=
  mkStrategy "png" q None (Some true) (Some c) None.
Definition strat_resized (f : string) (q : Z) (e : option Z) (r : Q)
  : Strategy :=
  mkStrategy f q e None None (Some r).

(** What [strategies.push(...)] adds for one entry of [formats]. *)
Definition presets (fmt : string) : list Strategy :=
  if fmt === "avif" then
    [strat "avif" 20 (Some 8); strat "avif" 25 (Some 6);
     strat "avif" 30 (Some 4); strat "avif" 35 (Some 2)]
  else if fmt === "webp" then
    [strat "webp" 10 (Some 6); strat "webp" 20 (Some 4);
     strat "webp" 30 (Some 2)]
  else if fmt === "jpeg" then
    [strat "jpeg" 10 None; strat "jpeg" 20 None; strat "jpeg" 30 None]
  else if fmt === "png" then
    [strat_png 10 64; strat_png 20 128]
  else [].

Definition resizes : list Q :=
  [8 # 10; 6 # 10; 5 # 10; 4 # 10; 3 # 10; 2 # 10; 15 # 100; 1 # 10]%Q.

(** [generateCompressionStrategies(keepDims, preferredFormat)] *)
Definition generateCompressionStrategies (keepDims : bool)
                                         (preferredFormat : string)
  : list Strategy :=
  let formats :=
    if truthy_string preferredFormat && negb (preferredFormat === "auto")
    then [preferredFormat]
    else ["avif"; "webp"; "jpeg"; "png"] in
  flat_map presets formats
  ++ (if negb keepDims
      then flat_map (fun r =>
             [strat_resized "avif" 30 (Some 2) r;
              strat_resized "webp" 40 (Some 2) r;
              strat_resized "jpeg" 50 None r]) resizes
      else []).

(** What [testStrategy] resolves to: the object with [success: true]
    ([size] is [buffer.length]) or the one with [success: false]
    ([size] is [Infinity]). *)
Inductive StrategyOutcome : Type :=
| Succeeded (strategy : Strategy) (buffer : Buffer) (processingTime : Z)
| Failed (strategy : Strategy) (error : string).

(** An outcome with [success: true]. *)
Record Success : Type := mkSuccess
  { strategy : Strategy; buffer : Buffer; processingTime : Z }.

Definition size (r : Success) : Z := buffer_length (buffer r).

(** [results.filter(r => r.status === 'fulfilled' && r.value.success &&
    r.value.size <= targetSize).map(r => r.value)]; every promise of
    [testStrategy] is fulfilled. *)
Fixpoint under_budget (results : list StrategyOutcome) (targetSize : Z)
  : list Success :=
  match results with
  | [] => []
  | Succeeded st b t :: rest =>
      if buffer_length b <=? targetSize
      then mkSuccess st b t :: under_budget rest targetSize
      else under_budget rest targetSize
  | Failed _ _ :: rest => under_budget rest targetSize
  end.


(** [selectBestResult(results, strategy, targetSize)]; [None] stands for
    [undefined], the value of [results[0]] on an empty array.  The test
    [(bestQuality.size / targetSize) * 100 <= 95] is taken on exact
    numbers. *)
Definition selectBestResult (results : list Success) (strategy : string)
                            (targetSize : Z) : option Success :=
  let smallest := hd_error results in
  let fastest :=
    hd_error (js_sort (fun a b => processingTime a - processingTime b)
                results) in
  let bestQuality :=
    hd_error (js_sort (fun a b => size b - size a) results) in
  if strategy === "size" then smallest
  else if strategy === "speed" then fastest
  else if strategy === "quality" then bestQuality
  else
    match bestQuality with
    | Some bq =>
        if 100 * size bq <=? 95 * targetSize then bestQuality else smallest
    | None => None
    end.

(** The configurations of [optimizePNG], in the order they are tried. *)
Definition pngConfigs : list JsObject :=
  [ [("compressionLevel", VNum 9); ("palette", VBool true);
     ("quality", VNum 50); ("colours", VNum 128)];
    [("compressionLevel", VNum 9); ("palette", VBool true);
     ("quality", VNum 40); ("colours", VNum 64)];
    [("compressionLevel", VNum 9); ("palette", VBool true);
     ("quality", VNum 30); ("colours", VNum 32)];
    [("compressionLevel", VNum 9); ("palette", VBool false);
     ("quality", VNum 50)] ].

(** The loop variables of the binary search. *)
Record SearchState : Type := mkSearch
  { minQ : Z; maxQ : Z; bestBuffer : option Buffer }.

Definition maxAttempts : nat := 15.

(** An entry of [formats] in [findBestFormat], with the options its
    encode was started with. *)
Record Candidate : Type := mkCandidate
  { c_format : string; c_extension : string; c_opts : JsObject }.

(** An entry of [results] in [findBestFormat]: the candidate with its
    [buffer], or with its [error] (and [size: Infinity]). *)
Record FormatResult : Type := mkFormatResult
  { r_format : string; r_extension : string; r_result : Buffer + string }.

(** [formats] as [findBestFormat] builds it. *)
Definition formatCandidates (hasAlpha : bool) (quality : Z)
  : list Candidate :=
  [mkCandidate "avif" ".avif"
     [("quality", VNum (Z.max 20 (quality - 35))); ("effort", VNum 4);
      ("chromaSubsampling", VStr "4:2:0")];
   mkCandidate "webp" ".webp"
     [("quality", VNum quality); ("effort", VNum 4);
      ("smartSubsample", VBool true)]]
  ++ (if negb hasAlpha
      then [mkCandidate "jpeg" ".jpg"
              [("quality", VNum quality); ("progressive", VBool true);
               ("mozjpeg", VBool true);
               ("chromaSubsampling", VStr "4:2:0")]]
      else [])
  ++ (if hasAlpha || (90 <? quality)
      then [mkCandidate "png" ".png"
              [("quality", VNum quality); ("compressionLevel", VNum 9);
               ("palette", VBool (quality <? 90)); ("effort", VNum 10)]]
      else []).

(** [!r.error && r.size < originalSize * 0.95], on exact numbers. *)
Definition qualifies (originalSize : Z) (r : FormatResult) : bool :=
  match r_result r with
  | inl b => 100 * buffer_length b <? 95 * originalSize
  | inr _ => false
  end.

(** The comparator [(a, b) => a.size - b.size] on results that passed
    the filter (all of them carry a buffer). *)
Definition result_size (r : FormatResult) : Z :=
  match r_result r with inl b => buffer_length b | inr _ => 0 end.

(** [results.filter(...).sort(...)[0] || results[0]] *)
Definition pickBest (originalSize : Z) (results : list FormatResult)
  : option FormatResult :=
  match js_sort (fun a b => result_size a - result_size b)
          (filter (qualifies originalSize) results) with
  | best :: _ => Some best
  | [] => hd_error results
  end.

(** The options of one [compress] call the engine reads; [o_targetSize]
    is [sharpInstance._targetSize], the parsed byte budget. *)
Record CompressionOptions : Type := mkCompressionOptions
  { o_format : option string;
    o_quality : option Z;
    o_strategy : option string;
    o_keepDimensions : bool;
    o_targetSize : option Z }.

Section Engine.

(** A sharp instance: the decoded source with the transformations queued
    on it.  [clone()] yields an instance with the same pipeline, so a
    clone is the instance itself here. *)
Variable Pipeline : Type.
(** [await instance[format](opts).toBuffer()]: the bytes, or the message
    of the error thrown. *)
Variable toBuffer : Pipeline -> string -> JsObject -> Buffer + string.
(** [instance.resize(width, height, { fit: 'inside', ... })] *)
Variable resize : Pipeline -> Z -> Z -> Pipeline.
(** [width] and [height] of [await sharpInstance.metadata()]. *)
Variable dimensions : Pipeline -> Z * Z.
(** [Date.now() - startTime] as measured while a strategy is tested. *)
Variable elapsed : Strategy -> Z.
(** [outputPath.replace(/\.[^.]+$/, ext)] *)
Variable replaceExtension : string -> string -> string.
(** [path.extname(outputPath).toLowerCase()] *)
Variable extname_lower : string -> string.

Variable self : Self.

(** One call of the codec. *)
Definition codec (instance : Pipeline) (format : string) (opts : JsObject)
  : M Buffer :=
  ([EvCodec format opts], toBuffer instance format opts).

(** [compressWithQuality(instance, format, quality, options)] *)
Definition compressWithQuality (instance : Pipeline) (format : string)
                               (quality : Z) : M Buffer :=
  tell (EvCompressWithQuality format quality) ;;;
  codec instance format (getCompressionOptions self format quality).

(** The [while (minQ <= maxQ && attempts < maxAttempts)] loop;
    [remaining] is [maxAttempts - attempts]. *)
Fixpoint searchLoop (remaining : nat) (sharpInstance : Pipeline)
                    (format : string) (targetSize : Z) (st : SearchState)
  : M SearchState :=
  match remaining with
  | O => ret st
  | S n =>
      if minQ st <=? maxQ st then
        let q := (minQ st + maxQ st) / 2 in
        buffer <- compressWithQuality sharpInstance format q ;;
        searchLoop n sharpInstance format targetSize
          (if buffer_length buffer <=? targetSize
           then mkSearch (q + 1) (maxQ st) (Some buffer)
           else mkSearch (minQ st) (q - 1) (bestBuffer st))
      else ret st
  end.

Definition searchStart : SearchState := mkSearch 5 95 None.

(** [binarySearchQuality(sharpInstance, outputPath, format, targetSize)] *)
Definition binarySearchQuality (sharpInstance : Pipeline)
                               (outputPath format : string)
                               (targetSize : Z) : M string :=
  st <- searchLoop maxAttempts sharpInstance format targetSize searchStart ;;
  match bestBuffer st with
  | Some bestBuffer =>
      tell (EvWriteFile outputPath bestBuffer) ;;; ret outputPath
  | None =>
      buffer <- compressWithQuality sharpInstance format 5 ;;
      tell (EvWriteFile outputPath buffer) ;;; ret outputPath
  end.

(** [binarySearchQualityBuffer(sharpInstance, format, targetSize)] *)
Definition binarySearchQualityBuffer (sharpInstance : Pipeline)
                                     (format : string) (targetSize : Z)
  : M Buffer :=
  st <- searchLoop maxAttempts sharpInstance format targetSize searchStart ;;
  match bestBuffer st with
  | Some bestBuffer => ret bestBuffer
  | None => compressWithQuality sharpInstance format 5
  end.

(** The [for (const config of configs)] loop of [optimizePNG]: the path
    it returns from inside the loop, or [None] when it runs out. *)
Fixpoint pngLoop (configs : list JsObject) (sharpInstance : Pipeline)
                 (outputPath : string) (targetSize : Z)
  : M (option string) :=
  match configs with
  | [] => ret None
  | config :: rest =>
      buffer <- codec sharpInstance "png" config ;;
      if buffer_length buffer <=? targetSize
      then tell (EvWriteFile outputPath buffer) ;;; ret (Some outputPath)
      else pngLoop rest sharpInstance outputPath targetSize
  end.

(** [optimizePNG(sharpInstance, outputPath, targetSize)] *)
Definition optimizePNG (sharpInstance : Pipeline) (outputPath : string)
                       (targetSize : Z) : M string :=
  r <- pngLoop pngConfigs sharpInstance outputPath targetSize ;;
  match r with
  | Some p => ret p
  | None =>
      buffer <- codec sharpInstance "png" (nth 0 pngConfigs []) ;;
      tell (EvWriteFile outputPath buffer) ;;; ret outputPath
  end.

(** [standardCompression(sharpInstance, outputPath, format, options,
    targetSize)] *)
Definition standardCompression (sharpInstance : Pipeline)
                               (outputPath format : string)
                               (targetSize : Z) : M string :=
  if includes ["jpeg"; "jpg"; "webp"; "avif"] format then
    binarySearchQuality sharpInstance outputPath format targetSize
  else if format === "png" then
    optimizePNG sharpInstance outputPath targetSize
  else tell (EvToFile outputPath) ;;; ret outputPath.

(** The options [testStrategy] passes to the codec for a strategy, or
    [None] when its [switch] has no case for the format. *)
Definition strategyOptions (s : Strategy) : option JsObject :=
  let effort := VNum (match s_effort s with
                      | Some e => num_or e 4
                      | None => 4
                      end) in
  if s_format s === "avif" then
    Some [("quality", VNum (s_quality s)); ("effort", effort);
          ("chromaSubsampling", VStr "4:2:0"); ("lossless", VBool false)]
  else if s_format s === "webp" then
    Some [("quality", VNum (s_quality s)); ("effort", effort);
          ("smartSubsample", VBool true); ("lossless", VBool false)]
  else if s_format s === "jpeg" then
    Some [("quality", VNum (s_quality s)); ("progressive", VBool false);
          ("chromaSubsampling", VStr "4:2:0"); ("mozjpeg", VBool false)]
  else if s_format s === "png" then
    Some [("quality", VNum (s_quality s)); ("compressionLevel", VNum 9);
          ("palette", VBool (match s_palette s with
                             | Some b => b
                             | None => false
                             end));
          ("colours", VNum (match s_colors s with
                            | Some c => num_or c 256
                            | None => 256
                            end));
          ("effort", VNum 10)]
  else None.

(** [testStrategy(sharpInstance, strategy, metadata, keepDims)]: it
    catches whatever the encode throws, so it always returns. *)
Definition testStrategy (sharpInstance : Pipeline) (s : Strategy)
                        (keepDims : bool) : M StrategyOutcome :=
  let instance :=
    match s_resize s with
    | Some r =>
        if negb keepDims then
          let '(w, h) := dimensions sharpInstance in
          resize sharpInstance
            (Z.max 16 (Qfloor (inject_Z w * r)))
            (Z.max 16 (Qfloor (inject_Z h * r)))
        else sharpInstance
    | None => sharpInstance
    end in
  try_catch
    (match strategyOptions s with
     | Some opts =>
         buffer <- codec instance (s_format s) opts ;;
         ret (Succeeded s buffer (elapsed s))
     | None => throw "Cannot read properties of undefined"
     end)
    (fun e => ret (Failed s e)).

(** The instance a strategy is encoded from: the pipeline itself, or
    the pipeline resized by the strategy's factor. *)
Definition testedInstance (sharpInstance : Pipeline) (s : Strategy)
                          (keepDims : bool) : Pipeline :=
  match s_resize s with
  | Some r =>
      if negb keepDims then
        let '(w, h) := dimensions sharpInstance in
        resize sharpInstance
          (Z.max 16 (Qfloor (inject_Z w * r)))
          (Z.max 16 (Qfloor (inject_Z h * r)))
      else sharpInstance
  | None => sharpInstance
  end.

(** What the test of strategy [s] has to give: a success with the
    buffer of its encode when the encode returns one, and a failure of
    [s] when the encode throws or the format has no encoder. *)
Definition testResult (sharpInstance : Pipeline) (keepDims : bool)
                      (s : Strategy) (r : StrategyOutcome) : Prop :=
  match strategyOptions s with
  | Some opts =>
      match toBuffer (testedInstance sharpInstance s keepDims)
              (s_format s) opts with
      | inl b => r = Succeeded s b (elapsed s)
      | inr e => r = Failed s e
      end
  | None => exists e, r = Failed s e
  end.

(** [Promise.allSettled(strategies.map(s => this.testStrategy(...)))],
    with the encodes laid out in catalog order. *)
Fixpoint testAll (sharpInstance : Pipeline) (strategies : list Strategy)
                 (keepDims : bool) : M (list StrategyOutcome) :=
  match strategies with
  | [] => ret []
  | s :: rest =>
      r <- testStrategy sharpInstance s keepDims ;;
      rs <- testAll sharpInstance rest keepDims ;;
      ret (r :: rs)
  end.

(** [successful] of [extremeCompressionParallel]. *)
Definition successful (results : list StrategyOutcome) (targetSize : Z)
  : list Success :=
  js_sort (fun a b => size a - size b) (under_budget results targetSize).

(** [options.strategy || 'auto'] *)
Definition strategyOrAuto (o : option string) : string :=
  match o with
  | Some s => if truthy_string s then s else "auto"
  | None => "auto"
  end.

(** [extremeCompressionParallel(sharpInstance, outputPath, format,
    options, originalSize, targetSize)] *)
Definition extremeCompressionParallel (sharpInstance : Pipeline)
    (outputPath format : string) (options : CompressionOptions)
    (targetSize : Z) : M string :=
  let keepDims := o_keepDimensions options in
  let strategies := generateCompressionStrategies keepDims format in
  results <- testAll sharpInstance strategies keepDims ;;
  match successful results targetSize with
  | [] => standardCompression sharpInstance outputPath format targetSize
  | ok =>
      match selectBestResult ok (strategyOrAuto (o_strategy options))
              targetSize with
      | Some chosen =>
          match getExtensionForFormat (s_format (strategy chosen)) with
          | Str ext =>
              let finalPath := replaceExtension outputPath ext in
              tell (EvWriteFile finalPath (buffer chosen)) ;;; ret finalPath
          | Inherited _ =>
              (* not reached: a chosen strategy is one of the catalog,
                 whose formats all have an extension of their own *)
              throw "extension is not a string"
          end
      | None => throw "Cannot read properties of undefined"
      end
  end.

(** [compressToTargetSizeFile(...)]; [targetSize / originalSize < 0.10]
    is taken on exact numbers. *)
Definition compressToTargetSizeFile (sharpInstance : Pipeline)
    (outputPath format : string) (options : CompressionOptions)
    (originalSize targetSize : Z) : M string :=
  if 10 * targetSize <? originalSize
  then extremeCompressionParallel sharpInstance outputPath format options
         targetSize
  else standardCompression sharpInstance outputPath format targetSize.

(** The [Promise.all(formats.map(async f => ...))] of [findBestFormat]:
    every candidate's encode with its error caught. *)
Definition raceFormats (sharpInstance : Pipeline)
                       (formats : list Candidate) : M (list FormatResult) :=
  (map (fun f => EvCodec (c_format f) (c_opts f)) formats,
   inl (map (fun f =>
               mkFormatResult (c_format f) (c_extension f)
                 (toBuffer sharpInstance (c_format f) (c_opts f)))
          formats)).

(** [findBestFormat(sharpInstance, metadata, quality, originalSize)] *)
Definition findBestFormat (sharpInstance : Pipeline) (hasAlpha : bool)
                          (quality originalSize : Z) : M FormatResult :=
  results <- raceFormats sharpInstance (formatCandidates hasAlpha quality) ;;
  match pickBest originalSize results with
  | Some best => ret best
  | None => throw "Cannot read properties of undefined"
  end.

(** [determineOutputFormat(outputPath, formatOption)] *)
Definition determineOutputFormat (outputPath : string)
                                 (formatOption : option string)
  : MapValue :=
  let fromPath :=
    let e := extname_lower outputPath in
    if e === ".avif" then Str "avif"
    else if e === ".webp" then Str "webp"
    else if (e === ".jpg") || (e === ".jpeg") then Str "jpeg"
    else if e === ".png" then Str "png"
    else if includes objectPrototypeKeys e then Inherited e
    else Str "jpeg" in
  match formatOption with
  | Some f =>
      if truthy_string f && negb (f === "auto") then
        let l := toLowerCase f in
        if (l === "jpg") || (l === "jpeg") then Str "jpeg"
        else if includes ["png"; "webp"; "avif"] l then Str l
        else if includes objectPrototypeKeys l then Inherited l
        else Str l
      else fromPath
  | None => fromPath
  end.

(** A format as the target-size path sees it.  That path only compares
    the format with format names; a value inherited from
    [Object.prototype] equals none of them, as does the name it is
    inherited under, which stands for it. *)
Definition formatKey (format : MapValue) : string :=
  match format with
  | Str name => name
  | Inherited key => key
  end.

(** [parseInt(options.quality) || 85] *)
Definition qualityOrDefault (q : option Z) : Z :=
  match q with Some z => num_or z 85 | None => 85 end.

(** [options.format === 'auto' || !options.format] *)
Definition formatIsAuto (o : option string) : bool :=
  match o with
  | Some f => (f === "auto") || negb (truthy_string f)
  | None => true
  end.

(** [compressToFile(sharpInstance, outputPath, options, originalSize,
    metadata)], with [hasAlpha = metadata.hasAlpha].  A target size of
    [0] is falsy, like an absent one.  [toFile] writes the bytes
    [toBuffer] returns. *)
Definition compressToFile (sharpInstance : Pipeline) (outputPath : string)
    (options : CompressionOptions) (originalSize : Z) (hasAlpha : bool)
  : M string :=
  let format := determineOutputFormat outputPath (o_format options) in
  match o_targetSize options with
  | Some (Zpos _ as targetSize) | Some (Zneg _ as targetSize) =>
      compressToTargetSizeFile sharpInstance outputPath (formatKey format)
        options originalSize targetSize
  | Some Z0 | None =>
      let quality := qualityOrDefault (o_quality options) in
      if formatIsAuto (o_format options) then
        result <- findBestFormat sharpInstance hasAlpha quality
                    originalSize ;;
        let finalPath := replaceExtension outputPath (r_extension result) in
        match r_result result with
        | inl buffer => tell (EvWriteFile finalPath buffer) ;;; ret finalPath
        | inr _ => throw "The data argument must be a Buffer"
        end
      else
        match format with
        | Str format =>
            buffer <- codec sharpInstance format
                        (getCompressionOptions self format quality) ;;
            tell (EvWriteFile outputPath buffer) ;;; ret outputPath
        | Inherited _ => throw "sharpInstance[format] is not a function"
        end
  end.

(** [await fs.readFile(path)]: the bytes on disk, or the message of the
    error thrown. *)
Variable readFile : string -> Buffer + string.

(** [standardCompressionBuffer(sharpInstance, format, options,
    targetSize)] *)
Definition standardCompressionBuffer (sharpInstance : Pipeline)
    (format : string) (options : CompressionOptions) (targetSize : Z)
  : M Buffer :=
  if includes ["jpeg"; "jpg"; "webp"; "avif"] format then
    binarySearchQualityBuffer sharpInstance format targetSize
  else
    let quality :=
      match o_quality options with Some q => num_or q 85 | None => 85 end in
    codec sharpInstance format (getCompressionOptions self format quality).

(** [compressToTargetSizeBuffer(sharpInstance, format, options,
    originalSize, targetSize)] *)
Definition compressToTargetSizeBuffer (sharpInstance : Pipeline)
    (format : string) (options : CompressionOptions)
    (originalSize targetSize : Z) : M Buffer :=
  if 10 * targetSize <? originalSize then
    result <- extremeCompressionParallel sharpInstance "temp.jpg" format
                options targetSize ;;
    ([], readFile result)
  else standardCompressionBuffer sharpInstance format options targetSize.

(** The codec method and the options of the [switch] in
    [compressToBuffer]. *)
Definition bufferEncode (format : string) (quality : Z)
  : string * JsObject :=
  let f := toLowerCase format in
  if f === "avif" then
    ("avif",
     [("quality", VNum (Z.max 20 (quality - 35)));
      ("effort", VNum (if speedOptimized self then 2 else 6));
      ("chromaSubsampling", VStr "4:2:0")])
  else if f === "webp" then
    ("webp",
     [("quality", VNum quality);
      ("effort", VNum (if speedOptimized self then 2 else 6));
      ("smartSubsample", VBool true)])
  else if (f === "jpeg") || (f === "jpg") then
    ("jpeg",
     [("quality", VNum quality);
      ("progressive", VBool true);
      ("mozjpeg", VBool (negb (speedOptimized self)));
      ("chromaSubsampling", VStr "4:2:0")])
  else if f === "png" then
    ("png",
     [("quality", VNum quality);
      ("compressionLevel", VNum (if speedOptimized self then 6 else 9));
      ("palette", VBool (quality <? 90));
      ("effort", VNum (if speedOptimized self then 5 else 10))])
  else ("jpeg", [("quality", VNum quality); ("progressive", VBool true)]).

(** [compressToBuffer(sharpInstance, format, options, originalSize)] *)
Definition compressToBuffer (sharpInstance : Pipeline) (format : string)
    (options : CompressionOptions) (originalSize : Z) : M Buffer :=
  match o_targetSize options with
  | Some (Zpos _ as targetSize) | Some (Zneg _ as targetSize) =>
      compressToTargetSizeBuffer sharpInstance format options originalSize
        targetSize
  | Some Z0 | None =>
      let quality := qualityOrDefault (o_quality options) in
      let '(method, opts) := bufferEncode format quality in
      codec sharpInstance method opts
  end.

End Engine.

(** The events of a loop that hands the qualities [qs], in this order,
    to [compressWithQuality]. *)
Definition search_trace (self : Self) (format : string) (qs : list Z)
  : list Event :=
  flat_map (fun q => [EvCompressWithQuality format q;
                      EvCodec format (getCompressionOptions self format q)])
    qs.

(** The largest quality of [qs] whose encode, of size [size_at q], is
    within [targetSize]; [None] when no quality of [qs] fits. *)
Fixpoint largest_tested_fit (size_at : Z -> Z) (targetSize : Z)
                            (qs : list Z) : option Z :=
  match qs with
  | [] => None
  | q :: rest =>
      let later := largest_tested_fit size_at targetSize rest in
      if size_at q <=? targetSize
      then Some (match later with Some m => Z.max q m | None => q end)
      else later
  end.

(** The paths of the files a run writes, by [fs.writeFile] or by
    [toFile], in order. *)
Fixpoint touched (t : list Event) : list string :=
  match t with
  | [] => []
  | EvWriteFile p _ :: t' => p :: touched t'
  | EvToFile p :: t' => p :: touched t'
  | _ :: t' => touched t'
  end.

(** A run that writes one file, the one whose path it returns, or throws
    without having written any. *)
Definition writes_once (m : M string) : Prop :=
  match outcome m with
  | inl path => touched (events m) = [path]
  | inr _ => touched (events m) = []
  end.

(** The four formats the engine has encode cases for. *)
Definition knownFormat (format : string) : bool :=
  includes ["avif"; "webp"; "jpeg"; "png"] format.

(** The strategy an outcome of [testStrategy] belongs to. *)
Definition outcome_strategy (o : StrategyOutcome) : Strategy :=
  match o with Succeeded s _ _ => s | Failed s _ => s end.

(** The codec calls of a run: format and options, in order. *)
Fixpoint codec_calls (t : list Event) : list (string * JsObject) :=
  match t with
  | [] => []
  | EvCodec f o :: t' => (f, o) :: codec_calls t'
  | _ :: t' => codec_calls t'
  end.

(** The elements of [l] up to and including the first that satisfies
    [p]; all of [l] when none does. *)
Fixpoint upto_first {A : Type} (p : A -> bool) (l : list A) : list A :=
  match l with
  | [] => []
  | x :: l' => if p x then [x] else x :: upto_first p l'
  end.

(** The palette size a PNG configuration asks for; sharp's default is
    256 colours. *)
Definition colours_of (o : JsObject) : Z :=
  match js_get o "colours" with Some (VNum c) => c | _ => 256 end.

(** Configuration [a] compresses harder than [b]: a lower quality and no
    larger palette. *)
Definition more_aggressive (a b : JsObject) : Prop :=
  match quality_of a, quality_of b with
  | Some qa, Some qb => qa < qb /\ colours_of a <= colours_of b
  | _, _ => False
  end.

(** "At least 5% smaller than the original", as the specification words
    the threshold of the format race. *)
Definition at_least_5_percent_smaller (originalSize sz : Z) : Prop :=
  100 * sz <= 95 * originalSize.

(** The search as the specification words it: at most [n] rounds over
    the range [lo, hi]; each round tries the midpoint and goes on above
    it when the encode fits the target and below it when it does not. *)
Fixpoint bisection (size_at : Z -> Z) (targetSize : Z) (n : nat)
                   (lo hi : Z) : list Z :=
  match n with
  | O => []
  | S n' =>
      if lo <=? hi then
        let q := (lo + hi) / 2 in
        q :: (if size_at q <=? targetSize
              then bisection size_at targetSize n' (q + 1) hi
              else bisection size_at targetSize n' lo (q - 1))
      else []
  end.

(** A codec event or a [compressWithQuality] call whose quality lies in
    [5, 95]; other events carry no quality. *)
Definition quality_in_range (ev : Event) : Prop :=
  match ev with
  | EvCompressWithQuality _ q => 5 <= q <= 95
  | EvCodec _ opts =>
      match quality_of opts with Some q => 5 <= q <= 95 | None => True end
  | _ => True
  end.

End ImageCompressor.

(* ------------------------------------------------------------------ *)
(** ** The public [compress]: validation and accumulation *)

Module Api.

Local Open Scope string_scope.
Local Open Scope list_scope.
Local Open Scope Z_scope.
Local Open Scope engine_scope.

(** A JavaScript string as the list of its UTF-16 code units, which is
    what a pattern without the [u] flag reads. *)
Definition CodeUnits : Type := list N.

(** The code units of a string of ASCII characters. *)
Definition code_units (s : string) : CodeUnits :=
  map (fun c => N.of_nat (nat_of_ascii c)) (list_ascii_of_string s).

(** A string as a message shows it; a code unit above 255 is shown as a
    question mark. *)
Definition display (s : CodeUnits) : string :=
  string_of_list_ascii
    (map (fun c => if (c <? 256)%N then ascii_of_N c else "?"%char) s).

Fixpoint units_eqb (a b : CodeUnits) : bool :=
  match a, b with
  | [], [] => true
  | x :: a', y :: b' => (x =? y)%N && units_eqb a' b'
  | _, _ => false
  end.

(** [options.targetSize]: [string | number].  Numbers are modelled for
    integers (below [10^21], where [toString] is decimal notation). *)
Inductive TargetSize : Type :=
| TargetString (s : CodeUnits)
| TargetNumber (n : Z).

(** Truthiness of [options.targetSize]. *)
Definition truthy_target (t : option TargetSize) : bool :=
  match t with
  | Some (TargetString s) => match s with [] => false | _ => true end
  | Some (TargetNumber n) => negb (n =? 0)
  | None => false
  end.

(** [targetSize.toString()] *)
Definition targetToString (t : TargetSize) : CodeUnits :=
  match t with
  | TargetString s => s
  | TargetNumber n => code_units (js_number_toString n)
  end.

(** [\d]: the digits [0] to [9]. *)
Definition is_digit (c : N) : bool := ((48 <=? c) && (c <=? 57))%N.

(** [\s]: the white space and the line terminators of the language --
    tab, line feed, vertical tab, form feed, carriage return, space,
    no-break space, U+1680, U+2000 to U+200A, U+2028, U+2029, U+202F,
    U+205F, U+3000 and U+FEFF. *)
Definition is_space (c : N) : bool :=
  (((9 <=? c) && (c <=? 13)) || (c =? 32) || (c =? 160) || (c =? 5760)
   || ((8192 <=? c) && (c <=? 8202)) || (c =? 8232) || (c =? 8233)
   || (c =? 8239) || (c =? 8287) || (c =? 12288) || (c =? 65279))%N.

(** Case folding of a pattern with the [i] flag and no [u] flag, as far
    as letters of [B|KB|MB|GB] go: only the ASCII letters fold. *)
Definition fold_case (c : N) : N :=
  if ((65 <=? c) && (c <=? 90))%N then (c + 32)%N else c.

(** The longest prefix of code units satisfying [p], and the rest. *)
Fixpoint span (p : N -> bool) (s : CodeUnits) : CodeUnits * CodeUnits :=
  match s with
  | [] => ([], [])
  | c :: s' =>
      if p c then let '(a, b) := span p s' in (c :: a, b) else ([], s)
  end.

(** The value of a sequence of decimal digits. *)
Definition digits_value (ds : CodeUnits) : Z :=
  fold_left (fun acc c => 10 * acc + (Z.of_N c - 48)) ds 0.

(** A match of [/^(\d+(?:\.\d+)?)\s*(B|KB|MB|GB)?$/i]: the digits before
    and after the point of group 1, and group 2 in upper case (empty
    when absent). *)
Record SizeMatch : Type := mkSizeMatch
  { intDigits : CodeUnits; fracDigits : CodeUnits; unit_ : string }.

Definition units : list (string * Z) :=
  [("B", 1); ("KB", 1024); ("MB", 1024 * 1024); ("GB", 1024 * 1024 * 1024)].

Fixpoint unit_multiplier (table : list (string * Z)) (u : string)
  : option Z :=
  match table with
  | [] => None
  | (k, v) :: rest => if u === k then Some v else unit_multiplier rest u
  end.

(** [target.match(/^(\d+(?:\.\d+)?)\s*(B|KB|MB|GB)?$/i)] *)
Definition matchTargetSize (target : CodeUnits) : option SizeMatch :=
  let '(ints, r1) := span is_digit target in
  match ints with
  | [] => None
  | _ =>
      let '(fracs, r2) :=
        match r1 with
        | 46%N :: r1' =>
            let '(fs, r) := span is_digit r1' in
            match fs with [] => ([], r1) | _ => (fs, r) end
        | _ => ([], r1)
        end in
      let '(_, r3) := span is_space r2 in
      let u := map fold_case r3 in
      if units_eqb u [] then Some (mkSizeMatch ints fracs "")
      else if units_eqb u (code_units "b")
      then Some (mkSizeMatch ints fracs "B")
      else if units_eqb u (code_units "kb")
      then Some (mkSizeMatch ints fracs "KB")
      else if units_eqb u (code_units "mb")
      then Some (mkSizeMatch ints fracs "MB")
      else if units_eqb u (code_units "gb")
      then Some (mkSizeMatch ints fracs "GB")
      else None
  end.

(** [Math.floor(parseFloat(match[1]) * multipliers[unit])] with
    [unit = (match[2] || 'B').toUpperCase()], on exact numbers: the
    floor of the decimal value of group 1 times the multiplier.  The
    code computes in double precision, where [parseFloat] rounds the
    decimal to the nearest double before the (exact) multiplication by a
    power of two; below [2^53] its result is this number or, when the
    rounding goes up across a multiple of [1 / multiplier], a larger
    one, never a smaller one. *)
Definition targetBytes (m : SizeMatch) : Z :=
  let u := if truthy_string (unit_ m) then unit_ m else "B" in
  let multiplier :=
    match unit_multiplier units u with Some v => v | None => 1 end in
  let scale := 10 ^ Z.of_nat (List.length (fracDigits m)) in
  ((digits_value (intDigits m) * scale + digits_value (fracDigits m))
   * multiplier) / scale.

(** The options [compress] validates.  [quality] and [threads] hold
    [parseInt(String(option), 10)] when the option is defined, with
    [None] inside for [NaN]. *)
Record Options : Type := mkOptions
  { quality : option (option Z);
    threads : option (option Z);
    targetSize : option TargetSize }.

Section Compress.

(** [(await fs.stat(file)).size] *)
Variable stat_size : string -> Z.

(** [validateSingleFileTarget(file, targetSize)] *)
Definition validateSingleFileTarget (file : string) (t : TargetSize)
  : M unit :=
  let originalSize := stat_size file in
  match matchTargetSize (targetToString t) with
  | Some m =>
      if originalSize <=? targetBytes m
      then throw "Target size must be smaller than original file"
      else ret tt
  | None => ret tt
  end.

(** [compress(input, options)] from its first statement to the point
    where the compressors are constructed and the files processed;
    [resolvedFiles] is what [resolveFiles] returns and [processFiles] is
    the rest of the function, the only part that compresses. *)
Definition compress {R : Type} (resolvedFiles : list string)
                    (options : Options)
                    (processFiles : list string -> M R) : M R :=
  match quality options with
   | Some None => throw "Quality must be a number between 1 and 100"
   | Some (Some q) =>
       if (q <? 1) || (100 <? q)
       then throw "Quality must be a number between 1 and 100"
       else ret tt
   | None => ret tt
   end ;;;
  match threads options with
   | Some None => throw "Threads must be a positive number"
   | Some (Some t) =>
       if t <? 1 then throw "Threads must be a positive number" else ret tt
   | None => ret tt
   end ;;;
  match targetSize options with
   | Some (TargetString s) =>
       if truthy_target (Some (TargetString s)) then
         match matchTargetSize s with
         | Some _ => ret tt
         | None => throw "Target size must be in format like 4MB, 500KB, 1GB"
         end
       else ret tt
   | _ => ret tt
   end ;;;
  match resolvedFiles with
   | [] => throw "No files found matching the pattern"
   | _ => ret tt
   end ;;;
  match targetSize options, resolvedFiles with
   | Some t, [file] =>
       if truthy_target (Some t) then validateSingleFileTarget file t
       else ret tt
   | _, _ => ret tt
   end ;;;
  processFiles resolvedFiles.

End Compress.

(** [ThreadManagerResult]: what [processFiles] returns, as [compress]
    reads it. *)
Record ThreadManagerResult : Type := mkThreadResult
  { tm_processed : Z;
    tm_totalSizeReduction : Z;
    tm_errors : list ThreadManager.ErrorEntry;
    tm_files : option (list ThreadManager.FilePair) }.

(** [CompressionResult] of the API. *)
Record CompressionResult : Type := mkCompressionResult
  { processed : Z;
    totalSizeReduction : Z;
    errors : list (string * string);
    files : list ThreadManager.FilePair }.

(** [accumulateThreadResults(source, target)]: [target] afterwards. *)
Definition accumulateThreadResults (source : ThreadManagerResult)
                                   (target : CompressionResult)
  : CompressionResult :=
  mkCompressionResult
    (processed target + tm_processed source)
    (totalSizeReduction target + tm_totalSizeReduction source)
    (errors target
     ++ map (fun e => (ThreadManager.e_file e, ThreadManager.e_error e))
          (tm_errors source))
    (files target
     ++ match tm_files source with Some fs => fs | None => [] end).

(** The result of [processFiles] as [compress] receives it. *)
Definition ofBatch (b : ThreadManager.BatchResults) : ThreadManagerResult :=
  mkThreadResult (ThreadManager.processed b)
    (ThreadManager.totalSizeReduction b) (ThreadManager.errors b)
    (Some (ThreadManager.batchFiles b)).

(** [FileGroups] *)
Record FileGroups : Type := mkFileGroups
  { images : list string; videos : list string; other : list string }.

Section Groups.

(** [mime.lookup(file)]: [None] when it returns [false]. *)
Variable mimeLookup : string -> option string.

(** One round of the loop of [groupFilesByType]. *)
Definition groupStep (groups : FileGroups) (file : string) : FileGroups :=
  match mimeLookup file with
  | Some mimeType =>
      if prefix "image/" mimeType then
        mkFileGroups (images groups ++ [file]) (videos groups) (other groups)
      else if prefix "video/" mimeType then
        mkFileGroups (images groups) (videos groups ++ [file]) (other groups)
      else
        mkFileGroups (images groups) (videos groups) (other groups ++ [file])
  | None =>
      mkFileGroups (images groups) (videos groups) (other groups ++ [file])
  end.

(** [groupFilesByType(files)] *)
Definition groupFilesByType (files : list string) : FileGroups :=
  fold_left groupStep files (mkFileGroups [] [] []).

End Groups.

End Api.

(** [ImageCompressor.parseTargetSize(targetSize)]: the compressor's own
    reading of a target size, with the pattern and the arithmetic of
    [validateSingleFileTarget]; it throws where the other skips. *)
Definition parseTargetSize (targetSize : Api.TargetSize) : M Z :=
  match Api.matchTargetSize (Api.targetToString targetSize) with
  | Some m => ret (Api.targetBytes m)
  | None =>
      throw ("Invalid format: "
             ++ Api.display (Api.targetToString targetSize))%string
  end.

(* ------------------------------------------------------------------ *)
(** ** System warnings (src/unnamed/part_001, class SystemWarnings) *)

Module SystemWarnings.

Local Open Scope Z_scope.

Inductive WarningType : Type := OverSubscription | Memory | DiskIo.

Inductive Severity : Type := Low | Medium | High.

(** [SystemWarning] without its message text. *)
Record SystemWarning : Type := mkWarning
  { type_ : WarningType; severity : Severity }.

(** [SystemOptimizationOptions]; [threads] is modelled for integers. *)
Record SystemOptimizationOptions : Type := mkOptions
  { threads : option Z; ultrafast : bool }.

Section Check.

(** [os.cpus().length] *)
Variable cpuCores : Z.
(** [memoryUsagePercent > 85], as the host reports its memory. *)
Variable memoryHigh : bool.
(** [(await SystemWarnings.checkDiskType()).isHDD]; [checkDiskType]
    catches its own errors and never rejects. *)
Variable isHDD : bool.

(** [options.threads ?? (options.ultrafast ? cpuCores
                          : Math.floor(cpuCores * 0.75))] *)
Definition threadCount (options : SystemOptimizationOptions) : Z :=
  match threads options with
  | Some t => t
  | None => if ultrafast options then cpuCores else (3 * cpuCores) / 4
  end.

(** [checkSystemOptimization(options)]; [threadCount > cpuCores * 1.5]
    is compared on integers as [2 * threadCount > 3 * cpuCores]. *)
Definition checkSystemOptimization (options : SystemOptimizationOptions)
  : list SystemWarning :=
  (if 3 * cpuCores <? 2 * threadCount options
   then [mkWarning OverSubscription Medium] else [])
  ++ (if memoryHigh then [mkWarning Memory High] else [])
  ++ (if isHDD then [mkWarning DiskIo Low] else []).

End Check.

End SystemWarnings.

(* ------------------------------------------------------------------ *)
(** ** Progress accounting (src/unnamed/part_000, class ProgressManager)

    The counters of the class on integer byte counts; what it prints,
    and the percentages it formats with [toFixed], are left out. *)

Module ProgressManager.

Local Open Scope Z_scope.

Record ProgressEntry : Type := mkEntry
  { originalSize : Z; compressedSize : Z }.

Record Self : Type := mkSelf
  { totalFiles : Z;
    processedFiles : Z;
    startTime : Z;
    totalOriginalSize : Z;
    totalCompressedSize : Z;
    results : list ProgressEntry }.

(** [new ProgressManager(totalFiles)] at time [now]. *)
Definition constructor (now total : Z) : Self :=
  mkSelf total 0 now 0 0 [].

(** [update(fileName, result)] *)
Definition update (self : Self) (result : ProgressEntry) : Self :=
  mkSelf (totalFiles self)
    (processedFiles self + 1)
    (startTime self)
    (totalOriginalSize self + originalSize result)
    (totalCompressedSize self + compressedSize result)
    (results self ++ [result]).

(** [reset()] at time [now]. *)
Definition reset (now : Z) (self : Self) : Self :=
  mkSelf (totalFiles self) 0 now 0 0 [].

(** A call on a progress manager, with the clock reading it sees. *)
Inductive Call : Type :=
| Update (result : ProgressEntry)
| Reset (now : Z).

Definition call (self : Self) (c : Call) : Self :=
  match c with
  | Update result => update self result
  | Reset now => reset now self
  end.

(** The integer fields of [getStats()] at time [now]. *)
Record ProgressStatistics : Type := mkStats
  { s_totalFiles : Z;
    s_processedFiles : Z;
    s_elapsedTime : Z;
    s_totalOriginalSize : Z;
    s_totalCompressedSize : Z;
    s_spaceSaved : Z }.

Definition getStats (now : Z) (self : Self) : ProgressStatistics :=
  mkStats (totalFiles self) (processedFiles self) (now - startTime self)
    (totalOriginalSize self) (totalCompressedSize self)
    (totalOriginalSize self - totalCompressedSize self).

(** [formatTime(milliseconds)] for a whole number of milliseconds;
    [%] is the remainder that takes the sign of the dividend. *)
Definition formatTime (milliseconds : Z) : string :=
  let seconds := milliseconds / 1000 in
  let minutes := seconds / 60 in
  let hours := minutes / 60 in
  if 0 <? hours then
    (js_number_toString hours ++ "h "
     ++ js_number_toString (Z.rem minutes 60) ++ "m "
     ++ js_number_toString (Z.rem seconds 60) ++ "s")%string
  else if 0 <? minutes then
    (js_number_toString (Z.rem minutes 60) ++ "m "
     ++ js_number_toString (Z.rem seconds 60) ++ "s")%string
  else (js_number_toString seconds ++ "s")%string.

End ProgressManager.

(* ------------------------------------------------------------------ *)
(** ** File names (src/src/workers/compressionWorker.ts, class FileUtils)

    A string is the list of its UTF-16 code units, which is what the
    patterns of the class and [length] see. *)

Module FileUtils.

Local Open Scope N_scope.

Definition JsString : Type := list N.

(** A code unit of the class that [validatePath] rejects and
    [getSafeFileName] replaces: less-than, greater-than, colon, double
    quote, vertical bar, question mark and asterisk. *)
Definition invalidChar (c : N) : bool :=
  (c =? 60) || (c =? 62) || (c =? 58) || (c =? 34) || (c =? 124)
  || (c =? 63) || (c =? 42).

(** A code unit of [\s], which is also what [trim] strips: the white
    space and line terminators of the language. *)
Definition whiteSpace (c : N) : bool :=
  ((9 <=? c) && (c <=? 13)) || (c =? 32) || (c =? 160) || (c =? 5760)
  || ((8192 <=? c) && (c <=? 8202)) || (c =? 8232) || (c =? 8233)
  || (c =? 8239) || (c =? 8287) || (c =? 12288) || (c =? 65279).

Definition underscore : N := 95.

(** [s.replace(/p+/g, '_')] for a class [p] of code units: every
    maximal run of [p] becomes one underscore; [inRun] tells that the
    previous code unit was in [p]. *)
Fixpoint replaceRuns (p : N -> bool) (inRun : bool) (s : JsString)
  : JsString :=
  match s with
  | [] => []
  | c :: s' =>
      if p c then
        if inRun then replaceRuns p true s'
        else underscore :: replaceRuns p true s'
      else c :: replaceRuns p false s'
  end.

Fixpoint trimStart (s : JsString) : JsString :=
  match s with
  | [] => []
  | c :: s' => if whiteSpace c then trimStart s' else s
  end.

(** [s.trim()] *)
Definition trim (s : JsString) : JsString :=
  rev (trimStart (rev (trimStart s))).

(** [validatePath(filePath)]: [inl true], or the error thrown. *)
Definition validatePath (filePath : JsString) : bool + string :=
  if existsb invalidChar filePath then
    inr "Invalid characters in file path"%string
  else if (260 <? List.length filePath)%nat then
    inr "File path too long"%string
  else inl true.

(** [getSafeFileName(fileName)]; [_{2,}] replaced by one underscore is
    every run of underscores replaced by one. *)
Definition getSafeFileName (fileName : JsString) : JsString :=
  trim
    (replaceRuns (N.eqb underscore) false
       (replaceRuns whiteSpace false
          (map (fun c => if invalidChar c then underscore else c)
             fileName))).

(** No two underscores in a row, [prev] telling that the code unit
    before was one. *)
Fixpoint noDoubleUnderscore (prev : bool) (s : JsString) : bool :=
  match s with
  | [] => true
  | c :: s' =>
      if N.eqb underscore c then negb prev && noDoubleUnderscore true s'
      else noDoubleUnderscore false s'
  end.

End FileUtils.

(* ------------------------------------------------------------------ *)
(** ** Concrete collaborators

    Small codecs and file systems on which the model runs; the worked
    instances at the end of the file use them. *)

Module Demo.

Import ImageCompressor.

(** A buffer of [n] bytes. *)
Definition bytes (n : Z) : Buffer := repeat x00 (Z.to_nat n).

(** A 150 MiB PNG, 40000 x 9001 pixels. *)
Definition extname (_ : string) : string := ".png"%string.
Definition stat (_ : string) : Z := 150 * 1024 * 1024.
(** The same file system seen through a GIF extension. *)
Definition gif_extname (_ : string) : string := ".gif"%string.
Definition metadata (_ : string) : Fragmenter.Metadata :=
  Fragmenter.mkMetadata (Some 9001) (Some 40000).

(** A 150 MiB image of a single row. *)
Definition strip_metadata (_ : string) : Fragmenter.Metadata :=
  Fragmenter.mkMetadata (Some 1) (Some 40000000).

Definition self : Self := mkSelf false false.

(** An encoder whose output has as many bytes as the quality asked. *)
Definition linear_codec (_ : unit) (_ : string) (opts : JsObject)
  : Buffer + string :=
  match quality_of opts with
  | Some q => inl (bytes q)
  | None => inr "quality required"%string
  end.

(** A PNG encoder whose output has [quality + colours] bytes. *)
Definition png_codec (_ : unit) (_ : string) (opts : JsObject)
  : Buffer + string :=
  match quality_of opts with
  | Some q => inl (bytes (q + colours_of opts))
  | None => inr "quality required"%string
  end.

Definition png_enc (opts : JsObject) : Buffer :=
  match quality_of opts with
  | Some q => bytes (q + colours_of opts)
  | None => []
  end.

(** An encoder whose output size depends on the format only: AVIF 120
    bytes, WebP 95 bytes, anything else 130 bytes. *)
Definition format_codec (_ : unit) (format : string) (_ : JsObject)
  : Buffer + string :=
  inl (bytes (if format === "avif" then 120
              else if format === "webp" then 95 else 130)).

Definition no_resize (p : unit) (_ _ : Z) : unit := p.
Definition dimensions (_ : unit) : Z * Z := (4000, 3000).
Definition elapsed (s : Strategy) : Z := s_quality s.
Definition replaceExtension (path ext : string) : string :=
  ("out" ++ ext)%string.

Definition auto_options : CompressionOptions :=
  mkCompressionOptions None None None false None.

(** An image compressor that fails on ["a.png"] and on buffers and
    shrinks every other file from 100 to 40 bytes. *)
Definition imageCompress (input : Worker.Input)
  : Worker.CompressionResult + string :=
  match input with
  | Worker.PathInput path =>
      if path === "a.png" then inr "Input file is missing"%string
      else inl (Worker.mkResult input (Some ("out/" ++ path)%string) 100 40
                  None None None)
  | Worker.BufferInput _ => inr "Input buffer is empty"%string
  end.

Definition videoCompress (_ : string)
  : Worker.CompressionResult + string :=
  inr "ffmpeg not found"%string.

Definition basename (path : string) : string := path.
Definition elapsedTask (_ : Worker.Task) : Z := 7.

(** Two [complete] messages, of worker 0 and of worker 1. *)
Definition complete0 : Worker.Message :=
  Worker.Complete
    [Worker.ItemOk
       (Worker.mkResult (Worker.PathInput "b.png") (Some "out/b.png"%string)
          100 40 None None None) 7 0] 0.

Definition complete1 : Worker.Message :=
  Worker.Complete
    [Worker.ItemOk
       (Worker.mkResult (Worker.PathInput "c.png") (Some "out/c.png"%string)
          300 90 None None None) 9 1] 1.

(** Every file has 100 bytes. *)
Definition stat100 (_ : string) : Z := 100.

(** A processing phase that compresses every file it is given. *)
Definition processAll (files : list string) : M nat :=
  (map EvToFile files, inl (List.length files)).

Definition target_options (t : Api.TargetSize) : Api.Options :=
  Api.mkOptions None None (Some t).

(** Mime types by extension, as far as the instances below need. *)
(** A codec that fails on every encode. *)
Definition broken_codec (_ : unit) (_ : string) (_ : JsObject)
  : Buffer + string :=
  inr "out of memory"%string.

Definition no_disk (_ : string) : Buffer + string :=
  inr "ENOENT"%string.

Definition webp_extname (_ : string) : string := ".webp"%string.

Definition mimeLookup (file : string) : option string :=
  if ends_with ".png" file then Some "image/png"%string
  else if ends_with ".mp4" file then Some "video/mp4"%string
  else if ends_with ".txt" file then Some "text/plain"%string
  else None.

Definition imageCompressPath (path : string)
  : Worker.CompressionResult + string :=
  imageCompress (Worker.PathInput path).

Definition elapsedFile (_ : string) : Z := 7.

Definition setupOk (_ : Z) : unit + string := inl tt.

Definition threeTasks : list Worker.Task :=
  [Worker.FileTask "b.png"; Worker.FileTask "a.png"; Worker.FileTask "c.jpg"].

End Demo.

(* ================================================================== *)
(** * Part II: properties                                               *)
(* ================================================================== *)

(* ------------------------------------------------------------------ *)
(** ** Runs of the engine *)

Section RunFacts.

Import ImageCompressor.

Lemma bind_events {X Y : Type} (m : M X) (f : X -> M Y) :
  events (bind m f)
  = match outcome m with
    | inl x => events m ++ events (f x)
    | inr _ => events m
    end.
Proof. unfold bind, events, outcome. now destruct (snd m). Qed.

Lemma bind_outcome {X Y : Type} (m : M X) (f : X -> M Y) :
  outcome (bind m f)
  = match outcome m with
    | inl x => outcome (f x)
    | inr e => inr e
    end.
Proof. unfold bind, events, outcome. now destruct (snd m). Qed.

Lemma events_pair {X : Type} (t : list Event) (r : X + string) :
  events (t, r) = t.
Proof. reflexivity. Qed.

Lemma outcome_pair {X : Type} (t : list Event) (r : X + string) :
  outcome (t, r) = r.
Proof. reflexivity. Qed.

Lemma tested_qualities_app t1 t2 :
  tested_qualities (t1 ++ t2) = tested_qualities t1 ++ tested_qualities t2.
Proof.
  induction t1 as [|ev t1 IH]; [reflexivity|].
  destruct ev; simpl; now rewrite ?IH.
Qed.

Lemma written_app t1 t2 : written (t1 ++ t2) = written t1 ++ written t2.
Proof.
  induction t1 as [|ev t1 IH]; [reflexivity|].
  destruct ev; simpl; now rewrite ?IH.
Qed.

Lemma codec_calls_app t1 t2 :
  codec_calls (t1 ++ t2) = codec_calls t1 ++ codec_calls t2.
Proof.
  induction t1 as [|ev t1 IH]; [reflexivity|].
  destruct ev; simpl; now rewrite ?IH.
Qed.

End RunFacts.

Section FragmenterFacts.

Import Fragmenter.

Variable extname_lower : string -> string.
Variable stat_size : string -> Z.
Variable metadata : string -> Metadata.

Lemma rows_covering_cons r x l :
  rows_covering r (x :: l)
  = ((if holds_row r x then 1 else 0) + rows_covering r l)%nat.
Proof.
  unfold rows_covering; simpl. now destruct (holds_row r x).
Qed.

Ltac bool_to_Z :=
  repeat match goal with
    | X : (_ <=? _) = true |- _ => apply Z.leb_le in X
    | X : (_ <=? _) = false |- _ => apply Z.leb_gt in X
    | X : (_ <? _) = true |- _ => apply Z.ltb_lt in X
    | X : (_ <? _) = false |- _ => apply Z.ltb_ge in X
    | X : (_ =? _) = true |- _ => apply Z.eqb_eq in X
    | X : (_ =? _) = false |- _ => apply Z.eqb_neq in X
    end.

(** A region with a positive size that lies in the image is extracted. *)
Lemma extract_inside H W region :
  0 <= left region -> 0 <= top region ->
  0 < width region -> 0 < height region ->
  left region + width region <= W -> top region + height region <= H ->
  extract H W region = inl region.
Proof.
  intros Hl Ht Hw Hh Hr Hb. unfold extract.
  replace (left region <? 0) with false by (symmetry; apply Z.ltb_ge; lia).
  replace (top region <? 0) with false by (symmetry; apply Z.ltb_ge; lia).
  replace (width region <? 0) with false by (symmetry; apply Z.ltb_ge; lia).
  replace (height region <? 0) with false by (symmetry; apply Z.ltb_ge; lia).
  replace (0 <? width region) with true by (symmetry; apply Z.ltb_lt; lia).
  replace (0 <? height region) with true by (symmetry; apply Z.ltb_lt; lia).
  replace (left region + width region <=? W) with true
    by (symmetry; apply Z.leb_le; lia).
  replace (top region + height region <=? H) with true
    by (symmetry; apply Z.leb_le; lia).
  reflexivity.
Qed.

(** The fragment of iteration [i]. *)
Local Abbreviation fragmentAt file e fr H W fh i :=
  (Fragment (mkFragment (fragmentRegion fr H W fh i) i fr file e)).

(** The loop with bands of height [fh >= 1] and [fr * fh <= H] on an
    image of positive width: every [extract] succeeds, the loop pushes
    one fragment per iteration, and the bands pushed from counter [i] on
    hold each row of [i * fh, H) once and no other row. *)
Lemma fragmentLoop_fits n file e fr H W fh i :
  1 <= fh -> fr * fh <= H -> 0 < W -> 0 <= i -> i + Z.of_nat n = fr ->
  exists out,
    fragmentLoop n file e fr H W fh i = inl out /\
    List.length out = n /\
    (forall k : nat, (k < n)%nat ->
       nth_error out k = Some (fragmentAt file e fr H W fh (i + Z.of_nat k)))
    /\
    (forall r,
       rows_covering r out
       = if (0 <? Z.of_nat n) && (i * fh <=? r) && (r <? H)
         then 1%nat else 0%nat).
Proof.
  intros Hfh Hfit HW. revert i.
  induction n as [|n IH]; intros i Hi Hn.
  - exists []. repeat split. intros k Hk; lia.
  - destruct (IH (i + 1) ltac:(lia) ltac:(lia))
      as (rest & Hrest & Hlen & Hnth & Hcov).
    assert (Hup : (i + 1) * fh <= H) by nia.
    assert (Hex : extract H W (fragmentRegion fr H W fh i)
                  = inl (fragmentRegion fr H W fh i)).
    { assert (Hlow : 0 <= i * fh) by nia.
      assert (Hnext : i * fh + fh <= H) by lia.
      apply extract_inside; unfold fragmentRegion;
        cbn [left top width height]; try lia;
        destruct (i =? fr - 1); lia. }
    exists (fragmentAt file e fr H W fh i :: rest).
    cbn [fragmentLoop]. rewrite Hex, Hrest.
    split; [reflexivity|]. split; [cbn; now rewrite Hlen|]. split.
    + intros [|k] Hk; cbn [nth_error].
      * now rewrite Z.add_0_r.
      * rewrite Hnth by lia.
        replace (i + Z.of_nat (S k)) with (i + 1 + Z.of_nat k) by lia.
        reflexivity.
    + intros r. rewrite rows_covering_cons, Hcov.
      clear IH Hrest Hlen Hnth Hcov Hex.
      unfold holds_row, fragmentRegion; cbn [buffer top height].
      replace (0 <? Z.of_nat (S n)) with true
        by (symmetry; apply Z.ltb_lt; lia).
      destruct (i =? fr - 1) eqn:Elast; bool_to_Z.
      * assert (n = 0%nat) by lia. subst n. simpl.
        replace (i * fh + (H - i * fh)) with H by lia.
        destruct (i * fh <=? r), (r <? H); reflexivity.
      * replace (0 <? Z.of_nat n) with true
          by (symmetry; apply Z.ltb_lt; lia).
        destruct (i * fh <=? r) eqn:E1, (r <? i * fh + fh) eqn:E2;
          destruct ((i + 1) * fh <=? r) eqn:E3, (r <? H) eqn:E4;
          try reflexivity; exfalso; bool_to_Z; lia.
Qed.

(** The outer loop over a list that has [file] in it. *)
Lemma split_app before after threadCount :
  splitLargeImagesIntoFragments extname_lower stat_size metadata
    (before ++ after) threadCount
  = match splitLargeImagesIntoFragments extname_lower stat_size metadata
            before threadCount with
    | inl b =>
        match splitLargeImagesIntoFragments extname_lower stat_size metadata
                after threadCount with
        | inl a => inl (b ++ a)
        | inr error => inr error
        end
    | inr error => inr error
    end.
Proof.
  induction before as [|f before IH]; cbn [app splitLargeImagesIntoFragments].
  - now destruct (splitLargeImagesIntoFragments _ _ _ after threadCount).
  - destruct (splitFile _ _ _ threadCount f) as [pushed|error];
      [|reflexivity].
    rewrite IH.
    destruct (splitLargeImagesIntoFragments _ _ _ before threadCount);
      [|reflexivity].
    destruct (splitLargeImagesIntoFragments _ _ _ after threadCount);
      [|reflexivity].
    now rewrite app_assoc.
Qed.

(** C1 (as amended): a file with one of the image extensions, at or
    above the 100 MiB threshold, whose width and height are known, and
    whose height is at least the fragment count [max(2, threadCount)],
    is split into exactly that many horizontal bands; band [i] starts at
    row [i * bandHeight] with
    [bandHeight = floor(imageHeight / fragmentCount)], every band but
    the last has height [bandHeight], the last has height
    [imageHeight - i * bandHeight], and the bands cover the rows
    [0, imageHeight) with no gap, no overlap and nothing outside, for
    any [threadCount >= 1]; in a longer file list these bands stand at
    the file's position, between what the files before and the files
    after give. *)
Theorem split_bands_cover (file : string) (threadCount H W : Z) :
  is_image_extension (extname_lower file) = true ->
  MIN_FRAGMENT_SIZE <= stat_size file ->
  metadata file = mkMetadata (Some H) (Some W) ->
  0 < W ->
  1 <= threadCount ->
  Z.max 2 threadCount <= H ->
  let n := Z.max 2 threadCount in
  let bandHeight := H / n in
  exists out,
    splitLargeImagesIntoFragments extname_lower stat_size metadata
      [file] threadCount = inl out /\
    List.length out = Z.to_nat n /\
    (forall i : Z, 0 <= i < n ->
       nth_error out (Z.to_nat i)
       = Some (Fragment
                 (mkFragment
                    (mkRegion 0 (i * bandHeight) W
                       (if i =? n - 1 then H - i * bandHeight
                        else bandHeight))
                    i n file (extname_lower file)))) /\
    covers_exactly H out /\
    (forall before after : list string,
       splitLargeImagesIntoFragments extname_lower stat_size metadata
         (before ++ file :: after) threadCount
       = match splitLargeImagesIntoFragments extname_lower stat_size
                 metadata before threadCount,
               splitLargeImagesIntoFragments extname_lower stat_size
                 metadata after threadCount with
         | inl b, inl a => inl (b ++ out ++ a)
         | inr error, _ => inr error
         | inl _, inr error => inr error
         end).
Proof.
  intros Hext Hsize Hmeta HW Ht HH n bandHeight.
  assert (Hn : 2 <= n) by (unfold n; lia).
  assert (Hbh : 1 <= bandHeight).
  { unfold bandHeight. apply Z.div_le_lower_bound; lia. }
  assert (Hfit : n * bandHeight <= H).
  { unfold bandHeight. apply Z.mul_div_le; lia. }
  destruct (fragmentLoop_fits (Z.to_nat n) file (extname_lower file) n H W
              bandHeight 0 Hbh Hfit HW ltac:(lia) ltac:(lia))
    as (out & Hloop & Hlen & Hnth & Hcov).
  assert (Hfile : splitFile extname_lower stat_size metadata threadCount file
                  = inl out).
  { unfold splitFile. rewrite Hext. simpl negb. cbv iota.
    replace (stat_size file <? MIN_FRAGMENT_SIZE) with false
      by (symmetry; apply Z.ltb_ge; lia).
    rewrite Hmeta. simpl nullish.
    replace (H =? 0) with false by (symmetry; apply Z.eqb_neq; lia).
    replace (W =? 0) with false by (symmetry; apply Z.eqb_neq; lia).
    simpl orb. cbv iota. unfold num_or, MIN_FRAGMENTS.
    change (Z.max 2 threadCount) with n. change (H / n) with bandHeight.
    replace (bandHeight =? 0) with false by (symmetry; apply Z.eqb_neq; lia).
    exact Hloop. }
  exists out. split.
  { cbn [splitLargeImagesIntoFragments]. rewrite Hfile.
    now rewrite app_nil_r. }
  split; [exact Hlen|]. split; [|split].
  - intros i Hi. rewrite Hnth by lia.
    rewrite Z.add_0_l, Z2Nat.id by lia. reflexivity.
  - intros r. rewrite Hcov.
    replace (0 <? Z.of_nat (Z.to_nat n)) with true
      by (symmetry; apply Z.ltb_lt; lia).
    reflexivity.
  - intros before after. rewrite split_app.
    destruct (splitLargeImagesIntoFragments _ _ _ before threadCount)
      as [b|error]; [|reflexivity].
    cbn [splitLargeImagesIntoFragments]. rewrite Hfile.
    now destruct (splitLargeImagesIntoFragments _ _ _ after threadCount).
Qed.

End FragmenterFacts.

(* ------------------------------------------------------------------ *)
(** ** Chunking *)

Section ChunkFacts.

Import ThreadManager.

Context {A : Type}.

Lemma ceil_div_covers (len t : nat) :
  (1 <= t)%nat -> (len <= t * ceil_div len t)%nat.
Proof.
  intros Ht. unfold ceil_div.
  pose proof (Nat.div_mod_eq (len + t - 1) t) as E.
  pose proof (Nat.mod_upper_bound (len + t - 1) t ltac:(lia)) as B.
  nia.
Qed.

(** [ceil_div len t] is the least [k] with [len <= t * k]: the ceiling
    of [len / t]. *)
Lemma ceil_div_least (len t k : nat) :
  (1 <= t)%nat -> (len <= t * k)%nat -> (ceil_div len t <= k)%nat.
Proof.
  intros Ht Hk. unfold ceil_div.
  apply Nat.lt_succ_r. apply Nat.Div0.div_lt_upper_bound.
  rewrite Nat.mul_succ_r. lia.
Qed.

Lemma ceil_div_pos (len t : nat) :
  (1 <= t)%nat -> (1 <= len)%nat -> (1 <= ceil_div len t)%nat.
Proof.
  intros Ht Hl. unfold ceil_div.
  apply Nat.div_le_lower_bound; lia.
Qed.

Lemma slice_length (l : list A) (a b : nat) :
  (b <= List.length l)%nat -> List.length (slice l a b) = (b - a)%nat.
Proof.
  intros Hb. unfold slice. rewrite length_firstn, length_skipn. lia.
Qed.

(** A slice followed by the rest of the list from its end. *)
Lemma slice_skipn (l : list A) (a b : nat) :
  (a <= b)%nat -> slice l a b ++ skipn b l = skipn a l.
Proof.
  intros Hab. unfold slice.
  replace (skipn b l) with (skipn (b - a) (skipn a l)).
  - apply firstn_skipn.
  - rewrite skipn_skipn. f_equal. lia.
Qed.

(** The loop leaves by its own condition: more fuel than
    [threadCount - i] changes nothing. *)
Lemma chunkLoop_fuel (fuel extra i : nat) (fs : list A) (t fpw : nat) :
  (t <= fuel + i)%nat ->
  chunkLoop (fuel + extra) i fs t fpw = chunkLoop fuel i fs t fpw.
Proof.
  revert i. induction fuel as [|fuel IH]; intros i Hf.
  - destruct extra as [|extra]; [reflexivity|]. simpl.
    replace (i <? t)%nat with false by (symmetry; apply Nat.ltb_ge; lia).
    reflexivity.
  - simpl. destruct ((i <? t)%nat && (i * fpw <? List.length fs)%nat);
      [|reflexivity].
    now rewrite IH by lia.
Qed.

Lemma chunkLoop_count (fuel i : nat) (fs : list A) (t fpw : nat) :
  (List.length (chunkLoop fuel i fs t fpw) <= fuel)%nat.
Proof.
  revert i. induction fuel as [|fuel IH]; intros i; simpl; [lia|].
  destruct ((i <? t)%nat && (i * fpw <? List.length fs)%nat); simpl; [|lia].
  rewrite length_app. specialize (IH (S i)).
  destruct (0 <? List.length _)%nat; simpl; lia.
Qed.

(** Concatenating the chunks pushed from counter [i] on gives the files
    from position [i * filesPerWorker] on. *)
Lemma chunkLoop_concat (fuel i : nat) (fs : list A) (t fpw : nat) :
  (t <= fuel + i)%nat ->
  (List.length fs <= t * fpw)%nat ->
  List.concat (map files (chunkLoop fuel i fs t fpw)) = skipn (i * fpw) fs.
Proof.
  intros Hf Hcov. revert i Hf.
  induction fuel as [|fuel IH]; intros i Hf.
  - simpl. symmetry. apply skipn_all2. nia.
  - simpl.
    destruct (i <? t)%nat eqn:Ei; simpl andb.
    2:{ apply Nat.ltb_ge in Ei. symmetry. apply skipn_all2. nia. }
    destruct (i * fpw <? List.length fs)%nat eqn:El.
    2:{ apply Nat.ltb_ge in El. symmetry. now apply skipn_all2. }
    apply Nat.ltb_lt in El.
    rewrite map_app, List.concat_app, IH by lia.
    set (stop := Nat.min (i * fpw + fpw) (List.length fs)).
    assert (Hlen : List.length (slice fs (i * fpw) stop)
                   = (stop - i * fpw)%nat)
      by (apply slice_length; unfold stop; lia).
    assert (Hrest : skipn (S i * fpw) fs = skipn stop fs).
    { unfold stop. destruct (Nat.le_gt_cases (i * fpw + fpw) (List.length fs)).
      - f_equal. lia.
      - rewrite !skipn_all2; [reflexivity| lia | lia]. }
    rewrite Hrest.
    destruct (0 <? List.length (slice fs (i * fpw) stop))%nat eqn:Ec.
    + simpl. rewrite app_nil_r. apply slice_skipn. unfold stop. lia.
    + apply Nat.ltb_ge in Ec. simpl.
      assert (stop = (i * fpw)%nat) by lia.
      congruence.
Qed.

(** The loop pushes something from counter [i] on only if position
    [i * filesPerWorker] is inside the list. *)
Lemma chunkLoop_nonempty (fuel i : nat) (fs : list A) (t fpw : nat) :
  (0 < List.length (chunkLoop fuel i fs t fpw))%nat ->
  (i * fpw < List.length fs)%nat.
Proof.
  destruct fuel as [|fuel]; [simpl; lia|].
  cbn [chunkLoop].
  destruct (i <? t)%nat; [|simpl; lia].
  destruct (i * fpw <? List.length fs)%nat eqn:El; [|simpl; lia].
  intros _. now apply Nat.ltb_lt.
Qed.

(** Shape of every pushed chunk: it is not empty, holds at most
    [filesPerWorker] files, holds exactly that many when another chunk
    follows, and carries the loop counter as its worker index. *)
Lemma chunkLoop_shape (fuel i : nat) (fs : list A) (t fpw : nat) :
  (1 <= fpw)%nat ->
  forall (k : nat) (c : WorkChunk A),
    nth_error (chunkLoop fuel i fs t fpw) k = Some c ->
    (1 <= List.length (files c) <= fpw)%nat /\
    workerIndex c = (i + k)%nat /\
    files c = slice fs ((i + k) * fpw)
                (Nat.min ((i + k) * fpw + fpw) (List.length fs)) /\
    ((S k < List.length (chunkLoop fuel i fs t fpw))%nat ->
     List.length (files c) = fpw).
Proof.
  intros Hfpw. revert i.
  induction fuel as [|fuel IH]; intros i k c Hk.
  - destruct k; discriminate.
  - simpl in Hk |- *.
    destruct (i <? t)%nat eqn:Ei; simpl andb in *.
    2:{ destruct k; discriminate. }
    destruct (i * fpw <? List.length fs)%nat eqn:El.
    2:{ destruct k; discriminate. }
    apply Nat.ltb_lt in El.
    set (stop := Nat.min (i * fpw + fpw) (List.length fs)) in *.
    assert (Hlen : List.length (slice fs (i * fpw) stop)
                   = (stop - i * fpw)%nat)
      by (apply slice_length; unfold stop; lia).
    replace (0 <? List.length (slice fs (i * fpw) stop))%nat with true in *
      by (symmetry; apply Nat.ltb_lt; unfold stop in *; lia).
    simpl app in *.
    destruct k as [|k].
    + injection Hk as <-. simpl. rewrite Nat.add_0_r.
      repeat split; try (unfold stop in *; lia).
      intros Hmore.
      assert (En : (S i * fpw < List.length fs)%nat)
        by (apply (chunkLoop_nonempty fuel (S i) fs t fpw); simpl in Hmore; lia).
      unfold stop in *. lia.
    + simpl in Hk. destruct (IH (S i) k c Hk) as (H1 & H2 & H3 & H4).
      replace (i + S k)%nat with (S i + k)%nat by lia.
      repeat split; try assumption; try lia.
      intros Hmore. apply H4. simpl in Hmore. lia.
Qed.

(** C3: for a thread count of at least 1, the chunks of [chunkFiles]
    concatenate to the input list (every task once, in order); no chunk
    is empty; every chunk holds at most [ceil(total / threadCount)] tasks
    and every chunk but the last holds exactly that many; chunk [k]
    carries worker index [k]; and there are at most [threadCount]
    chunks. *)
Theorem chunkFiles_partition (fs : list A) (threadCount : nat) :
  (1 <= threadCount)%nat ->
  let chunks := chunkFiles fs threadCount in
  let filesPerWorker := ceil_div (List.length fs) threadCount in
  List.concat (map files chunks) = fs /\
  (List.length chunks <= threadCount)%nat /\
  (forall (k : nat) (c : WorkChunk A),
     nth_error chunks k = Some c ->
     files c <> [] /\
     (List.length (files c) <= filesPerWorker)%nat /\
     ((S k < List.length chunks)%nat ->
      List.length (files c) = filesPerWorker) /\
     workerIndex c = k).
Proof.
  intros Ht chunks fpw. unfold chunks, chunkFiles. fold fpw.
  split; [|split].
  - rewrite chunkLoop_concat; [reflexivity| lia |].
    unfold fpw. now apply ceil_div_covers.
  - apply chunkLoop_count.
  - intros k c Hk.
    destruct fs as [|f fs'].
    { destruct threadCount; [lia|]. cbn in Hk. destruct k; discriminate. }
    assert (Hfpw : (1 <= fpw)%nat)
      by (unfold fpw; apply ceil_div_pos; simpl; lia).
    destruct (chunkLoop_shape _ _ _ _ _ Hfpw _ _ Hk) as (H1 & H2 & _ & H4).
    repeat split; try assumption; try lia.
    intros E. rewrite E in H1. simpl in H1. lia.
Qed.

(** Every configured thread count lies in [2, 32]. *)
Lemma calculateOptimalThreads_range (totalCores : Z) (o : Options) :
  2 <= calculateOptimalThreads totalCores o <= 32.
Proof.
  unfold calculateOptimalThreads.
  destruct (threads o), (ultrafast o); lia.
Qed.

End ChunkFacts.

(* ------------------------------------------------------------------ *)
(** ** Binary search over the quality *)

Section SearchFacts.

Import ImageCompressor.

Variable Pipeline : Type.
Variable toBuffer : Pipeline -> string -> JsObject -> Buffer + string.
Variable self : Self.

Local Abbreviation compressWithQuality :=
  (ImageCompressor.compressWithQuality Pipeline toBuffer self).
Local Abbreviation searchLoop :=
  (ImageCompressor.searchLoop Pipeline toBuffer self).
Local Abbreviation binarySearchQuality :=
  (ImageCompressor.binarySearchQuality Pipeline toBuffer self).
Local Abbreviation binarySearchQualityBuffer :=
  (ImageCompressor.binarySearchQualityBuffer Pipeline toBuffer self).

Lemma compressWithQuality_run inst format q :
  compressWithQuality inst format q
  = ([EvCompressWithQuality format q;
      EvCodec format (getCompressionOptions self format q)],
     toBuffer inst format (getCompressionOptions self format q)).
Proof. reflexivity. Qed.

(** The quality that reaches the codec: the one asked for, or
    [max(20, q - 35)] for AVIF. *)
Lemma getCompressionOptions_quality format q :
  quality_of (getCompressionOptions self format q)
  = Some (if toLowerCase format === "avif" then Z.max 20 (q - 35) else q).
Proof.
  unfold getCompressionOptions.
  destruct (toLowerCase format === "avif"); [reflexivity|].
  destruct (toLowerCase format === "webp"); [reflexivity|].
  destruct ((toLowerCase format === "jpeg") || (toLowerCase format === "jpg"))%bool;
    [reflexivity|].
  destruct (toLowerCase format === "png"); reflexivity.
Qed.

Lemma compressWithQuality_in_range inst format q :
  5 <= q <= 95 ->
  Forall quality_in_range (events (compressWithQuality inst format q)).
Proof.
  intros Hq. rewrite compressWithQuality_run. unfold events; cbn [fst].
  apply Forall_cons; [exact Hq|]. apply Forall_cons; [|constructor].
  unfold quality_in_range. rewrite getCompressionOptions_quality.
  destruct (toLowerCase format === "avif"); lia.
Qed.

(** One iteration of the loop. *)
Lemma searchLoop_step n inst format target st :
  (minQ st <=? maxQ st) = true ->
  let q := (minQ st + maxQ st) / 2 in
  searchLoop (S n) inst format target st
  = match toBuffer inst format (getCompressionOptions self format q) with
    | inl b =>
        let st' := if buffer_length b <=? target
                   then mkSearch (q + 1) (maxQ st) (Some b)
                   else mkSearch (minQ st) (q - 1) (bestBuffer st) in
        (events (compressWithQuality inst format q)
           ++ events (searchLoop n inst format target st'),
         outcome (searchLoop n inst format target st'))
    | inr e => (events (compressWithQuality inst format q), inr e)
    end.
Proof.
  intros Hle q. cbn [ImageCompressor.searchLoop]. rewrite Hle. fold q.
  unfold bind. rewrite compressWithQuality_run. cbn [fst snd events].
  destruct (toBuffer inst format (getCompressionOptions self format q));
    reflexivity.
Qed.

Lemma searchLoop_stop n inst format target st :
  (minQ st <=? maxQ st) = false ->
  searchLoop n inst format target st = ret st.
Proof.
  intros Hgt. destruct n; cbn [ImageCompressor.searchLoop];
    [reflexivity|]. now rewrite Hgt.
Qed.

Lemma midpoint_between a b : a <= b -> a <= (a + b) / 2 <= b.
Proof. intros H. split; Z.div_mod_to_equations; lia. Qed.

(** Whatever the codec does, the loop keeps its bounds inside [5, 95]
    and so does every quality it tries. *)
Lemma searchLoop_in_range n inst format target st :
  5 <= minQ st -> maxQ st <= 95 ->
  Forall quality_in_range (events (searchLoop n inst format target st)).
Proof.
  revert st. induction n as [|n IH]; intros st Hmin Hmax.
  - constructor.
  - destruct (minQ st <=? maxQ st) eqn:Hle.
    2:{ rewrite searchLoop_stop by assumption. constructor. }
    rewrite searchLoop_step by assumption. cbv zeta.
    assert (Hq := midpoint_between (minQ st) (maxQ st)
                    ltac:(apply Z.leb_le; assumption)).
    destruct (toBuffer inst format _) as [b|e]; unfold events at 1;
      cbn [fst].
    + apply Forall_app. split.
      * apply compressWithQuality_in_range. lia.
      * apply IH; destruct (buffer_length b <=? target); simpl; lia.
    + apply compressWithQuality_in_range. lia.
Qed.

(** C10: in both variants of the target-size binary search every quality
    handed to [compressWithQuality], and every quality option that
    reaches the codec from there, lies in [5, 95]; when the loop ends
    with no best buffer the one further encode is
    [compressWithQuality(..., 5)], and when it ends with a best buffer no
    further encode is made. *)
Theorem search_qualities_in_range (inst : Pipeline)
        (outputPath format : string) (target : Z) :
  let loop := searchLoop maxAttempts inst format target searchStart in
  let fileRun := binarySearchQuality inst outputPath format target in
  let bufferRun := binarySearchQualityBuffer inst format target in
  Forall quality_in_range (events fileRun) /\
  Forall quality_in_range (events bufferRun) /\
  Forall (fun q => 5 <= q <= 95) (tested_qualities (events fileRun)) /\
  Forall (fun q => 5 <= q <= 95) (tested_qualities (events bufferRun)) /\
  match outcome loop with
  | inl st =>
      match bestBuffer st with
      | Some _ =>
          tested_qualities (events fileRun) = tested_qualities (events loop) /\
          tested_qualities (events bufferRun) = tested_qualities (events loop)
      | None =>
          tested_qualities (events fileRun)
          = tested_qualities (events loop) ++ [5] /\
          tested_qualities (events bufferRun)
          = tested_qualities (events loop) ++ [5]
      end
  | inr _ => events fileRun = events loop /\ events bufferRun = events loop
  end.
Proof.
  intros loop fileRun bufferRun.
  assert (Hloop : Forall quality_in_range (events loop))
    by (apply searchLoop_in_range; simpl; lia).
  assert (Hfive : Forall quality_in_range
                    (events (compressWithQuality inst format 5)))
    by (apply compressWithQuality_in_range; lia).
  assert (Htested : forall t, Forall quality_in_range t ->
            Forall (fun q => 5 <= q <= 95) (tested_qualities t)).
  { induction t as [|ev t IHt]; intros Ht; [constructor|].
    inversion Ht; subst. destruct ev; simpl; auto. }
  assert (Htapp : forall t1 t2, tested_qualities (t1 ++ t2)
            = tested_qualities t1 ++ tested_qualities t2).
  { induction t1 as [|ev t1 IHt]; intros t2; [reflexivity|].
    destruct ev; simpl; now rewrite ?IHt. }
  assert (Hfile : Forall quality_in_range (events fileRun)).
  { unfold fileRun, ImageCompressor.binarySearchQuality.
    rewrite bind_events. fold loop.
    destruct (outcome loop) as [st|e]; [|exact Hloop].
    apply Forall_app; split; [exact Hloop|].
    destruct (bestBuffer st) as [b|].
    - repeat constructor.
    - rewrite bind_events, compressWithQuality_run.
      unfold outcome, events; cbn [fst snd].
      destruct (toBuffer inst format _).
      + rewrite compressWithQuality_run in Hfive. unfold events in Hfive.
        cbn [fst] in Hfive. apply Forall_app; split; [exact Hfive|].
        repeat constructor.
      + rewrite compressWithQuality_run in Hfive. exact Hfive. }
  assert (Hbuf : Forall quality_in_range (events bufferRun)).
  { unfold bufferRun, ImageCompressor.binarySearchQualityBuffer.
    rewrite bind_events. fold loop.
    destruct (outcome loop) as [st|e]; [|exact Hloop].
    apply Forall_app; split; [exact Hloop|].
    destruct (bestBuffer st) as [b|]; [constructor|exact Hfive]. }
  split; [exact Hfile|]. split; [exact Hbuf|].
  split; [now apply Htested|]. split; [now apply Htested|].
  unfold fileRun, bufferRun, ImageCompressor.binarySearchQuality,
    ImageCompressor.binarySearchQualityBuffer.
  rewrite !bind_events. fold loop.
  destruct (outcome loop) as [st|e]; [|split; reflexivity].
  destruct (bestBuffer st) as [b|].
  - rewrite !Htapp. unfold events; simpl. rewrite !app_nil_r. now split.
  - rewrite !Htapp. split; [|reflexivity].
    f_equal. rewrite bind_events, compressWithQuality_run.
    unfold outcome, events; cbn [fst snd].
    destruct (toBuffer inst format _); reflexivity.
Qed.

End SearchFacts.

(* ------------------------------------------------------------------ *)
(** ** Binary search against an encoder that always returns *)

Section SearchConvergence.

Import ImageCompressor.

Variable Pipeline : Type.
Variable toBuffer : Pipeline -> string -> JsObject -> Buffer + string.
Variable self : Self.

Local Abbreviation compressWithQuality :=
  (ImageCompressor.compressWithQuality Pipeline toBuffer self).
Local Abbreviation searchLoop :=
  (ImageCompressor.searchLoop Pipeline toBuffer self).
Local Abbreviation binarySearchQuality :=
  (ImageCompressor.binarySearchQuality Pipeline toBuffer self).
Local Abbreviation binarySearchQualityBuffer :=
  (ImageCompressor.binarySearchQualityBuffer Pipeline toBuffer self).

Variable inst : Pipeline.
Variable format : string.
Variable target : Z.

(** The encoder returns [enc q] at every quality [q] of [5, 95]. *)
Variable enc : Z -> Buffer.
Hypothesis Henc : forall q, 5 <= q <= 95 ->
  toBuffer inst format (getCompressionOptions self format q) = inl (enc q).

Local Abbreviation size_at := (fun q => buffer_length (enc q)).
Local Abbreviation fits := (fun q => buffer_length (enc q) <= target).

Lemma largest_tested_fit_none qs :
  (forall q, In q qs -> ~ fits q) ->
  largest_tested_fit size_at target qs = None.
Proof.
  induction qs as [|q qs IH]; intros Hno; [reflexivity|]. simpl.
  destruct (buffer_length (enc q) <=? target) eqn:E.
  - apply Z.leb_le in E. exfalso. apply (Hno q); simpl; auto.
  - apply IH. intros q' Hin. apply Hno. now right.
Qed.

Lemma largest_tested_fit_bound qs m :
  largest_tested_fit size_at target qs = Some m ->
  In m qs /\ fits m /\ forall q, In q qs -> fits q -> q <= m.
Proof.
  revert m. induction qs as [|q qs IH]; intros m; [discriminate|]. simpl.
  destruct (buffer_length (enc q) <=? target) eqn:E.
  - apply Z.leb_le in E.
    destruct (largest_tested_fit size_at target qs) as [m'|] eqn:El.
    + destruct (IH m' eq_refl) as (Hin & Hfit & Hmax).
      intros [= <-]. destruct (Z.max_spec q m') as [[Hlt ->]|[Hge ->]].
      * repeat split; auto. intros q' [<-|Hq'] Hf; [lia|auto].
      * repeat split; auto. intros q' [<-|Hq'] Hf; [lia|].
        specialize (Hmax q' Hq' Hf). lia.
    + intros [= <-]. repeat split; auto.
      intros q' [<-|Hq'] Hf; [lia|]. exfalso.
      assert (Hsome : exists k, largest_tested_fit size_at target qs = Some k).
      { clear - Hq' Hf. induction qs as [|a qs IHq]; [destruct Hq'|].
        simpl. destruct (buffer_length (enc a) <=? target) eqn:Ea;
          [eexists; reflexivity|].
        destruct Hq' as [->|Hq']; [apply Z.leb_gt in Ea; lia|auto]. }
      destruct Hsome as [k Hk]. congruence.
  - apply Z.leb_gt in E. intros Hm.
    destruct (IH m Hm) as (Hin & Hfit & Hmax). repeat split; auto.
    intros q' [<-|Hq'] Hf; [lia|auto].
Qed.

Lemma largest_tested_fit_is qs m :
  In m qs -> fits m -> (forall q, In q qs -> fits q -> q <= m) ->
  largest_tested_fit size_at target qs = Some m.
Proof.
  intros Hin Hfit Hmax.
  destruct (largest_tested_fit size_at target qs) as [k|] eqn:E.
  - destruct (largest_tested_fit_bound _ _ E) as (Hk & Hfk & Hmk).
    f_equal. specialize (Hmax k Hk Hfk). specialize (Hmk m Hin Hfit). lia.
  - exfalso. revert Hin Hfit E. clear. induction qs as [|a qs IH];
      intros Hin Hfit E; [destruct Hin|]. simpl in E.
    destruct (buffer_length (enc a) <=? target) eqn:Ea; [discriminate|].
    destruct Hin as [->|Hin]; [apply Z.leb_gt in Ea; lia|auto].
Qed.

(** What a run of the loop from state [st] does: which qualities it
    tries and where it stops. *)
Lemma searchLoop_run n st :
  5 <= minQ st -> maxQ st <= 95 ->
  exists qs st',
    searchLoop n inst format target st = (search_trace self format qs, inl st') /\
    (List.length qs <= n)%nat /\
    Forall (fun q => minQ st <= q <= maxQ st) qs /\
    minQ st <= minQ st' /\ maxQ st' <= maxQ st /\
    (forall q, In q qs -> fits q -> q < minQ st') /\
    (forall q, In q qs -> ~ fits q -> maxQ st' < q) /\
    (minQ st' = minQ st -> bestBuffer st' = bestBuffer st) /\
    (minQ st < minQ st' ->
     In (minQ st' - 1) qs /\ fits (minQ st' - 1) /\
     bestBuffer st' = Some (enc (minQ st' - 1))) /\
    (maxQ st' = maxQ st \/
     (In (maxQ st' + 1) qs /\ ~ fits (maxQ st' + 1))) /\
    (maxQ st - minQ st + 1 < 2 ^ Z.of_nat n -> maxQ st' < minQ st').
Proof.
  revert st. induction n as [|n IH]; intros st Hmin Hmax.
  - exists [], st. simpl. repeat split; auto; try lia; try tauto.
  - destruct (minQ st <=? maxQ st) eqn:Hle.
    2:{ apply Z.leb_gt in Hle. exists [], st.
        rewrite searchLoop_stop by (apply Z.leb_gt; lia).
        simpl. repeat split; auto; try lia; try tauto. }
    rewrite searchLoop_step by assumption. cbv zeta.
    apply Z.leb_le in Hle.
    pose proof (midpoint_between _ _ Hle) as Hq.
    set (q := (minQ st + maxQ st) / 2) in *.
    rewrite Henc by lia.
    assert (Hpow : 2 ^ Z.of_nat (S n) = 2 * 2 ^ Z.of_nat n)
      by (rewrite Nat2Z.inj_succ, Z.pow_succ_r; lia).
    assert (Hhalf : 2 * q <= minQ st + maxQ st < 2 * q + 2)
      by (unfold q; Z.div_mod_to_equations; lia).
    destruct (buffer_length (enc q) <=? target) eqn:Efit.
    + apply Z.leb_le in Efit.
      destruct (IH (mkSearch (q + 1) (maxQ st) (Some (enc q))))
        as (qs & st' & Hrun & Hlen & Hall & Hlo & Hhi & Hf & Hnf & Hsame
            & Hmoved & Htop & Hexh); [simpl; lia | simpl; lia |].
      simpl in Hall, Hlo, Hhi, Hsame, Hmoved, Htop, Hexh.
      exists (q :: qs), st'. rewrite Hrun, compressWithQuality_run.
      unfold events, outcome; cbn [fst snd].
      split; [reflexivity|]. split; [simpl; lia|].
      split.
      { constructor; [lia|]. eapply Forall_impl; [|exact Hall].
        simpl; intros; lia. }
      split; [lia|]. split; [lia|].
      split. { intros q' [<-|Hin] Hfq; [lia|auto]. }
      split. { intros q' [<-|Hin] Hfq; [tauto|auto]. }
      split. { intros Heq; lia. }
      split.
      { intros _. destruct (Z.eq_dec (minQ st') (q + 1)) as [Heq|Hne].
        - replace (minQ st' - 1) with q by lia.
          repeat split; [now left | exact Efit | now apply Hsame].
        - destruct Hmoved as (Hin & Hfm & Hb); [lia|].
          repeat split; [now right | exact Hfm | exact Hb]. }
      split.
      { destruct Htop as [Heq|[Hin Hnf']]; [now left|].
        right. split; [now right | exact Hnf']. }
      intros Hsz. apply Hexh. lia.
    + apply Z.leb_gt in Efit.
      destruct (IH (mkSearch (minQ st) (q - 1) (bestBuffer st)))
        as (qs & st' & Hrun & Hlen & Hall & Hlo & Hhi & Hf & Hnf & Hsame
            & Hmoved & Htop & Hexh); [simpl; lia | simpl; lia |].
      simpl in Hall, Hlo, Hhi, Hsame, Hmoved, Htop, Hexh.
      exists (q :: qs), st'. rewrite Hrun, compressWithQuality_run.
      unfold events, outcome; cbn [fst snd].
      split; [reflexivity|]. split; [simpl; lia|].
      split.
      { constructor; [lia|]. eapply Forall_impl; [|exact Hall].
        simpl; intros; lia. }
      split; [lia|]. split; [lia|].
      split. { intros q' [<-|Hin] Hfq; [lia|auto]. }
      split. { intros q' [<-|Hin] Hfq; [lia|auto]. }
      split. { exact Hsame. }
      split.
      { intros Hlt. destruct (Hmoved Hlt) as (Hin & Hfm & Hb).
        repeat split; [now right | exact Hfm | exact Hb]. }
      split.
      { destruct Htop as [Heq|[Hin Hnf']].
        - right. rewrite Heq. replace (q - 1 + 1) with q by lia.
          split; [now left | lia].
        - right. split; [now right | exact Hnf']. }
      intros Hsz. apply Hexh. lia.
Qed.

Lemma tested_search_trace qs :
  tested_qualities (search_trace self format qs) = qs.
Proof.
  induction qs as [|q qs IH]; [reflexivity|]. simpl. now rewrite IH.
Qed.

Lemma written_search_trace qs : written (search_trace self format qs) = [].
Proof. induction qs as [|q qs IH]; [reflexivity|]. exact IH. Qed.

(** The loop tries exactly the qualities of the specification's
    bisection. *)
Lemma searchLoop_bisection n st :
  5 <= minQ st -> maxQ st <= 95 ->
  events (searchLoop n inst format target st)
  = search_trace self format
      (bisection size_at target n (minQ st) (maxQ st)).
Proof.
  revert st. induction n as [|n IH]; intros st Hmin Hmax; [reflexivity|].
  cbn [bisection].
  destruct (minQ st <=? maxQ st) eqn:Hle.
  2:{ now rewrite searchLoop_stop. }
  rewrite searchLoop_step by assumption. cbv zeta.
  apply Z.leb_le in Hle. pose proof (midpoint_between _ _ Hle) as Hq.
  rewrite Henc by lia. unfold events at 1; cbn [fst].
  rewrite compressWithQuality_run. unfold events at 1; cbn [fst].
  destruct (buffer_length (enc ((minQ st + maxQ st) / 2)) <=? target);
    rewrite IH by (simpl; lia); reflexivity.
Qed.

(** C2: against an encoder that returns at every quality of [5, 95] and
    whose output size does not decrease with the quality, the standard
    binary search (file and buffer variant) tries at most 15 qualities,
    all in [5, 95] and each the midpoint of the current bounds, going on
    above the midpoint when its encode fits the target and below it when
    not; it returns (writes) the encode of the largest tested quality
    whose size is within the target, which is then the largest quality
    of [5, 95] that fits at all; when no tested quality fits, none of
    [5, 95] does and it returns (writes) one more encode at quality 5. *)
Theorem binary_search_largest_fit (outputPath : string) :
  (forall q q', 5 <= q -> q <= q' -> q' <= 95 ->
     buffer_length (enc q) <= buffer_length (enc q')) ->
  let qs := bisection size_at target 15 5 95 in
  let best := largest_tested_fit size_at target qs in
  let result := match best with Some q => enc q | None => enc 5 end in
  let fallback := match best with Some _ => [] | None => [5] end in
  let fileRun := binarySearchQuality inst outputPath format target in
  let bufferRun := binarySearchQualityBuffer inst format target in
  events (searchLoop maxAttempts inst format target searchStart)
  = search_trace self format qs /\
  (List.length qs <= 15)%nat /\
  Forall (fun q => 5 <= q <= 95) qs /\
  outcome bufferRun = inl result /\
  tested_qualities (events bufferRun) = qs ++ fallback /\
  outcome fileRun = inl outputPath /\
  written (events fileRun) = [(outputPath, result)] /\
  tested_qualities (events fileRun) = qs ++ fallback /\
  match best with
  | Some q =>
      In q qs /\ buffer_length (enc q) <= target /\
      (forall q', In q' qs -> fits q' -> q' <= q) /\
      (forall q', 5 <= q' <= 95 -> fits q' -> q' <= q)
  | None => forall q', 5 <= q' <= 95 -> ~ fits q'
  end.
Proof.
  intros Hmono qs best result fallback fileRun bufferRun.
  destruct (searchLoop_run 15 searchStart)
    as (qs' & st' & Hrun & Hlen & Hall & Hlo & Hhi & Hf & Hnf & Hsame
        & Hmoved & Htop & Hexh); [simpl; lia | simpl; lia |].
  simpl in Hall, Hlo, Hhi, Hsame, Hmoved, Htop, Hexh.
  assert (Hqs : qs' = qs).
  { pose proof (searchLoop_bisection 15 searchStart
                  ltac:(simpl; lia) ltac:(simpl; lia)) as Hb.
    rewrite Hrun in Hb. unfold events in Hb; cbn [fst] in Hb.
    apply (f_equal tested_qualities) in Hb.
    now rewrite !tested_search_trace in Hb. }
  subst qs'.
  assert (Hdone : maxQ st' < minQ st') by (apply Hexh; reflexivity).
  (* no quality above the final upper bound fits *)
  assert (Habove : forall q', maxQ st' < q' <= 95 -> ~ fits q').
  { intros q' Hq' Hfq. destruct Htop as [Heq|[Hin Hno]]; [lia|].
    apply Hno. cbv beta.
    assert (Hr : 5 <= maxQ st' + 1 <= 95).
    { rewrite Forall_forall in Hall. specialize (Hall _ Hin). lia. }
    specialize (Hmono (maxQ st' + 1) q' ltac:(lia) ltac:(lia) ltac:(lia)).
    lia. }
  assert (Hbest : best = if minQ st' =? 5 then None
                         else Some (minQ st' - 1)).
  { unfold best. destruct (minQ st' =? 5) eqn:E5.
    - apply Z.eqb_eq in E5. apply largest_tested_fit_none.
      intros q Hin Hfq. specialize (Hf q Hin Hfq).
      rewrite Forall_forall in Hall. specialize (Hall q Hin). lia.
    - apply Z.eqb_neq in E5.
      destruct Hmoved as (Hin & Hfm & _); [lia|].
      apply largest_tested_fit_is; auto.
      intros q Hq Hfq. specialize (Hf q Hq Hfq). lia. }
  assert (Hbuf : bestBuffer st' = if minQ st' =? 5 then None
                                  else Some (enc (minQ st' - 1))).
  { destruct (minQ st' =? 5) eqn:E5.
    - apply Z.eqb_eq in E5. now apply Hsame.
    - apply Z.eqb_neq in E5. apply Hmoved. lia. }
  unfold fileRun, bufferRun, ImageCompressor.binarySearchQuality,
    ImageCompressor.binarySearchQualityBuffer.
  change ImageCompressor.maxAttempts with 15%nat.
  rewrite !bind_events, !bind_outcome, Hrun.
  rewrite !outcome_pair, !events_pair. cbv beta iota.
  unfold result, fallback. rewrite Hbest, Hbuf.
  split; [reflexivity|]. split; [exact Hlen|].
  split; [eapply Forall_impl; [|exact Hall]; simpl; intros; lia|].
  destruct (minQ st' =? 5) eqn:E5.
  - apply Z.eqb_eq in E5.
    rewrite !bind_events, !bind_outcome, !compressWithQuality_run.
    rewrite (Henc 5) by lia.
    unfold outcome, events; cbn [fst snd].
    rewrite !tested_qualities_app, !written_app, tested_search_trace,
      written_search_trace.
    repeat split; try reflexivity.
    intros q' Hq' Hfq. apply (Habove q'); [lia|exact Hfq].
  - apply Z.eqb_neq in E5.
    unfold outcome, events; cbn [fst snd].
    rewrite !tested_qualities_app, !written_app, tested_search_trace,
      written_search_trace.
    destruct Hmoved as (Hin & Hfm & _); [lia|].
    repeat split; try reflexivity; try assumption.
    + intros q Hq Hfq. specialize (Hf q Hq Hfq). lia.
    + intros q' Hq' Hfq.
      destruct (Z_le_gt_dec q' (minQ st' - 1)); [assumption|].
      exfalso. apply (Habove q'); [lia|exact Hfq].
Qed.

End SearchConvergence.

(* ------------------------------------------------------------------ *)
(** ** PNG on the standard path *)

Section PngFacts.

Import ImageCompressor.

Variable Pipeline : Type.
Variable toBuffer : Pipeline -> string -> JsObject -> Buffer + string.

Local Abbreviation pngLoop := (ImageCompressor.pngLoop Pipeline toBuffer).
Local Abbreviation optimizePNG :=
  (ImageCompressor.optimizePNG Pipeline toBuffer).

Variable inst : Pipeline.
Variable outputPath : string.
Variable target : Z.

(** The PNG encoder returns [enc config] for every configuration. *)
Variable enc : JsObject -> Buffer.
Hypothesis Henc : forall config, In config pngConfigs ->
  toBuffer inst "png" config = inl (enc config).

Local Abbreviation fits_png :=
  (fun config => buffer_length (enc config) <=? target).

Lemma pngLoop_run configs :
  (forall config, In config configs -> In config pngConfigs) ->
  pngLoop configs inst outputPath target
  = (map (fun c => EvCodec "png" c) (upto_first fits_png configs)
       ++ match find fits_png configs with
          | Some c => [EvWriteFile outputPath (enc c)]
          | None => []
          end,
     inl match find fits_png configs with
         | Some _ => Some outputPath
         | None => None
         end).
Proof.
  induction configs as [|c cs IH]; intros Hsub; [reflexivity|].
  cbn [ImageCompressor.pngLoop upto_first find].
  unfold bind at 1, codec; cbn [fst snd].
  rewrite Henc by (apply Hsub; now left).
  destruct (buffer_length (enc c) <=? target); [reflexivity|].
  rewrite IH by (intros c' Hc'; apply Hsub; now right).
  reflexivity.
Qed.

Lemma codec_calls_png cs :
  codec_calls (map (fun c => EvCodec "png" c) cs)
  = map (fun c => ("png"%string, c)) cs.
Proof. induction cs as [|c cs IH]; [reflexivity|]. simpl. now rewrite IH. Qed.

Lemma written_png cs : written (map (fun c => EvCodec "png" c) cs) = [].
Proof. induction cs as [|c cs IH]; [reflexivity|]. exact IH. Qed.

(** C7 (as amended): when the PNG encoder returns for every
    configuration, [optimizePNG] encodes the four configurations in
    their fixed order up to the first whose output is within the target
    and writes that output; when none fits it encodes the first
    configuration of the sequence (quality 50, 128 colours) once more
    and writes that.  It returns the output path in both cases. *)
Theorem optimizePNG_first_fit :
  let run := optimizePNG inst outputPath target in
  let first := nth 0 pngConfigs [] in
  outcome run = inl outputPath /\
  match find fits_png pngConfigs with
  | Some config =>
      In config pngConfigs /\
      buffer_length (enc config) <= target /\
      codec_calls (events run)
      = map (fun c => ("png"%string, c)) (upto_first fits_png pngConfigs) /\
      written (events run) = [(outputPath, enc config)]
  | None =>
      (forall config, In config pngConfigs ->
         target < buffer_length (enc config)) /\
      codec_calls (events run)
      = map (fun c => ("png"%string, c)) (pngConfigs ++ [first]) /\
      written (events run) = [(outputPath, enc first)]
  end.
Proof.
  intros run first. unfold run, ImageCompressor.optimizePNG.
  rewrite bind_outcome, bind_events, pngLoop_run by auto.
  rewrite outcome_pair, events_pair.
  destruct (find fits_png pngConfigs) as [c|] eqn:Efind.
  - split; [reflexivity|].
    destruct (find_some _ _ Efind) as [Hin Hfit]. apply Z.leb_le in Hfit.
    repeat split; try assumption.
    + unfold events, ret; cbn [fst]. rewrite app_nil_r, codec_calls_app,
        codec_calls_png. simpl. now rewrite app_nil_r.
    + unfold events, ret; cbn [fst]. rewrite app_nil_r, written_app,
        written_png. reflexivity.
  - assert (Hfirst : In first pngConfigs) by (unfold first; simpl; auto).
    assert (Hall : upto_first fits_png pngConfigs = pngConfigs).
    { clear - Efind. induction pngConfigs as [|c cs IH]; [reflexivity|].
      simpl in *. destruct (buffer_length (enc c) <=? target);
        [discriminate|]. now rewrite IH. }
    unfold bind, codec; cbn [fst snd outcome events].
    fold first. rewrite (Henc first Hfirst). cbn [fst snd].
    split; [reflexivity|]. split; [|split].
    + intros c Hc. apply Z.leb_gt. exact (find_none _ _ Efind c Hc).
    + rewrite Hall, app_nil_r, codec_calls_app, codec_calls_png, map_app.
      reflexivity.
    + rewrite Hall, app_nil_r, written_app, written_png. reflexivity.
Qed.

End PngFacts.

(* ------------------------------------------------------------------ *)
(** ** Sorting by a key *)

Section SortFacts.

Context {A : Type}.
Variable key : A -> Z.

Local Abbreviation by_key := (fun a b : A => key a - key b).

Lemma js_insert_perm cmp (x : A) l : Permutation (js_insert cmp x l) (x :: l).
Proof.
  induction l as [|y l IH]; simpl; [reflexivity|].
  destruct (cmp x y <=? 0); [reflexivity|].
  rewrite IH. apply perm_swap.
Qed.

Lemma js_sort_perm cmp (l : list A) : Permutation (js_sort cmp l) l.
Proof.
  induction l as [|x l IH]; simpl; [reflexivity|].
  rewrite js_insert_perm. now constructor.
Qed.

Lemma js_sort_in cmp (l : list A) x : In x (js_sort cmp l) <-> In x l.
Proof.
  split; apply Permutation_in;
    [apply js_sort_perm | symmetry; apply js_sort_perm].
Qed.

Lemma js_insert_hd (x : A) l :
  hd_error (js_insert by_key x l)
  = match hd_error l with
    | Some y => if key x - key y <=? 0 then Some x else Some y
    | None => Some x
    end.
Proof.
  destruct l as [|y l]; simpl; [reflexivity|].
  destruct (key x - key y <=? 0); reflexivity.
Qed.

(** The first element of an array sorted by a key is an element with
    the least key. *)
Lemma js_sort_hd_least (l : list A) x :
  hd_error (js_sort by_key l) = Some x ->
  In x l /\ forall y, In y l -> key x <= key y.
Proof.
  revert x. induction l as [|a l IH]; intros x; [discriminate|].
  simpl js_sort. rewrite js_insert_hd.
  destruct (hd_error (js_sort by_key l)) as [m|] eqn:Em.
  - destruct (IH m eq_refl) as [Hin Hmin].
    destruct (key a - key m <=? 0) eqn:E; intros [= <-].
    + apply Z.leb_le in E. split; [now left|].
      intros y [<-|Hy]; [lia|]. specialize (Hmin y Hy). lia.
    + apply Z.leb_gt in E. split; [now right|].
      intros y [<-|Hy]; [lia|auto].
  - intros [= <-]. split; [now left|].
    intros y [<-|Hy]; [lia|].
    apply (js_sort_in by_key) in Hy.
    destruct (js_sort by_key l); [destruct Hy|discriminate].
Qed.

Lemma js_sort_hd_some cmp (l : list A) :
  l <> [] -> exists x, hd_error (js_sort cmp l) = Some x.
Proof.
  intros Hne. destruct (js_sort cmp l) as [|x s] eqn:E.
  - exfalso. apply Hne. apply Permutation_nil.
    rewrite <- E. apply js_sort_perm.
  - now exists x.
Qed.

End SortFacts.

(* ------------------------------------------------------------------ *)
(** ** The extreme path: racing the strategy catalog *)

Section ExtremeFacts.

Import ImageCompressor.

Variable Pipeline : Type.
Variable toBuffer : Pipeline -> string -> JsObject -> Buffer + string.
Variable resize : Pipeline -> Z -> Z -> Pipeline.
Variable dimensions : Pipeline -> Z * Z.
Variable elapsed : Strategy -> Z.
Variable replaceExtension : string -> string -> string.
Variable self : Self.

Local Abbreviation testStrategy :=
  (ImageCompressor.testStrategy Pipeline toBuffer resize dimensions elapsed).
Local Abbreviation testAll :=
  (ImageCompressor.testAll Pipeline toBuffer resize dimensions elapsed).
Local Abbreviation standardCompression :=
  (ImageCompressor.standardCompression Pipeline toBuffer self).
Local Abbreviation compressToTargetSizeFile :=
  (ImageCompressor.compressToTargetSizeFile Pipeline toBuffer resize
     dimensions elapsed replaceExtension self).


(** [testStrategy] never throws and writes nothing, and its outcome is
    what the encode of the strategy gives. *)
Lemma testStrategy_returns inst s keepDims :
  exists r, outcome (testStrategy inst s keepDims) = inl r /\
            ImageCompressor.testResult Pipeline toBuffer resize dimensions
              elapsed inst keepDims s r /\
            written (events (testStrategy inst s keepDims)) = [].
Proof.
  unfold ImageCompressor.testStrategy, ImageCompressor.testResult,
    ImageCompressor.testedInstance, try_catch.
  destruct (strategyOptions s) as [opts|].
  - unfold bind, codec; cbn [fst snd].
    destruct (toBuffer _ (s_format s) opts) as [b|e]; cbn [fst snd];
      eexists; repeat split; reflexivity.
  - cbn. eexists; repeat split. eexists; reflexivity.
Qed.

Lemma testAll_returns inst strategies keepDims :
  exists rs, outcome (testAll inst strategies keepDims) = inl rs /\
             Forall2 (ImageCompressor.testResult Pipeline toBuffer resize
                        dimensions elapsed inst keepDims) strategies rs /\
             written (events (testAll inst strategies keepDims)) = [].
Proof.
  induction strategies as [|s rest IH].
  - exists []. repeat split. constructor.
  - destruct IH as (rs & Hout & Hall & Hw).
    destruct (testStrategy_returns inst s keepDims) as (r & Hr & Hres & Hwr).
    exists (r :: rs). cbn [ImageCompressor.testAll].
    rewrite bind_outcome, bind_events, Hr.
    rewrite bind_outcome, bind_events, Hout.
    split; [reflexivity|]. split; [now constructor|].
    rewrite !written_app, Hwr, Hw. reflexivity.
Qed.





End ExtremeFacts.

(* ------------------------------------------------------------------ *)
(** ** Format selection without a target size *)

Section FormatFacts.

Import ImageCompressor.

Variable Pipeline : Type.
Variable toBuffer : Pipeline -> string -> JsObject -> Buffer + string.
Variable resize : Pipeline -> Z -> Z -> Pipeline.
Variable dimensions : Pipeline -> Z * Z.
Variable elapsed : Strategy -> Z.
Variable replaceExtension : string -> string -> string.
Variable extname_lower : string -> string.
Variable self : Self.

Local Abbreviation findBestFormat :=
  (ImageCompressor.findBestFormat Pipeline toBuffer).
Local Abbreviation compressToFile :=
  (ImageCompressor.compressToFile Pipeline toBuffer resize dimensions
     elapsed replaceExtension extname_lower self).

Lemma qualifies_spec originalSize r :
  qualifies originalSize r = true <->
  exists b, r_result r = inl b /\ 100 * buffer_length b < 95 * originalSize.
Proof.
  unfold qualifies. destruct (r_result r) as [b|e].
  - rewrite Z.ltb_lt. split.
    + intros H. now exists b.
    + intros (b' & [= <-] & H). exact H.
  - split; [discriminate|]. intros (b & Hb & _). discriminate.
Qed.

(** What [pickBest] returns on a non-empty array of results. *)
Lemma pickBest_spec originalSize (results : list FormatResult) :
  results <> [] ->
  exists best,
    pickBest originalSize results = Some best /\
    In best results /\
    match filter (qualifies originalSize) results with
    | [] => hd_error results = Some best
    | qualifying =>
        In best qualifying /\
        forall r, In r qualifying -> result_size best <= result_size r
    end.
Proof.
  intros Hne. unfold pickBest.
  destruct (filter (qualifies originalSize) results) as [|q0 qs] eqn:Ef.
  - simpl. destruct results as [|r0 rs]; [congruence|].
    exists r0. simpl. auto.
  - assert (Hq : q0 :: qs <> []) by discriminate.
    destruct (js_sort_hd_some
                (fun a b => result_size a - result_size b) _ Hq)
      as [best Hbest].
    destruct (js_sort_hd_least result_size _ _ Hbest) as [Hin Hmin].
    destruct (js_sort _ (q0 :: qs)) as [|b0 bs]; [discriminate|].
    injection Hbest as ->. exists best.
    split; [reflexivity|]. split; [|split; assumption].
    rewrite <- Ef in Hin. now apply filter_In in Hin.
Qed.

(** C6 (as amended): with no target size and format ['auto'] (or none),
    [compressToFile] encodes the candidates AVIF, WebP, JPEG only without
    an alpha channel, and PNG only with one or at a quality above 90 --
    each at the requested quality, AVIF at [max(20, quality - 35)] --
    and picks the smallest result that is more than 5% smaller than the
    original ([size < 0.95 * originalSize]); when no result is, it picks
    the first candidate's result (AVIF).  The picked buffer is written
    under the picked extension. *)
Theorem auto_format_selection (inst : Pipeline) (outputPath : string)
        (options : CompressionOptions) (originalSize : Z) (hasAlpha : bool) :
  (o_targetSize options = None \/ o_targetSize options = Some 0) ->
  formatIsAuto (o_format options) = true ->
  let quality := qualityOrDefault (o_quality options) in
  let candidates := formatCandidates hasAlpha quality in
  let results :=
    map (fun f => mkFormatResult (c_format f) (c_extension f)
                    (toBuffer inst (c_format f) (c_opts f))) candidates in
  let run := compressToFile inst outputPath options originalSize hasAlpha in
  map c_format candidates
  = ["avif"; "webp"]%string
    ++ (if negb hasAlpha then ["jpeg"%string] else [])
    ++ (if hasAlpha || (90 <? quality) then ["png"%string] else []) /\
  Forall (fun c => quality_of (c_opts c)
                   = Some (if c_format c === "avif"
                           then Z.max 20 (quality - 35) else quality))
    candidates /\
  codec_calls (events run) = map (fun c => (c_format c, c_opts c)) candidates /\
  (forall r, qualifies originalSize r = true <->
     exists b, r_result r = inl b /\
               100 * buffer_length b < 95 * originalSize) /\
  exists best,
    In best results /\
    match filter (qualifies originalSize) results with
    | [] => hd_error results = Some best /\ r_format best = "avif"%string
    | qualifying =>
        In best qualifying /\
        forall r, In r qualifying -> result_size best <= result_size r
    end /\
    match r_result best with
    | inl buffer =>
        outcome run = inl (replaceExtension outputPath (r_extension best)) /\
        written (events run)
        = [(replaceExtension outputPath (r_extension best), buffer)]
    | inr _ =>
        (exists e, outcome run = inr e) /\ written (events run) = []
    end.
Proof.
  intros Htarget Hauto quality candidates results run.
  split.
  { unfold candidates, formatCandidates.
    destruct hasAlpha, (90 <? quality); reflexivity. }
  split.
  { unfold candidates, formatCandidates.
    destruct hasAlpha, (90 <? quality); repeat constructor. }
  assert (Hrun : run
    = bind (findBestFormat inst hasAlpha quality originalSize)
        (fun result =>
           match r_result result with
           | inl buffer =>
               bind (tell (EvWriteFile
                             (replaceExtension outputPath (r_extension result))
                             buffer))
                 (fun _ => ret (replaceExtension outputPath
                                  (r_extension result)))
           | inr _ => throw "The data argument must be a Buffer"
           end)).
  { unfold run, ImageCompressor.compressToFile.
    fold quality. rewrite Hauto.
    destruct Htarget as [-> | ->]; reflexivity. }
  assert (Hne : results <> []) by (unfold results, candidates; discriminate).
  destruct (pickBest_spec originalSize results Hne)
    as (best & Hpick & Hin & Hsel).
  assert (Hfind : findBestFormat inst hasAlpha quality originalSize
                  = (map (fun f => EvCodec (c_format f) (c_opts f)) candidates,
                     inl best)).
  { unfold ImageCompressor.findBestFormat, raceFormats, bind.
    cbn [fst snd]. fold candidates. fold results. rewrite Hpick.
    cbn [ret fst snd]. now rewrite app_nil_r. }
  assert (Hcalls : forall cs : list Candidate,
            codec_calls (map (fun f => EvCodec (c_format f) (c_opts f)) cs)
            = map (fun c => (c_format c, c_opts c)) cs /\
            written (map (fun f => EvCodec (c_format f) (c_opts f)) cs) = []).
  { induction cs as [|c cs [IH1 IH2]]; [now split|].
    simpl. rewrite IH1. now split. }
  split.
  { rewrite Hrun, bind_events, Hfind, outcome_pair, events_pair.
    rewrite codec_calls_app, (proj1 (Hcalls candidates)).
    destruct (r_result best); cbn; now rewrite app_nil_r. }
  split; [apply qualifies_spec|].
  exists best. split; [exact Hin|]. split.
  { destruct (filter (qualifies originalSize) results); [|exact Hsel].
    split; [exact Hsel|].
    unfold results, candidates in Hsel. simpl in Hsel.
    now injection Hsel as <-. }
  rewrite Hrun, bind_events, bind_outcome, Hfind, outcome_pair, events_pair.
  destruct (r_result best) as [buffer|e].
  - split; [reflexivity|].
    rewrite written_app, (proj2 (Hcalls candidates)). reflexivity.
  - split; [eexists; reflexivity|].
    rewrite written_app, (proj2 (Hcalls candidates)). reflexivity.
Qed.

End FormatFacts.

(* ------------------------------------------------------------------ *)
(** ** Aggregation of worker messages *)

Section MergeFacts.

Import ThreadManager.

Lemma zsum_app l1 l2 : zsum (l1 ++ l2) = zsum l1 + zsum l2.
Proof.
  induction l1 as [|x l1 IH]; simpl; [reflexivity|].
  unfold zsum in *. simpl. rewrite IH. lia.
Qed.

Lemma zsum_perm l1 l2 : Permutation l1 l2 -> zsum l1 = zsum l2.
Proof.
  induction 1 as [|x l l' _ IH|x y l|l l' l'' _ IH1 _ IH2];
    unfold zsum in *; simpl; lia.
Qed.

(** A [complete] message adds the sums and lists of its entries. *)
Lemma onResults_closed rs results :
  fold_left onResult rs results
  = mkBatch (processed results + zsum (map addedCount rs))
      (errors results)
      (totalSizeReduction results + zsum (map addedReduction rs))
      (processingTimes results ++ flat_map addedTimes rs)
      (batchFiles results ++ flat_map addedFiles rs).
Proof.
  revert results. induction rs as [|r rs IH]; intros results.
  - destruct results; simpl. unfold zsum; simpl.
    now rewrite !Z.add_0_r, !app_nil_r.
  - simpl fold_left. rewrite IH. destruct r as [result t w|f e w].
    + cbn [onResult processed errors totalSizeReduction processingTimes
           batchFiles map flat_map addedCount addedReduction addedTimes
           addedFiles].
      unfold zsum; cbn [fold_right].
      f_equal; try lia; rewrite <- app_assoc; reflexivity.
    + reflexivity.
Qed.

(** The batch result is the start value plus what each message adds,
    lists in arrival order. *)
Lemma handleMessages_closed messages results :
  handleMessages results messages
  = mkBatch
      (processed results
       + zsum (map addedCount (flat_map completed messages)))
      (errors results ++ flat_map reported messages)
      (totalSizeReduction results
       + zsum (map addedReduction (flat_map completed messages)))
      (processingTimes results
       ++ flat_map addedTimes (flat_map completed messages))
      (batchFiles results
       ++ flat_map addedFiles (flat_map completed messages)).
Proof.
  unfold handleMessages. revert results.
  induction messages as [|m ms IH]; intros results.
  - destruct results; simpl. unfold zsum; simpl.
    now rewrite !Z.add_0_r, !app_nil_r.
  - simpl fold_left. rewrite IH.
    destruct m as [f r w|f e w|rs w|e w]; simpl.
    + reflexivity.
    + now rewrite <- app_assoc.
    + rewrite onResults_closed. simpl.
      rewrite !map_app, !zsum_app, !flat_map_app, !app_assoc, !Z.add_assoc.
      reflexivity.
    + reflexivity.
Qed.

Lemma handleMessages_app results first rest :
  handleMessages results (first ++ rest)
  = handleMessages (handleMessages results first) rest.
Proof. unfold handleMessages. apply fold_left_app. Qed.

(** C4 (as amended): the batch result does not depend on the order in
    which the workers' messages arrive, up to the order of its lists:
    for any two arrival orders of the same messages [processed] and
    [totalSizeReduction] are equal and the error list, the file list
    and the processing times are permutations of each other; merging
    some messages first and the rest afterwards is merging them all;
    and accumulating two thread-manager results into the API result in
    either order gives equal sums and permuted error and file lists. *)
Theorem merge_order_independent
        (results : BatchResults) (arrival1 arrival2 : list Worker.Message)
        (a b : Api.ThreadManagerResult) (target : Api.CompressionResult) :
  Permutation arrival1 arrival2 ->
  let r1 := handleMessages results arrival1 in
  let r2 := handleMessages results arrival2 in
  let t1 := Api.accumulateThreadResults b
              (Api.accumulateThreadResults a target) in
  let t2 := Api.accumulateThreadResults a
              (Api.accumulateThreadResults b target) in
  processed r1 = processed r2 /\
  totalSizeReduction r1 = totalSizeReduction r2 /\
  Permutation (errors r1) (errors r2) /\
  Permutation (batchFiles r1) (batchFiles r2) /\
  Permutation (processingTimes r1) (processingTimes r2) /\
  (forall first rest,
     handleMessages results (first ++ rest)
     = handleMessages (handleMessages results first) rest) /\
  Api.processed t1 = Api.processed t2 /\
  Api.totalSizeReduction t1 = Api.totalSizeReduction t2 /\
  Permutation (Api.errors t1) (Api.errors t2) /\
  Permutation (Api.files t1) (Api.files t2).
Proof.
  intros Hperm r1 r2 t1 t2. unfold r1, r2.
  rewrite !handleMessages_closed. simpl.
  assert (Hc : Permutation (flat_map completed arrival1)
                 (flat_map completed arrival2))
    by (apply Permutation_flat_map; exact Hperm).
  split. { f_equal. apply zsum_perm. now apply Permutation_map. }
  split. { f_equal. apply zsum_perm. now apply Permutation_map. }
  split. { apply Permutation_app_head. now apply Permutation_flat_map. }
  split. { apply Permutation_app_head. now apply Permutation_flat_map. }
  split. { apply Permutation_app_head. now apply Permutation_flat_map. }
  split. { intros first rest. apply handleMessages_app. }
  unfold t1, t2, Api.accumulateThreadResults; simpl.
  split; [lia|]. split; [lia|].
  split.
  - rewrite <- !app_assoc. apply Permutation_app_head.
    apply Permutation_app_comm.
  - rewrite <- !app_assoc. apply Permutation_app_head.
    apply Permutation_app_comm.
Qed.

End MergeFacts.

(* ------------------------------------------------------------------ *)
(** ** Failure isolation inside a chunk *)

Section ChunkFailureFacts.

Import Worker ThreadManager.

Variable imageCompress : Input -> CompressionResult + string.
Variable videoCompress : string -> CompressionResult + string.
Variable basename : string -> string.
Variable extname : string -> string.
Variable elapsed : Task -> Z.
Variable setup : unit + string.
Variable workerIndex : Z.

Local Abbreviation displayName := (Worker.displayName basename).
Local Abbreviation compressItem :=
  (Worker.compressItem imageCompress videoCompress extname).
Local Abbreviation processItem :=
  (Worker.processItem imageCompress videoCompress basename extname elapsed
     workerIndex).
Local Abbreviation processItems :=
  (Worker.processItems imageCompress videoCompress basename extname elapsed
     workerIndex).
Local Abbreviation processChunk :=
  (Worker.processChunk imageCompress videoCompress basename extname elapsed
     setup workerIndex).

Lemma processItems_closed files acc :
  processItems files acc
  = (acc ++ map (fun t => fst (processItem t)) files,
     map (fun t => snd (processItem t)) files).
Proof.
  revert acc. induction files as [|t rest IH]; intros acc; simpl.
  - now rewrite app_nil_r.
  - destruct (processItem t) as [r m] eqn:E. rewrite IH.
    simpl. now rewrite <- app_assoc.
Qed.

Lemma processChunk_closed files :
  setup = inl tt ->
  processChunk files
  = map (fun t => snd (processItem t)) files
    ++ [Complete (map (fun t => fst (processItem t)) files) workerIndex].
Proof.
  intros Hs. unfold Worker.processChunk. rewrite Hs, processItems_closed.
  reflexivity.
Qed.

Lemma processItem_ok t r :
  compressItem t = inl r ->
  processItem t = (ItemOk r (elapsed t) workerIndex,
                   Progress (displayName t) r workerIndex).
Proof. intros H. unfold Worker.processItem. now rewrite H. Qed.

Lemma processItem_failed t e :
  compressItem t = inr e ->
  snd (processItem t) = ErrorMessage (displayName t) e workerIndex /\
  exists f, fst (processItem t) = ItemFailed f e workerIndex.
Proof.
  intros H. unfold Worker.processItem. rewrite H. simpl.
  split; [reflexivity|]. eexists; reflexivity.
Qed.

(** The messages of the items carry no [complete] entries, and report
    one error per failed item. *)
Lemma item_messages_completed files :
  flat_map completed (map (fun t => snd (processItem t)) files) = [].
Proof.
  induction files as [|t rest IH]; [reflexivity|]. simpl.
  unfold Worker.processItem at 1.
  destruct (compressItem t); simpl; exact IH.
Qed.

Lemma item_messages_settle files now :
  settleMessages now (map (fun t => snd (processItem t)) files) = now.
Proof.
  unfold settleMessages. induction files as [|t rest IH]; [reflexivity|].
  simpl. unfold Worker.processItem at 2.
  destruct (compressItem t); simpl; exact IH.
Qed.

Lemma successes_counted files :
  zsum (map addedCount (map (fun t => fst (processItem t)) files))
  = Z.of_nat (List.length
                (filter (fun t => match compressItem t with
                                  | inl _ => true
                                  | inr _ => false
                                  end) files)).
Proof.
  induction files as [|t rest IH]; [reflexivity|].
  cbn [map filter]. unfold zsum in *. cbn [fold_right]. rewrite IH.
  unfold Worker.processItem at 1.
  destruct (compressItem t); cbn [fst addedCount List.length]; lia.
Qed.

(** C8: when the compression of one item [failed] of a chunk throws, the
    worker posts an [error] message for it and goes on: every item
    after it (and before it) still gets its message, the final
    [complete] message has one entry per item of the chunk with the
    result of every item that succeeded, the pool records the failed
    item in the batch error list and counts every success, the worker's
    promise is resolved (not rejected) and no [worker_error] is
    posted. *)
Theorem chunk_failure_isolated (before after : list Task) (failed : Task)
        (e : string) :
  setup = inl tt ->
  compressItem failed = inr e ->
  let files := before ++ failed :: after in
  let posted := processChunk files in
  let results := map (fun t => fst (processItem t)) files in
  let batch := handleMessages emptyResults posted in
  posted
  = map (fun t => snd (processItem t)) before
    ++ [ErrorMessage (displayName failed) e workerIndex]
    ++ map (fun t => snd (processItem t)) after
    ++ [Complete results workerIndex] /\
  List.length results = List.length files /\
  (forall t r, In t files -> compressItem t = inl r ->
     In (ItemOk r (elapsed t) workerIndex) results /\
     In (Progress (displayName t) r workerIndex) posted) /\
  (exists f, In (ItemFailed f e workerIndex) results) /\
  In (mkError (displayName failed) e (Some workerIndex)) (errors batch) /\
  processed batch
  = Z.of_nat (List.length
                (filter (fun t => match compressItem t with
                                  | inl _ => true
                                  | inr _ => false
                                  end) files)) /\
  settleMessages Pending posted = Resolved /\
  (forall m, In m posted -> forall e' w, m <> WorkerError e' w).
Proof.
  intros Hsetup Hfail files posted results batch.
  destruct (processItem_failed failed e Hfail) as [Hmsg [f Hres]].
  assert (Hposted : posted
    = map (fun t => snd (processItem t)) files ++ [Complete results workerIndex])
    by (apply processChunk_closed; exact Hsetup).
  split.
  { rewrite Hposted. unfold files. rewrite map_app. simpl map.
    rewrite Hmsg, <- !app_assoc. reflexivity. }
  split. { unfold results. apply length_map. }
  split.
  { intros t r Hin Hok. pose proof (processItem_ok t r Hok) as Hp. split.
    - unfold results. apply in_map_iff. exists t. now rewrite Hp.
    - rewrite Hposted. apply in_or_app. left.
      apply in_map_iff. exists t. now rewrite Hp. }
  split.
  { exists f. unfold results. apply in_map_iff. exists failed.
    split; [exact Hres|]. unfold files. apply in_or_app. right. now left. }
  split.
  { unfold batch. rewrite handleMessages_closed. simpl errors.
    rewrite Hposted, flat_map_app. apply in_or_app. left.
    apply in_flat_map. exists (ErrorMessage (displayName failed) e workerIndex).
    split; [|now left].
    apply in_map_iff. exists failed. split; [exact Hmsg|].
    unfold files. apply in_or_app. right. now left. }
  split.
  { unfold batch. rewrite handleMessages_closed. simpl processed.
    rewrite Hposted, flat_map_app, item_messages_completed. simpl.
    rewrite app_nil_r. apply successes_counted. }
  split.
  { rewrite Hposted. unfold settleMessages. rewrite fold_left_app.
    fold (settleMessages Pending (map (fun t => snd (processItem t)) files)).
    rewrite item_messages_settle. reflexivity. }
  intros m Hin e' w. rewrite Hposted in Hin.
  apply in_app_or in Hin. destruct Hin as [Hin|[<-|[]]]; [|discriminate].
  apply in_map_iff in Hin. destruct Hin as (t & <- & _).
  unfold Worker.processItem. destruct (compressItem t); discriminate.
Qed.

End ChunkFailureFacts.

(* ------------------------------------------------------------------ *)
(** ** Validation of the target size *)

Section ValidationFacts.

Import Api.

Variable stat_size : string -> Z.

(** C9 (as amended): [compress] throws, before it processes any file,
    when the target size is a non-empty string that does not have the
    size format, and when exactly one file is resolved and the target
    size (string or number) has the size format with a byte budget not
    smaller than that file's original size. *)
Theorem compress_rejects_bad_target {R : Type} (resolvedFiles : list string)
        (options : Options) (processFiles : list string -> M R) :
  (exists s, targetSize options = Some (TargetString s) /\
             s <> [] /\ matchTargetSize s = None) \/
  (exists t m file,
     targetSize options = Some t /\ truthy_target (Some t) = true /\
     matchTargetSize (targetToString t) = Some m /\
     resolvedFiles = [file] /\ stat_size file <= targetBytes m) ->
  exists message,
    compress stat_size resolvedFiles options processFiles
    = ([], inr message).
Proof.
  intros [(s & Ht & Htruthy & Hno)
         | (t & m & file & Ht & Htruthy & Hm & -> & Hsize)];
    unfold Api.compress; rewrite Ht.
  - assert (Htr : truthy_target (Some (TargetString s)) = true)
      by (destruct s; [contradiction|reflexivity]).
    rewrite Htr, Hno.
    destruct (quality options) as [[q|]|];
      [destruct ((q <? 1) || (100 <? q))%bool| |];
      (destruct (threads options) as [[n|]|];
       [destruct (n <? 1)| |]); cbn; eexists; reflexivity.
  - rewrite !Htruthy. unfold validateSingleFileTarget. rewrite Hm.
    replace (stat_size file <=? targetBytes m) with true
      by (symmetry; apply Z.leb_le; exact Hsize).
    destruct t as [s|n]; cbn [targetToString] in Hm; cbv beta iota;
      rewrite ?Htruthy, ?Hm;
      (destruct (quality options) as [[q|]|];
       [destruct ((q <? 1) || (100 <? q))%bool| |];
       (destruct (threads options) as [[k|]|];
        [destruct (k <? 1)| |]); cbn; eexists; reflexivity).
Qed.

End ValidationFacts.

(* ------------------------------------------------------------------ *)
(** ** Worked instances *)

(** Seven files on three threads: chunks of 3, 3 and 1. *)
Example chunkFiles_7_on_3 :
  map ThreadManager.files (ThreadManager.chunkFiles [1; 2; 3; 4; 5; 6; 7] 3)
  = [[1; 2; 3]; [4; 5; 6]; [7]].
Proof. reflexivity. Qed.

(** Four files on three threads: two chunks of 2, no third chunk. *)
Example chunkFiles_4_on_3 :
  map ThreadManager.files (ThreadManager.chunkFiles [1; 2; 3; 4] 3)
  = [[1; 2]; [3; 4]].
Proof. reflexivity. Qed.

(** A 9001-row image on 4 threads: bands of 2250 rows, the last of 2251. *)
Example split_9001_on_4 :
  match Fragmenter.splitLargeImagesIntoFragments Demo.extname Demo.stat
          Demo.metadata ["scan.png"%string] 4 with
  | inl out =>
      map (fun x => match x with
                    | Fragmenter.Fragment f =>
                        (Fragmenter.top (Fragmenter.buffer f),
                         Fragmenter.height (Fragmenter.buffer f))
                    | Fragmenter.Whole _ => (0, 0)
                    end) out
  | inr _ => []
  end
  = [(0, 2250); (2250, 2250); (4500, 2250); (6750, 2251)].
Proof. reflexivity. Qed.

(** A one-row image on 3 threads: [Math.floor(1 / 3)] is [0], the band
    height falls back to the image height, the first band is the image
    and the second, rows [1, 2), lies outside it: [extract] rejects and
    so does the call. *)
Example split_one_row_on_3 :
  Fragmenter.fragmentRegion 3 1 40000000 1 1
  = Fragmenter.mkRegion 0 1 40000000 1 /\
  Fragmenter.splitLargeImagesIntoFragments Demo.extname Demo.stat
    Demo.strip_metadata ["strip.png"%string] 3
  = inr "extract_area: bad extract area"%string.
Proof. split; reflexivity. Qed.

(** The qualities the search tries for a 50-byte target when the output
    has as many bytes as the quality. *)
Example search_trace_50 :
  tested_qualities
    (events (ImageCompressor.binarySearchQualityBuffer unit
               Demo.linear_codec Demo.self tt "webp" 50))
  = [50; 73; 61; 55; 52; 51].
Proof. vm_compute. reflexivity. Qed.

(** With a 3-byte target nothing fits and quality 5 is encoded twice:
    as the last midpoint and as the fallback. *)
Example search_trace_3 :
  tested_qualities
    (events (ImageCompressor.binarySearchQualityBuffer unit
               Demo.linear_codec Demo.self tt "webp" 3))
  = [50; 27; 15; 9; 6; 5; 5].
Proof. vm_compute. reflexivity. Qed.

(** Target sizes: ["4MB"], ["500 kb"] and ["1.5GB"] parse; ["-5"], ["5."]
    and ["10K"] do not have the size format. *)
Example matchTargetSize_samples :
  map (fun s => option_map Api.targetBytes
                  (Api.matchTargetSize (Api.code_units s)))
    ["4MB"; "500 kb"; "1.5GB"; "-5"; "5."; "10K"]%string
  = [Some 4194304; Some 512000; Some 1610612736; None; None; None].
Proof. vm_compute. reflexivity. Qed.

(** White space between the number and the unit may be any of [\s]: a
    [5], a no-break space (U+00A0), a line separator (U+2028) and [MB]
    have the size format. *)
Example matchTargetSize_no_break_space :
  option_map Api.targetBytes
    (Api.matchTargetSize [53; 160; 8232; 77; 66]%N)
  = Some 5242880.
Proof. vm_compute. reflexivity. Qed.

(** The catalog of the extreme path: 12 presets and 24 resized ones. *)
Example catalog_size :
  List.length (ImageCompressor.generateCompressionStrategies false "auto")
  = 36%nat /\
  List.length (ImageCompressor.generateCompressionStrategies true "auto")
  = 12%nat.
Proof. split; reflexivity. Qed.

(** With the linear encoder, a 1000-byte original and a 25-byte target:
    ['quality'] takes the 25-byte AVIF, ['size'] and ['auto'] the
    10-byte WebP (25 bytes are more than 95% of the target). *)
Example extreme_policies :
  map (fun policy =>
         written
           (events (ImageCompressor.compressToTargetSizeFile unit
                      Demo.linear_codec Demo.no_resize Demo.dimensions
                      Demo.elapsed Demo.replaceExtension Demo.self tt
                      "in.png" "auto"
                      (ImageCompressor.mkCompressionOptions None None
                         (Some policy) true None)
                      1000 25)))
    ["quality"; "size"; "auto"]%string
  = [[("out.avif"%string, Demo.bytes 25)];
     [("out.webp"%string, Demo.bytes 10)];
     [("out.webp"%string, Demo.bytes 10)]].
Proof. vm_compute. reflexivity. Qed.

Lemma split_bands_cover_witness :
  exists out,
    Fragmenter.splitLargeImagesIntoFragments Demo.extname Demo.stat
      Demo.metadata ["scan.png"%string] 4 = inl out /\
    Fragmenter.covers_exactly 9001 out.
Proof.
  destruct (split_bands_cover Demo.extname Demo.stat Demo.metadata
              "scan.png"%string 4 9001 40000 eq_refl
              ltac:(unfold Demo.stat, Fragmenter.MIN_FRAGMENT_SIZE; lia)
              eq_refl ltac:(lia) ltac:(lia) ltac:(lia))
    as (out & Hout & _ & _ & Hcover & _).
  exists out. split; assumption.
Defined.

(** C1 as stated fails for an image file whose extension is not one of
    the seven the code lists: a 150 MiB GIF of 9001 rows is above the
    threshold and has known dimensions, and is passed through whole, with
    no band at all. *)
Lemma split_gif_counterexample :
  Fragmenter.MIN_FRAGMENT_SIZE < Demo.stat "scan.gif" /\
  Demo.metadata "scan.gif"
  = Fragmenter.mkMetadata (Some 9001) (Some 40000) /\
  Fragmenter.splitLargeImagesIntoFragments Demo.gif_extname Demo.stat
    Demo.metadata ["scan.gif"%string] 4
  = inl [Fragmenter.Whole "scan.gif"] /\
  ~ Fragmenter.covers_exactly 9001 [Fragmenter.Whole "scan.gif"%string].
Proof.
  split; [reflexivity|]. split; [reflexivity|]. split; [reflexivity|].
  intros Hc. specialize (Hc 0). vm_compute in Hc. discriminate.
Qed.

Lemma chunkFiles_partition_witness :
  List.concat (map ThreadManager.files
                 (ThreadManager.chunkFiles [1; 2; 3; 4; 5; 6; 7] 3))
  = [1; 2; 3; 4; 5; 6; 7].
Proof.
  apply (chunkFiles_partition [1; 2; 3; 4; 5; 6; 7] 3). lia.
Defined.

Lemma bytes_length (n : Z) : 0 <= n -> buffer_length (Demo.bytes n) = n.
Proof.
  intros Hn. unfold buffer_length, Demo.bytes. rewrite repeat_length. lia.
Qed.

(** Against the linear encoder and a target of 50 bytes the search
    returns the 50 bytes of quality 50. *)
Lemma binary_search_largest_fit_witness :
  outcome (ImageCompressor.binarySearchQualityBuffer unit Demo.linear_codec
             Demo.self tt "webp" 50)
  = inl (Demo.bytes 50).
Proof.
  destruct (binary_search_largest_fit unit Demo.linear_codec Demo.self tt
              "webp"%string 50 Demo.bytes
              (fun q _ => eq_refl)
              "out.webp"%string
              (fun q q' H1 H2 H3 =>
                 eq_ind_r (fun a => a <= buffer_length (Demo.bytes q'))
                   (eq_ind_r (fun b => q <= b) H2
                      (bytes_length q' (Z.le_trans _ _ _ (Z.le_trans 0 5 q
                         ltac:(lia) H1) H2)))
                   (bytes_length q (Z.le_trans 0 5 q ltac:(lia) H1))))
    as (_ & _ & _ & Hbuf & _).
  exact Hbuf.
Defined.

Lemma optimizePNG_first_fit_witness :
  written (events (ImageCompressor.optimizePNG unit Demo.png_codec tt
                     "out.png" 110))
  = [("out.png"%string, Demo.bytes 104)].
Proof.
  pose proof (optimizePNG_first_fit unit Demo.png_codec tt "out.png"%string
                110 Demo.png_enc) as H.
  assert (Henc : forall config, In config ImageCompressor.pngConfigs ->
            Demo.png_codec tt "png" config = inl (Demo.png_enc config)).
  { intros config Hin. simpl in Hin.
    destruct Hin as [<-|[<-|[<-|[<-|[]]]]]; reflexivity. }
  specialize (H Henc). cbv zeta in H. destruct H as [_ H].
  vm_compute in H. vm_compute. destruct H as (_ & _ & _ & H). exact H.
Defined.

(** C7 as stated fails when no configuration fits: the output written is
    that of the first configuration (quality 50, 128 colours), although
    the third configuration tried (quality 30, 32 colours) compresses
    harder and, with this encoder, gives the smaller output. *)
Lemma optimizePNG_fallback_counterexample :
  let run := ImageCompressor.optimizePNG unit Demo.png_codec tt "out.png" 10 in
  let first := nth 0 ImageCompressor.pngConfigs [] in
  let third := nth 2 ImageCompressor.pngConfigs [] in
  written (events run) = [("out.png"%string, Demo.png_enc first)] /\
  ImageCompressor.codec_calls (events run)
  = map (fun c => ("png"%string, c)) (ImageCompressor.pngConfigs ++ [first]) /\
  ImageCompressor.more_aggressive third first /\
  buffer_length (Demo.png_enc third) < buffer_length (Demo.png_enc first) /\
  Demo.png_enc first <> Demo.png_enc third.
Proof.
  cbv zeta. split; [vm_compute; reflexivity|].
  split; [vm_compute; reflexivity|].
  split; [vm_compute; split; [reflexivity | discriminate]|].
  split; [vm_compute; reflexivity|].
  intros E. apply (f_equal buffer_length) in E. vm_compute in E.
  discriminate.
Qed.


Lemma auto_format_selection_witness :
  ImageCompressor.codec_calls
    (events (ImageCompressor.compressToFile unit Demo.format_codec
               Demo.no_resize Demo.dimensions Demo.elapsed
               Demo.replaceExtension Demo.extname Demo.self tt "in.png"
               Demo.auto_options 1000 false))
  = map (fun c => (ImageCompressor.c_format c, ImageCompressor.c_opts c))
      (ImageCompressor.formatCandidates false 85).
Proof.
  destruct (auto_format_selection unit Demo.format_codec Demo.no_resize
              Demo.dimensions Demo.elapsed Demo.replaceExtension
              Demo.extname Demo.self tt "in.png"%string Demo.auto_options
              1000 false (or_introl eq_refl) eq_refl)
    as (_ & _ & Hcalls & _).
  exact Hcalls.
Defined.

(** C6 as stated fails at the 5% boundary: the original has 100 bytes
    and the WebP candidate 95, which is 5% smaller and the smallest
    result, but the filter asks for strictly less than 95 bytes, no
    candidate passes it, and the first candidate (AVIF, 120 bytes) is
    returned. *)
Lemma auto_format_boundary_counterexample :
  let results :=
    map (fun f => ImageCompressor.mkFormatResult
                    (ImageCompressor.c_format f)
                    (ImageCompressor.c_extension f)
                    (Demo.format_codec tt (ImageCompressor.c_format f)
                       (ImageCompressor.c_opts f)))
      (ImageCompressor.formatCandidates false 85) in
  map (fun r => (ImageCompressor.r_format r,
                 ImageCompressor.result_size r)) results
  = [("avif"%string, 120); ("webp"%string, 95); ("jpeg"%string, 130)] /\
  ImageCompressor.at_least_5_percent_smaller 100 95 /\
  filter (ImageCompressor.qualifies 100) results = [] /\
  outcome (ImageCompressor.findBestFormat unit Demo.format_codec tt false
             85 100)
  = inl (ImageCompressor.mkFormatResult "avif" ".avif"
           (inl (Demo.bytes 120))) /\
  written (events (ImageCompressor.compressToFile unit Demo.format_codec
                     Demo.no_resize Demo.dimensions Demo.elapsed
                     Demo.replaceExtension Demo.extname Demo.self tt
                     "in.png" Demo.auto_options 100 false))
  = [("out.avif"%string, Demo.bytes 120)].
Proof.
  cbv zeta. split; [vm_compute; reflexivity|].
  split; [unfold ImageCompressor.at_least_5_percent_smaller; lia|].
  split; [vm_compute; reflexivity|].
  split; vm_compute; reflexivity.
Qed.

Lemma merge_order_independent_witness :
  ThreadManager.processed
    (ThreadManager.handleMessages ThreadManager.emptyResults
       [Demo.complete0; Demo.complete1])
  = ThreadManager.processed
      (ThreadManager.handleMessages ThreadManager.emptyResults
         [Demo.complete1; Demo.complete0]).
Proof.
  destruct (merge_order_independent ThreadManager.emptyResults
              [Demo.complete0; Demo.complete1]
              [Demo.complete1; Demo.complete0]
              (Api.mkThreadResult 1 60 [] None)
              (Api.mkThreadResult 1 210 [] None)
              (Api.mkCompressionResult 0 0 [] [])
              (perm_swap Demo.complete1 Demo.complete0 []))
    as (Hprocessed & _).
  exact Hprocessed.
Defined.

(** C4 as stated fails for the file list: the pairs are pushed in
    arrival order, so two arrival orders of the same two [complete]
    messages give different file lists (and so do the two orders of
    accumulating two thread-manager results). *)
Lemma merge_file_order_counterexample :
  let a := ThreadManager.handleMessages ThreadManager.emptyResults
             [Demo.complete0; Demo.complete1] in
  let b := ThreadManager.handleMessages ThreadManager.emptyResults
             [Demo.complete1; Demo.complete0] in
  Permutation [Demo.complete0; Demo.complete1]
    [Demo.complete1; Demo.complete0] /\
  map ThreadManager.p_outputFile (ThreadManager.batchFiles a)
  = ["out/b.png"; "out/c.png"]%string /\
  map ThreadManager.p_outputFile (ThreadManager.batchFiles b)
  = ["out/c.png"; "out/b.png"]%string /\
  ThreadManager.batchFiles a <> ThreadManager.batchFiles b /\
  Api.files (Api.accumulateThreadResults (Api.ofBatch b)
               (Api.accumulateThreadResults (Api.ofBatch a)
                  (Api.mkCompressionResult 0 0 [] [])))
  <> Api.files (Api.accumulateThreadResults (Api.ofBatch a)
                  (Api.accumulateThreadResults (Api.ofBatch b)
                     (Api.mkCompressionResult 0 0 [] []))).
Proof.
  cbv zeta. split; [apply perm_swap|].
  split; [reflexivity|]. split; [reflexivity|].
  split; intros E;
    apply (f_equal (map ThreadManager.p_outputFile)) in E;
    vm_compute in E; discriminate.
Qed.

(** A chunk of three files whose second file cannot be read. *)
Lemma chunk_failure_isolated_witness :
  let posted :=
    Worker.processChunk Demo.imageCompress Demo.videoCompress Demo.basename
      Demo.extname Demo.elapsedTask (inl tt) 3
      [Worker.FileTask "b.png"; Worker.FileTask "a.png";
       Worker.FileTask "c.jpg"] in
  ThreadManager.settleMessages ThreadManager.Pending posted
  = ThreadManager.Resolved /\
  ThreadManager.processed
    (ThreadManager.handleMessages ThreadManager.emptyResults posted) = 2.
Proof.
  destruct (chunk_failure_isolated Demo.imageCompress Demo.videoCompress
              Demo.basename Demo.extname Demo.elapsedTask (inl tt) 3
              [Worker.FileTask "b.png"] [Worker.FileTask "c.jpg"]
              (Worker.FileTask "a.png") "Input file is missing"%string
              eq_refl eq_refl)
    as (_ & _ & _ & _ & _ & Hprocessed & Hsettled & _).
  split; [exact Hsettled | exact Hprocessed].
Defined.

(** One file of 100 bytes and a budget of 1 KB. *)
Lemma compress_rejects_bad_target_witness :
  exists message,
    Api.compress Demo.stat100 ["a.png"%string]
      (Demo.target_options (Api.TargetString (Api.code_units "1KB")))
      Demo.processAll
    = ([], inr message).
Proof.
  apply (compress_rejects_bad_target Demo.stat100 ["a.png"%string]
           (Demo.target_options (Api.TargetString (Api.code_units "1KB")))
           Demo.processAll).
  right.
  exists (Api.TargetString (Api.code_units "1KB")),
         (Api.mkSizeMatch [49%N] [] "KB"), "a.png"%string.
  repeat split; try reflexivity. vm_compute. discriminate.
Defined.

(** C9 as stated fails in two ways.  With two resolved files the budget
    is not compared with any file size: a budget of 1 GB for two files
    of 100 bytes passes and the files are processed.  And a target size
    given as a number is never checked against the size format: with
    [-5] and one file nothing is thrown and the file is processed. *)
Lemma compress_unchecked_target_counterexample :
  Api.compress Demo.stat100 ["a.png"; "b.png"]%string
    (Demo.target_options (Api.TargetString (Api.code_units "1GB")))
    Demo.processAll
  = ([EvToFile "a.png"; EvToFile "b.png"], inl 2%nat) /\
  option_map Api.targetBytes (Api.matchTargetSize (Api.code_units "1GB"))
  = Some (1024 * 1024 * 1024) /\
  Api.compress Demo.stat100 ["a.png"%string]
    (Demo.target_options (Api.TargetNumber (-5))) Demo.processAll
  = ([EvToFile "a.png"], inl 1%nat) /\
  Api.matchTargetSize (Api.targetToString (Api.TargetNumber (-5))) = None.
Proof. repeat split; vm_compute; reflexivity. Qed.

(* ================================================================== *)
(** * Part III: further properties of the code                          *)
(* ================================================================== *)

(* ------------------------------------------------------------------ *)
(** ** Fragmenter: what happens to every file of the list *)

Section FragmenterOrigins.

Import Fragmenter.

Variable extname_lower : string -> string.
Variable stat_size : string -> Z.
Variable metadata : string -> Metadata.

Local Abbreviation splitFile :=
  (Fragmenter.splitFile extname_lower stat_size metadata).
Local Abbreviation splittable :=
  (Fragmenter.splittable extname_lower stat_size metadata).

Local Abbreviation bandsFit := (Fragmenter.bandsFit metadata).
Local Abbreviation split :=
  (Fragmenter.splitLargeImagesIntoFragments extname_lower stat_size metadata).


Lemma extract_fails H W region :
  width region <= 0 \/ height region <= 0
  \/ W < left region + width region \/ H < top region + height region ->
  exists error, extract H W region = inr error.
Proof.
  intros Hout. unfold extract.
  destruct ((left region <? 0) || (top region <? 0) || (width region <? 0)
            || (height region <? 0)); [eexists; reflexivity|].
  destruct ((0 <? width region) && (0 <? height region)
            && (left region + width region <=? W)
            && (top region + height region <=? H)) eqn:E;
    [|eexists; reflexivity].
  apply andb_true_iff in E as [E E4]. apply andb_true_iff in E as [E E3].
  apply andb_true_iff in E as [E1 E2].
  apply Z.ltb_lt in E1, E2. apply Z.leb_le in E3, E4. lia.
Qed.


Lemma splitFile_splittable threadCount file :
  splittable file = true ->
  let fragments := Z.max MIN_FRAGMENTS threadCount in
  let H := nullish (meta_height (metadata file)) 0 in
  let W := nullish (meta_width (metadata file)) 0 in
  H <> 0 /\ W <> 0 /\
  splitFile threadCount file
  = fragmentLoop (Z.to_nat fragments) file (extname_lower file) fragments
      H W (num_or (H / fragments) H) 0.
Proof.
  unfold Fragmenter.splittable, Fragmenter.splitFile. intros Hs.
  apply andb_true_iff in Hs as [Hs H3]. apply andb_true_iff in Hs as [H1 H2].
  apply negb_true_iff in H2, H3. rewrite H1, H2, H3.
  apply orb_false_iff in H3 as [Hh Hw].
  apply Z.eqb_neq in Hh, Hw. repeat split; assumption.
Qed.


(** A file that is split and has a band outside the image makes
    [extract] reject, in the first or the second iteration. *)
Lemma splitFile_low threadCount file :
  splittable file = true -> bandsFit threadCount file = false ->
  exists error, splitFile threadCount file = inr error.
Proof.
  intros Hs Hfit.
  destruct (splitFile_splittable threadCount file Hs) as (Hh & Hw & Heq).
  cbv zeta in Heq. rewrite Heq. clear Heq Hs.
  unfold Fragmenter.bandsFit in Hfit.
  set (n := Z.max MIN_FRAGMENTS threadCount) in *.
  set (H := nullish (meta_height (metadata file)) 0) in *.
  set (W := nullish (meta_width (metadata file)) 0) in *.
  assert (Hn : 2 <= n) by (unfold n, MIN_FRAGMENTS; lia).
  assert (Hnat : exists m, Z.to_nat n = S (S m)).
  { exists (Z.to_nat n - 2)%nat. lia. }
  destruct Hnat as [m ->].
  assert (Hcase : W < 0 \/ H < 0 \/ (0 < W /\ 0 < H < n)).
  { apply andb_false_iff in Hfit as [Hf|Hf];
      [apply Z.leb_gt in Hf | apply Z.ltb_ge in Hf]; lia. }
  cbn [fragmentLoop].
  destruct Hcase as [Hneg|[Hneg|[Hpos Hlow]]].
  - destruct (extract_fails H W (fragmentRegion n H W (num_or (H / n) H) 0))
      as [error He]; [left; cbn; lia|].
    rewrite He. now exists error.
  - assert (Hdiv : H / n < 0) by (apply Z.div_lt_upper_bound; lia).
    destruct (extract_fails H W (fragmentRegion n H W (num_or (H / n) H) 0))
      as [error He].
    { right; left. unfold fragmentRegion, num_or. cbn [height].
      replace (0 =? n - 1) with false by (symmetry; apply Z.eqb_neq; lia).
      replace (H / n =? 0) with false by (symmetry; apply Z.eqb_neq; lia).
      lia. }
    rewrite He. now exists error.
  - assert (Hdiv : H / n = 0) by (apply Z.div_small; lia).
    unfold num_or. rewrite Hdiv. cbn [Z.eqb].
    destruct (extract H W (fragmentRegion n H W H 0)) as [b|error];
      [|now exists error].
    destruct (extract_fails H W (fragmentRegion n H W H (0 + 1)))
      as [error He].
    { unfold fragmentRegion. cbn [left top width height].
      destruct (0 + 1 =? n - 1); lia. }
    rewrite He. now exists error.
Qed.


(** X2: an image with fewer rows than there are fragments makes the
    whole call reject: when some file of the list passes the three
    tests and has fewer than [max(2, threadCount)] rows (or a width that
    is not positive), a band lies outside the image, [extract] rejects,
    and the call returns no list, whatever the other files are. *)
Theorem split_low_image_rejects (files : list string) (file : string)
        (threadCount : Z) :
  In file files ->
  splittable file = true ->
  bandsFit threadCount file = false ->
  exists error, split files threadCount = inr error.
Proof.
  intros Hin Hs Hfit.
  induction files as [|f rest IH]; [destruct Hin|].
  cbn [Fragmenter.splitLargeImagesIntoFragments].
  destruct Hin as [->|Hin].
  - destruct (splitFile_low threadCount file Hs Hfit) as [error ->].
    now exists error.
  - destruct (splitFile threadCount f) as [pushed|error];
      [|now exists error].
    destruct (IH Hin) as [error ->]. now exists error.
Qed.

End FragmenterOrigins.

Lemma split_low_image_rejects_witness :
  exists error,
    Fragmenter.splitLargeImagesIntoFragments Demo.extname Demo.stat
      Demo.strip_metadata ["a.png"; "strip.png"]%string 3
    = inr error.
Proof.
  apply (split_low_image_rejects Demo.extname Demo.stat Demo.strip_metadata
           ["a.png"; "strip.png"]%string "strip.png"%string 3);
    [right; left; reflexivity | reflexivity | reflexivity].
Defined.

(* ------------------------------------------------------------------ *)
(** ** Thread manager: thread count, small batches, accounting *)

Section ThreadPolicyFacts.

Import ThreadManager.

(** X3: the thread count is always within [2, 32]; and when no
    [threads] option is given (and the machine has at least one core)
    it never exceeds twice the core count, so the high-thread-count
    warning is not printed. *)
Theorem thread_count_policy (totalCores : Z) (o : Options) :
  1 <= totalCores ->
  threads o = None ->
  2 <= calculateOptimalThreads totalCores o <= 32 /\
  calculateOptimalThreads totalCores o <= totalCores * 2 /\
  highThreadWarning totalCores o = false.
Proof.
  intros Hc Ht.
  assert (Hle : calculateOptimalThreads totalCores o <= totalCores * 2).
  { unfold calculateOptimalThreads, ceil_3_2. rewrite Ht.
    destruct (ultrafast o); [lia|].
    assert ((3 * totalCores + 1) / 2 <= totalCores * 2)
      by (apply Z.div_le_upper_bound; lia).
    lia. }
  split; [|split; [exact Hle|]].
  - unfold calculateOptimalThreads. rewrite Ht. destruct (ultrafast o); lia.
  - unfold highThreadWarning. apply Z.ltb_ge. exact Hle.
Qed.

Context {A : Type}.

Lemma chunkLoop_singletons (fuel i : nat) (fs : list A) (t : nat) :
  (t <= fuel + i)%nat -> (List.length fs <= t)%nat ->
  map files (chunkLoop fuel i fs t 1) = map (fun f => [f]) (skipn i fs).
Proof.
  revert i. induction fuel as [|fuel IH]; intros i Hf Hlen.
  - simpl. rewrite skipn_all2 by lia. reflexivity.
  - cbn [chunkLoop]. rewrite Nat.mul_1_r.
    destruct (i <? t)%nat eqn:Ei; cbn [andb].
    2:{ apply Nat.ltb_ge in Ei. rewrite skipn_all2 by lia. reflexivity. }
    destruct (i <? List.length fs)%nat eqn:El.
    2:{ apply Nat.ltb_ge in El. rewrite skipn_all2 by lia. reflexivity. }
    apply Nat.ltb_lt in El.
    replace (Nat.min (i + 1) (List.length fs)) with (S i) by lia.
    assert (Hsk : exists x, skipn i fs = x :: skipn (S i) fs).
    { clear - El. revert i El. induction fs as [|a fs IHf]; intros i El;
        [simpl in El; lia|].
      destruct i as [|i]; [now exists a|].
      simpl in El. destruct (IHf i ltac:(lia)) as [x Hx]. now exists x. }
    destruct Hsk as [x Hx].
    assert (Hslice : slice fs i (S i) = [x]).
    { unfold slice. replace (S i - i)%nat with 1%nat by lia.
      rewrite Hx. reflexivity. }
    rewrite Hslice. cbn. rewrite IH by lia. rewrite Hx. reflexivity.
Qed.

(** X4: when there are at most as many files as threads, every file
    gets a worker of its own: the chunks are the files, one each, in
    order, and there are as many chunks as files (fewer than threads
    when there are fewer files). *)
Theorem chunkFiles_one_file_each (fs : list A) (threadCount : nat) :
  (1 <= threadCount)%nat ->
  (List.length fs <= threadCount)%nat ->
  map files (chunkFiles fs threadCount) = map (fun f => [f]) fs /\
  List.length (chunkFiles fs threadCount) = List.length fs.
Proof.
  intros Ht Hlen.
  assert (Hmap : map files (chunkFiles fs threadCount)
                 = map (fun f => [f]) fs).
  { unfold chunkFiles. destruct fs as [|f fs'].
    - destruct threadCount; [lia|]. reflexivity.
    - assert (Hfpw : ceil_div (List.length (f :: fs')) threadCount = 1%nat).
      { apply Nat.le_antisymm.
        - apply ceil_div_least; lia.
        - apply ceil_div_pos; simpl; lia. }
      rewrite Hfpw. now rewrite chunkLoop_singletons by lia. }
  split; [exact Hmap|].
  apply (f_equal (@List.length _)) in Hmap. now rewrite !length_map in Hmap.
Qed.

End ThreadPolicyFacts.

Lemma thread_count_policy_witness :
  ThreadManager.highThreadWarning 8 (ThreadManager.mkOptions None true)
  = false.
Proof.
  apply (thread_count_policy 8 (ThreadManager.mkOptions None true));
    [lia | reflexivity].
Defined.

Lemma chunkFiles_one_file_each_witness :
  map ThreadManager.files (ThreadManager.chunkFiles [10; 20; 30] 8)
  = [[10]; [20]; [30]].
Proof.
  apply (chunkFiles_one_file_each [10; 20; 30] 8); simpl; lia.
Defined.

(* ------------------------------------------------------------------ *)
(** ** The worker protocol and the accounting of a batch *)

Section ProtocolFacts.

Import Worker ThreadManager.

Variable imageCompress : Input -> CompressionResult + string.
Variable videoCompress : string -> CompressionResult + string.
Variable basename : string -> string.
Variable extname : string -> string.
Variable elapsed : Task -> Z.

Local Abbreviation processItem w :=
  (Worker.processItem imageCompress videoCompress basename extname elapsed w).
Local Abbreviation processChunk s w :=
  (Worker.processChunk imageCompress videoCompress basename extname elapsed
     s w).

Lemma item_messages_not_terminal w files :
  forallb (fun m => negb (isTerminal m))
    (map (fun t => snd (processItem w t)) files) = true.
Proof.
  induction files as [|t rest IH]; [reflexivity|]. simpl.
  rewrite IH, andb_true_r. unfold Worker.processItem.
  now destruct (Worker.compressItem _ _ _ t).
Qed.

(** After a successful setup the pool resolves the worker's promise. *)
Lemma chunk_promise_resolved w files :
  settleMessages Pending (processChunk (inl tt) w files) = Resolved.
Proof.
  rewrite (processChunk_closed imageCompress videoCompress basename extname
             elapsed (inl tt) w files eq_refl).
  unfold settleMessages. rewrite fold_left_app.
  fold (settleMessages Pending (map (fun t => snd (processItem w t)) files)).
  rewrite (item_messages_settle imageCompress videoCompress basename
             extname elapsed w). reflexivity.
Qed.

(** X5: a worker posts exactly one terminal message, and posts it last.
    After a successful setup that is [complete], preceded by one
    [progress] or [error] message per item and carrying one entry per
    item, and the pool resolves the worker's promise; after a failed
    setup the only message is [worker_error], the pool rejects the
    promise and the batch results stay as they were. *)
Theorem worker_protocol (setup : unit + string) (w : Z) (files : list Task)
        (results : BatchResults) :
  let posted := processChunk setup w files in
  exists body terminal,
    posted = body ++ [terminal] /\
    forallb (fun m => negb (isTerminal m)) body = true /\
    isTerminal terminal = true /\
    match setup with
    | inl _ =>
        List.length body = List.length files /\
        List.length (completed terminal) = List.length files /\
        settleMessages Pending posted = Resolved
    | inr e =>
        body = [] /\ terminal = WorkerError e w /\
        isRejected (settleMessages Pending posted) = true /\
        handleMessages results posted = results
    end.
Proof.
  intros posted. unfold posted. destruct setup as [[]|e].
  - rewrite (processChunk_closed imageCompress videoCompress basename extname
               elapsed (inl tt) w files eq_refl).
    eexists _, _. split; [reflexivity|].
    split; [apply item_messages_not_terminal|].
    split; [reflexivity|].
    split; [apply length_map|]. split; [simpl; apply length_map|].
    unfold settleMessages. rewrite fold_left_app.
    fold (settleMessages Pending (map (fun t => snd (processItem w t)) files)).
    rewrite (item_messages_settle imageCompress videoCompress basename
               extname elapsed w). reflexivity.
  - exists [], (WorkerError e w). repeat split.
Qed.

(** What a list of messages accounts for: the successes its [complete]
    messages carry plus the errors its [error] messages report. *)
Lemma chunk_accounts_for_its_files w files :
  zsum (map addedCount
          (flat_map completed (processChunk (inl tt) w files)))
  + Z.of_nat (List.length
                (flat_map reported (processChunk (inl tt) w files)))
  = Z.of_nat (List.length files).
Proof.
  rewrite (processChunk_closed imageCompress videoCompress basename extname
             elapsed (inl tt) w files eq_refl).
  rewrite !flat_map_app.
  rewrite (item_messages_completed imageCompress videoCompress basename
             extname elapsed w). simpl. rewrite !app_nil_r.
  induction files as [|t rest IH]; [reflexivity|].
  cbn [map flat_map]. rewrite length_app.
  unfold zsum in *. cbn [fold_right].
  unfold Worker.processItem at 1 3.
  destruct (Worker.compressItem _ _ _ t); cbn [fst snd addedCount reported
    List.length]; lia.
Qed.

Variable setup : Z -> unit + string.

Local Abbreviation workerPosts :=
  (ThreadManager.workerPosts imageCompress videoCompress basename extname
     elapsed setup).
Local Abbreviation allPosts :=
  (ThreadManager.allPosts imageCompress videoCompress basename extname
     elapsed setup).
Local Abbreviation workerPromises :=
  (ThreadManager.workerPromises imageCompress videoCompress basename extname
     elapsed setup).

Lemma chunks_account (chunks : list (WorkChunk Task)) :
  (forall w, setup w = inl tt) ->
  zsum (map addedCount (flat_map completed (flat_map workerPosts chunks)))
  + Z.of_nat (List.length (flat_map reported (flat_map workerPosts chunks)))
  = Z.of_nat (List.length (List.concat (map ThreadManager.files chunks))).
Proof.
  intros Hsetup. induction chunks as [|c rest IH]; [reflexivity|].
  cbn [flat_map map List.concat].
  rewrite !flat_map_app, map_app, zsum_app, !length_app.
  pose proof (chunk_accounts_for_its_files (Z.of_nat (workerIndex c))
                (ThreadManager.files c)) as Hc.
  unfold ThreadManager.workerPosts at 1 3. rewrite Hsetup. lia.
Qed.

(** X6: when every worker's setup succeeds, every task of the batch is
    accounted for exactly once, in whatever order the workers' messages
    reach the pool: the processed count plus the number of recorded
    errors is the number of tasks, and every worker's promise is
    resolved. *)
Theorem pool_accounts_for_every_task (tasks : list Task) (threadCount : nat)
        (arrival : list Message) :
  (1 <= threadCount)%nat ->
  (forall w, setup w = inl tt) ->
  Permutation arrival (allPosts tasks threadCount) ->
  let batch := handleMessages emptyResults arrival in
  processed batch + Z.of_nat (List.length (errors batch))
  = Z.of_nat (List.length tasks) /\
  Forall (fun s => s = Resolved) (workerPromises tasks threadCount).
Proof.
  intros Ht Hsetup Hperm batch. split.
  - unfold batch. rewrite handleMessages_closed. unfold emptyResults.
    cbn [processed errors app]. rewrite Z.add_0_l.
    rewrite (zsum_perm _ (map addedCount
                            (flat_map completed (allPosts tasks threadCount))))
      by (apply Permutation_map, Permutation_flat_map; exact Hperm).
    rewrite (Permutation_length
               (Permutation_flat_map reported Hperm)).
    unfold ThreadManager.allPosts. rewrite chunks_account by exact Hsetup.
    unfold chunkFiles. rewrite chunkLoop_concat;
      [reflexivity | lia | now apply ceil_div_covers].
  - unfold ThreadManager.workerPromises. apply Forall_map, Forall_forall.
    intros c _. unfold ThreadManager.workerPosts. rewrite Hsetup.
    apply chunk_promise_resolved.
Qed.

End ProtocolFacts.

Section SingleThreadFacts.

Import Worker ThreadManager.

Variable mimeLookup : string -> option string.
Variable imageCompress : string -> CompressionResult + string.
Variable videoCompress : string -> CompressionResult + string.
Variable videoSetup : unit + string.
Variable elapsed : string -> Z.

Local Abbreviation singleStep :=
  (ThreadManager.singleStep mimeLookup imageCompress videoCompress elapsed).
Local Abbreviation processSingleThreaded :=
  (ThreadManager.processSingleThreaded mimeLookup imageCompress videoCompress
     videoSetup elapsed).

Lemma singleSteps_account haveVideo files results :
  let after := fold_left (singleStep haveVideo) files results in
  processed after + Z.of_nat (List.length (errors after))
  = processed results + Z.of_nat (List.length (errors results))
    + Z.of_nat (List.length files) /\
  map e_file (errors after)
  = map e_file (errors results)
    ++ filter (fun file =>
                 match ThreadManager.compressOne mimeLookup imageCompress
                         videoCompress haveVideo file with
                 | inl _ => false
                 | inr _ => true
                 end) files.
Proof.
  revert results. induction files as [|file rest IH]; intros results.
  - simpl. split; [lia|]. now rewrite app_nil_r.
  - cbn [fold_left filter]. destruct (IH (singleStep haveVideo results file))
      as [IH1 IH2]. cbv zeta in IH1, IH2. cbv zeta.
    rewrite IH1, IH2. unfold ThreadManager.singleStep.
    destruct (ThreadManager.compressOne _ _ _ haveVideo file);
      cbn [processed errors].
    + split; [cbn [List.length]; lia | reflexivity].
    + rewrite length_app, map_app, <- app_assoc. cbn [List.length map app].
      split; [lia | reflexivity].
Qed.

(** X7: on the single-threaded path no file is dropped and one failure
    does not stop the loop: when [processSingleThreaded] returns, the
    processed count plus the number of errors is the number of files,
    and the error list names exactly the files whose compression threw,
    in their order.  It rejects only when the batch holds a video and
    the video compressor cannot be constructed. *)
Theorem single_thread_accounts_for_every_file (files : list string) :
  match processSingleThreaded files with
  | inl batch =>
      processed batch + Z.of_nat (List.length (errors batch))
      = Z.of_nat (List.length files) /\
      map e_file (errors batch)
      = filter (fun file =>
                  match ThreadManager.compressOne mimeLookup imageCompress
                          videoCompress
                          (existsb (ThreadManager.mimeStartsWith mimeLookup
                                      "video/") files) file with
                  | inl _ => false
                  | inr _ => true
                  end) files
  | inr e =>
      videoSetup = inr e /\
      existsb (ThreadManager.mimeStartsWith mimeLookup "video/") files = true
  end.
Proof.
  unfold ThreadManager.processSingleThreaded.
  destruct (existsb (ThreadManager.mimeStartsWith mimeLookup "video/") files)
    eqn:Ev.
  - destruct videoSetup as [u|e]; [|now split].
    destruct (singleSteps_account true files emptyResults) as [H1 H2].
    cbv zeta in H1, H2. simpl in H1, H2. split; [lia | exact H2].
  - destruct (singleSteps_account false files emptyResults) as [H1 H2].
    cbv zeta in H1, H2. simpl in H1, H2. split; [lia | exact H2].
Qed.

End SingleThreadFacts.

Lemma pool_accounts_for_every_task_witness :
  let batch :=
    ThreadManager.handleMessages ThreadManager.emptyResults
      (ThreadManager.allPosts Demo.imageCompress Demo.videoCompress
         Demo.basename Demo.extname Demo.elapsedTask Demo.setupOk
         Demo.threeTasks 2) in
  ThreadManager.processed batch
  + Z.of_nat (List.length (ThreadManager.errors batch))
  = 3.
Proof.
  apply (pool_accounts_for_every_task Demo.imageCompress Demo.videoCompress
           Demo.basename Demo.extname Demo.elapsedTask Demo.setupOk
           Demo.threeTasks 2 _ ltac:(lia) (fun _ => eq_refl)
           (Permutation_refl _)).
Defined.

(* ------------------------------------------------------------------ *)
(** ** The engine against an arbitrary codec *)

Section EngineFacts.

Import ImageCompressor.

Variable Pipeline : Type.
Variable toBuffer : Pipeline -> string -> JsObject -> Buffer + string.
Variable resize : Pipeline -> Z -> Z -> Pipeline.
Variable dimensions : Pipeline -> Z * Z.
Variable elapsed : Strategy -> Z.
Variable replaceExtension : string -> string -> string.
Variable extname_lower : string -> string.
Variable self : Self.
Variable readFile : string -> Buffer + string.

Local Abbreviation compressWithQuality :=
  (ImageCompressor.compressWithQuality Pipeline toBuffer self).
Local Abbreviation searchLoop :=
  (ImageCompressor.searchLoop Pipeline toBuffer self).
Local Abbreviation binarySearchQuality :=
  (ImageCompressor.binarySearchQuality Pipeline toBuffer self).
Local Abbreviation binarySearchQualityBuffer :=
  (ImageCompressor.binarySearchQualityBuffer Pipeline toBuffer self).
Local Abbreviation pngLoop := (ImageCompressor.pngLoop Pipeline toBuffer).
Local Abbreviation optimizePNG :=
  (ImageCompressor.optimizePNG Pipeline toBuffer).
Local Abbreviation standardCompression :=
  (ImageCompressor.standardCompression Pipeline toBuffer self).
Local Abbreviation testStrategy :=
  (ImageCompressor.testStrategy Pipeline toBuffer resize dimensions elapsed).
Local Abbreviation testAll :=
  (ImageCompressor.testAll Pipeline toBuffer resize dimensions elapsed).
Local Abbreviation compressToTargetSizeFile :=
  (ImageCompressor.compressToTargetSizeFile Pipeline toBuffer resize
     dimensions elapsed replaceExtension self).
Local Abbreviation compressToFile :=
  (ImageCompressor.compressToFile Pipeline toBuffer resize dimensions
     elapsed replaceExtension extname_lower self).
Local Abbreviation compressToBuffer :=
  (ImageCompressor.compressToBuffer Pipeline toBuffer resize dimensions
     elapsed replaceExtension self readFile).

Lemma touched_app t1 t2 : touched (t1 ++ t2) = touched t1 ++ touched t2.
Proof.
  induction t1 as [|ev t1 IH]; [reflexivity|].
  destruct ev; simpl; now rewrite ?IH.
Qed.

Lemma written_of_touched t : touched t = [] -> written t = [].
Proof.
  induction t as [|ev t IH]; [reflexivity|].
  destruct ev; simpl; auto; discriminate.
Qed.

Lemma compressWithQuality_touched inst format q :
  touched (events (compressWithQuality inst format q)) = [].
Proof. reflexivity. Qed.

(** The loop of the binary search writes nothing, whatever the codec
    does. *)
Lemma searchLoop_touched n inst format target st :
  touched (events (searchLoop n inst format target st)) = [].
Proof.
  revert st. induction n as [|n IH]; intros st; [reflexivity|].
  destruct (minQ st <=? maxQ st) eqn:Hle.
  2:{ now rewrite searchLoop_stop. }
  rewrite searchLoop_step by assumption. cbv zeta.
  destruct (toBuffer inst format _) as [b|e]; rewrite events_pair.
  - rewrite touched_app, IH. reflexivity.
  - reflexivity.
Qed.

(** The best buffer of the loop is within the target, whatever the
    codec does. *)
Lemma searchLoop_best_fits n inst format target st :
  (forall b, bestBuffer st = Some b -> buffer_length b <= target) ->
  forall st', outcome (searchLoop n inst format target st) = inl st' ->
  forall b, bestBuffer st' = Some b -> buffer_length b <= target.
Proof.
  revert st. induction n as [|n IH]; intros st Hst st' Hout b Hb.
  - injection Hout as <-. now apply Hst.
  - destruct (minQ st <=? maxQ st) eqn:Hle.
    2:{ rewrite searchLoop_stop in Hout by assumption.
        injection Hout as <-. now apply Hst. }
    rewrite searchLoop_step in Hout by assumption. cbv zeta in Hout.
    destruct (toBuffer inst format _) as [b0|e]; rewrite outcome_pair in Hout;
      [|discriminate].
    eapply IH; [|exact Hout|exact Hb].
    destruct (buffer_length b0 <=? target) eqn:Ef; simpl.
    + intros b' [= <-]. now apply Z.leb_le.
    + exact Hst.
Qed.

(** A range of fewer than [2^k] qualities is searched in at most [k]
    rounds, whatever the codec does. *)
Lemma searchLoop_rounds n inst format target st (k : nat) :
  maxQ st - minQ st + 1 < 2 ^ Z.of_nat k ->
  (List.length (tested_qualities
                  (events (searchLoop n inst format target st))) <= k)%nat.
Proof using Pipeline toBuffer self.
  clear resize dimensions elapsed replaceExtension extname_lower readFile.
  revert st k. induction n as [|n IH]; intros st k Hk; [simpl; lia|].
  destruct (minQ st <=? maxQ st) eqn:Hle.
  2:{ rewrite searchLoop_stop by assumption. simpl. lia. }
  rewrite searchLoop_step by assumption. cbv zeta.
  apply Z.leb_le in Hle.
  destruct k as [|k]; [simpl in Hk; lia|].
  assert (Hpow : 2 ^ Z.of_nat (S k) = 2 * 2 ^ Z.of_nat k)
    by (rewrite Nat2Z.inj_succ, Z.pow_succ_r; lia).
  assert (Hhalf : 2 * ((minQ st + maxQ st) / 2) <= minQ st + maxQ st
                  < 2 * ((minQ st + maxQ st) / 2) + 2)
    by (Z.div_mod_to_equations; lia).
  destruct (toBuffer inst format _) as [b|e]; rewrite events_pair.
  - rewrite tested_qualities_app. rewrite length_app.
    change (List.length (tested_qualities (events (compressWithQuality inst
              format ((minQ st + maxQ st) / 2))))) with 1%nat.
    apply le_n_S. apply IH.
    destruct (buffer_length b <=? target); simpl; lia.
  - change (List.length (tested_qualities (events (compressWithQuality inst
              format ((minQ st + maxQ st) / 2))))) with 1%nat. lia.
Qed.

Lemma searchLoop_at_most_7 inst format target :
  (List.length (tested_qualities
                  (events (searchLoop maxAttempts inst format target
                             searchStart))) <= 7)%nat.
Proof using Pipeline toBuffer self.
  clear resize dimensions elapsed replaceExtension extname_lower readFile.
  apply searchLoop_rounds; simpl; lia.
Qed.

(** Every round of the loop makes one encode. *)
Lemma searchLoop_calls n inst format target st :
  List.length (codec_calls (events (searchLoop n inst format target st)))
  = List.length (tested_qualities
                   (events (searchLoop n inst format target st))).
Proof.
  revert st. induction n as [|n IH]; intros st; [reflexivity|].
  destruct (minQ st <=? maxQ st) eqn:Hle.
  2:{ now rewrite searchLoop_stop. }
  rewrite searchLoop_step by assumption. cbv zeta.
  destruct (toBuffer inst format _) as [b|e]; rewrite events_pair.
  - rewrite codec_calls_app, tested_qualities_app, !length_app, IH.
    reflexivity.
  - reflexivity.
Qed.

Lemma buffer_search_at_most_8 inst format target :
  (List.length (codec_calls
                  (events (binarySearchQualityBuffer inst format target)))
   <= 8)%nat.
Proof using Pipeline toBuffer self.
  clear resize dimensions elapsed replaceExtension extname_lower readFile.
  pose proof (searchLoop_at_most_7 inst format target) as Hloop.
  pose proof (searchLoop_calls maxAttempts inst format target searchStart)
    as Hc.
  unfold ImageCompressor.binarySearchQualityBuffer. rewrite bind_events.
  revert Hloop Hc.
  generalize (searchLoop maxAttempts inst format target searchStart).
  intros loop Hloop Hc.
  destruct (outcome loop) as [st|e]; [|rewrite Hc; lia].
  rewrite codec_calls_app, length_app, Hc.
  destruct (bestBuffer st) as [b|].
  - cbn [bind tell ret events outcome fst snd app codec_calls List.length].
    lia.
  - rewrite compressWithQuality_run.
    destruct (toBuffer inst format _);
      cbn [bind tell ret events outcome fst snd app codec_calls List.length];
      lia.
Qed.

(** X8: whatever the codec does, a target-size binary search makes at
    most 7 encodes in its loop and at most 8 in all: the range [5, 95]
    is exhausted before the cap of 15 attempts is reached. *)
Theorem search_makes_at_most_8_encodes (inst : Pipeline)
        (outputPath format : string) (target : Z) :
  (List.length (tested_qualities
                  (events (searchLoop maxAttempts inst format target
                             searchStart))) <= 7)%nat /\
  (List.length (codec_calls
                  (events (binarySearchQualityBuffer inst format target)))
   <= 8)%nat /\
  (List.length (codec_calls
                  (events (binarySearchQuality inst outputPath format
                             target))) <= 8)%nat.
Proof using Pipeline toBuffer self.
  clear resize dimensions elapsed replaceExtension extname_lower readFile.
  split; [apply searchLoop_at_most_7|].
  split; [apply buffer_search_at_most_8|].
  pose proof (searchLoop_at_most_7 inst format target) as Hloop.
  pose proof (searchLoop_calls maxAttempts inst format target searchStart)
    as Hc.
  unfold ImageCompressor.binarySearchQuality. rewrite bind_events.
  revert Hloop Hc.
  generalize (searchLoop maxAttempts inst format target searchStart).
  intros loop Hloop Hc.
  destruct (outcome loop) as [st|e]; [|rewrite Hc; lia].
  rewrite codec_calls_app, length_app, Hc.
  destruct (bestBuffer st) as [b|].
  - cbn [bind tell ret events outcome fst snd app codec_calls List.length].
    lia.
  - rewrite bind_events, compressWithQuality_run, outcome_pair, events_pair.
    destruct (toBuffer inst format _);
      cbn [bind tell ret events outcome fst snd app codec_calls List.length];
      lia.
Qed.

(** X9: whatever the codec does, the file variant and the buffer variant
    of the binary search agree: they try the same qualities, the file
    variant writes exactly the buffer the other returns (and throws
    without writing when the other throws), and that buffer is within
    the target unless it is the fallback encode at quality 5. *)
Theorem search_variants_agree (inst : Pipeline)
        (outputPath format : string) (target : Z) :
  let fileRun := binarySearchQuality inst outputPath format target in
  let bufferRun := binarySearchQualityBuffer inst format target in
  tested_qualities (events fileRun) = tested_qualities (events bufferRun) /\
  codec_calls (events fileRun) = codec_calls (events bufferRun) /\
  match outcome bufferRun with
  | inl b =>
      outcome fileRun = inl outputPath /\
      written (events fileRun) = [(outputPath, b)] /\
      (buffer_length b <= target \/
       toBuffer inst format (getCompressionOptions self format 5) = inl b)
  | inr e => outcome fileRun = inr e /\ written (events fileRun) = []
  end.
Proof.
  intros fileRun bufferRun. unfold fileRun, bufferRun,
    ImageCompressor.binarySearchQuality,
    ImageCompressor.binarySearchQualityBuffer.
  rewrite !bind_events, !bind_outcome.
  pose proof (searchLoop_touched maxAttempts inst format target searchStart)
    as Htouch. apply written_of_touched in Htouch.
  pose proof (searchLoop_best_fits maxAttempts inst format target searchStart
                ltac:(simpl; discriminate)) as Hfit.
  revert Htouch Hfit.
  generalize (searchLoop maxAttempts inst format target searchStart).
  intros loop Htouch Hfit.
  destruct (outcome loop) as [st|e];
    [|split; [reflexivity|split; [reflexivity|split;
       [reflexivity|exact Htouch]]]].
  specialize (Hfit st eq_refl).
  destruct (bestBuffer st) as [b|].
  - rewrite !tested_qualities_app, !codec_calls_app, written_app, Htouch.
    cbn [bind tell ret events outcome fst snd app codec_calls
         tested_qualities written].
    rewrite !app_nil_r.
    split; [reflexivity|]. split; [reflexivity|]. split; [reflexivity|].
    split; [reflexivity|]. left. now apply Hfit.
  - rewrite !bind_events, !bind_outcome, compressWithQuality_run,
      !outcome_pair, !events_pair.
    rewrite !tested_qualities_app, !codec_calls_app, written_app, Htouch.
    destruct (toBuffer inst format (getCompressionOptions self format 5))
      as [b|e];
      cbn [bind tell ret events outcome fst snd app codec_calls
           tested_qualities written];
      rewrite ?app_nil_r.
    + split; [reflexivity|]. split; [reflexivity|]. split; [reflexivity|].
      split; [reflexivity|]. now right.
    + split; [reflexivity|]. split; [reflexivity|]. split; reflexivity.
Qed.

Lemma writes_once_bind {X : Type} (m : M X) (f : X -> M string) :
  touched (events m) = [] ->
  (forall x, outcome m = inl x -> writes_once (f x)) ->
  writes_once (bind m f).
Proof.
  intros Hm Hf. unfold writes_once. rewrite bind_outcome, bind_events.
  destruct (outcome m) as [x|e]; [|exact Hm].
  rewrite touched_app, Hm. exact (Hf x eq_refl).
Qed.

Lemma writes_once_write path (b : Buffer) :
  writes_once (bind (tell (EvWriteFile path b)) (fun _ => ret path)).
Proof. reflexivity. Qed.

Lemma binarySearchQuality_writes_once inst outputPath format target :
  writes_once (binarySearchQuality inst outputPath format target).
Proof.
  unfold ImageCompressor.binarySearchQuality.
  apply writes_once_bind; [apply searchLoop_touched|].
  intros st _. destruct (bestBuffer st) as [b|];
    [apply writes_once_write|].
  apply writes_once_bind; [reflexivity|].
  intros b _. apply writes_once_write.
Qed.

Lemma pngLoop_writes configs inst outputPath target :
  match outcome (pngLoop configs inst outputPath target) with
  | inl (Some path) =>
      path = outputPath /\
      touched (events (pngLoop configs inst outputPath target)) = [path]
  | _ => touched (events (pngLoop configs inst outputPath target)) = []
  end.
Proof.
  induction configs as [|c cs IH]; [reflexivity|].
  cbn [ImageCompressor.pngLoop]. rewrite bind_outcome, bind_events.
  unfold codec. rewrite !outcome_pair, !events_pair.
  destruct (toBuffer inst "png" c) as [b|e]; [|reflexivity].
  destruct (buffer_length b <=? target).
  - split; reflexivity.
  - rewrite touched_app. cbn [touched app]. exact IH.
Qed.

Lemma optimizePNG_writes_once inst outputPath target :
  writes_once (optimizePNG inst outputPath target).
Proof.
  unfold ImageCompressor.optimizePNG, writes_once.
  rewrite bind_outcome, bind_events.
  pose proof (pngLoop_writes pngConfigs inst outputPath target) as Hl.
  destruct (outcome (pngLoop pngConfigs inst outputPath target))
    as [[p|]|e]; [| |exact Hl].
  - destruct Hl as [-> Hl]. rewrite touched_app, Hl. reflexivity.
  - rewrite touched_app, Hl.
    change (writes_once
              (bind (codec Pipeline toBuffer inst "png" (nth 0 pngConfigs []))
                 (fun buffer =>
                    bind (tell (EvWriteFile outputPath buffer))
                      (fun _ => ret outputPath)))).
    apply writes_once_bind; [reflexivity|].
    intros b _. apply writes_once_write.
Qed.

Lemma standardCompression_writes_once inst outputPath format target :
  writes_once (standardCompression inst outputPath format target).
Proof.
  unfold ImageCompressor.standardCompression.
  destruct (includes _ format); [apply binarySearchQuality_writes_once|].
  destruct (format === "png"); [apply optimizePNG_writes_once|].
  reflexivity.
Qed.

Lemma testStrategy_touched inst s keepDims :
  touched (events (testStrategy inst s keepDims)) = [] /\
  exists r, outcome (testStrategy inst s keepDims) = inl r /\
            outcome_strategy r = s.
Proof.
  unfold ImageCompressor.testStrategy, try_catch.
  destruct (strategyOptions s) as [opts|].
  - unfold bind, codec; cbn [fst snd].
    destruct (toBuffer _ (s_format s) opts) as [b|e]; cbn [fst snd];
      (split; [reflexivity|]; eexists; split; reflexivity).
  - cbn. split; [reflexivity|]. eexists; split; reflexivity.
Qed.

Lemma testAll_touched inst strategies keepDims :
  touched (events (testAll inst strategies keepDims)) = [].
Proof.
  induction strategies as [|s rest IH]; [reflexivity|].
  destruct (testStrategy_touched inst s keepDims) as (Ht & r & Hr & _).
  cbn [ImageCompressor.testAll]. rewrite bind_events, Hr, bind_events.
  rewrite touched_app, Ht.
  destruct (outcome (testAll inst rest keepDims));
    rewrite ?touched_app, IH; reflexivity.
Qed.

(** X10: a race of strategies never throws and loses no strategy: it
    returns one outcome per strategy, in the order of the list.  The
    outcome of a strategy is a success holding the buffer of its encode
    exactly when that encode returns one, and a failure of that
    strategy when the encode throws or the format has no encoder.  The
    race makes exactly one encode for each strategy whose format has an
    encoder, in order, and touches no file. *)
Theorem race_records_every_strategy (inst : Pipeline)
        (strategies : list Strategy) (keepDims : bool) :
  exists results,
    outcome (testAll inst strategies keepDims) = inl results /\
    Forall2 (ImageCompressor.testResult Pipeline toBuffer resize dimensions
               elapsed inst keepDims) strategies results /\
    touched (events (testAll inst strategies keepDims)) = [] /\
    codec_calls (events (testAll inst strategies keepDims))
    = flat_map (fun s => match strategyOptions s with
                         | Some opts => [(s_format s, opts)]
                         | None => []
                         end) strategies.
Proof.
  destruct (testAll_returns Pipeline toBuffer resize dimensions elapsed inst
              strategies keepDims) as (results & Hout & Hall & _).
  exists results. split; [exact Hout|]. split; [exact Hall|].
  split; [apply testAll_touched|]. clear results Hout Hall.
  induction strategies as [|s rest IH]; [reflexivity|].
  destruct (testAll_returns Pipeline toBuffer resize dimensions elapsed inst
              rest keepDims) as (rs & Hrs & _).
  destruct (testStrategy_returns Pipeline toBuffer resize dimensions elapsed
              inst s keepDims) as (r & Hr & _).
  cbn [ImageCompressor.testAll flat_map].
  rewrite bind_events, Hr, bind_events, Hrs.
  rewrite !codec_calls_app, IH. cbn [events ret fst codec_calls].
  rewrite app_nil_r. f_equal.
  unfold ImageCompressor.testStrategy, try_catch.
  destruct (strategyOptions s) as [opts|]; [|reflexivity].
  unfold bind, codec; cbn [fst snd].
  destruct (toBuffer _ (s_format s) opts); reflexivity.
Qed.

(** X11: [compressToFile] writes at most one file, and it is its last
    word: when it returns a path it has written exactly that path,
    once, and when an encode makes it throw it has written nothing --
    on every route (format race, explicit format, binary search, PNG
    configurations, strategy catalog) and whatever the codec does. *)
Theorem compressToFile_writes_once (inst : Pipeline) (outputPath : string)
        (options : CompressionOptions) (originalSize : Z) (hasAlpha : bool) :
  writes_once (compressToFile inst outputPath options originalSize hasAlpha).
Proof.
  assert (Htarget : forall format target,
            writes_once (compressToTargetSizeFile inst outputPath format
                           options originalSize target)).
  { intros format target.
    unfold ImageCompressor.compressToTargetSizeFile.
    destruct (10 * target <? originalSize);
      [|apply standardCompression_writes_once].
    unfold ImageCompressor.extremeCompressionParallel.
    apply writes_once_bind.
    - apply testAll_touched.
    - intros results _.
      destruct (successful results target) as [|s0 ok];
        [apply standardCompression_writes_once|].
      destruct (selectBestResult (s0 :: ok) _ target) as [chosen|];
        [|reflexivity].
      destruct (getExtensionForFormat (s_format (strategy chosen)));
        [apply writes_once_write | reflexivity]. }
  unfold ImageCompressor.compressToFile.
  destruct (o_targetSize options) as [[|t|t]|]; try apply Htarget.
  - destruct (formatIsAuto (o_format options)).
    + apply writes_once_bind.
      * unfold ImageCompressor.findBestFormat, raceFormats.
        rewrite bind_events, outcome_pair, events_pair.
        assert (Hc : forall cs : list Candidate,
                  touched (map (fun f => EvCodec (c_format f) (c_opts f)) cs)
                  = []) by (induction cs; auto).
        rewrite touched_app, Hc.
        destruct (pickBest originalSize _); reflexivity.
      * intros best _. destruct (r_result best);
          [apply writes_once_write | reflexivity].
    + destruct (determineOutputFormat _ _ _) as [name|key];
        [|reflexivity].
      apply writes_once_bind; [reflexivity|].
      intros b _. apply writes_once_write.
  - destruct (formatIsAuto (o_format options)).
    + apply writes_once_bind.
      * unfold ImageCompressor.findBestFormat, raceFormats.
        rewrite bind_events, outcome_pair, events_pair.
        assert (Hc : forall cs : list Candidate,
                  touched (map (fun f => EvCodec (c_format f) (c_opts f)) cs)
                  = []) by (induction cs; auto).
        rewrite touched_app, Hc.
        destruct (pickBest originalSize _); reflexivity.
      * intros best _. destruct (r_result best);
          [apply writes_once_write | reflexivity].
    + destruct (determineOutputFormat _ _ _) as [name|key];
        [|reflexivity].
      apply writes_once_bind; [reflexivity|].
      intros b _. apply writes_once_write.
Qed.

(** X12: the buffer path stays off the disk unless it takes the extreme
    path: with no target size, or with a target of at least a tenth of
    the original, [compressToBuffer] writes no file and makes at most 8
    encodes -- exactly one when there is no target. *)
Theorem compressToBuffer_stays_in_memory (inst : Pipeline) (format : string)
        (options : CompressionOptions) (originalSize : Z) :
  match o_targetSize options with
  | Some t => t = 0 \/ originalSize <= 10 * t
  | None => True
  end ->
  let run := compressToBuffer inst format options originalSize in
  touched (events run) = [] /\
  (List.length (codec_calls (events run)) <= 8)%nat /\
  match o_targetSize options with
  | Some (Zpos _) | Some (Zneg _) => True
  | _ => List.length (codec_calls (events run)) = 1%nat
  end.
Proof using Pipeline toBuffer resize dimensions elapsed replaceExtension
  self readFile.
  clear extname_lower.
  intros Hcase run.
  assert (Hstd : forall t, originalSize <= 10 * t ->
            touched (events (compressToTargetSizeBuffer Pipeline toBuffer
                               resize dimensions elapsed replaceExtension
                               self readFile inst format options
                               originalSize t)) = [] /\
            (List.length (codec_calls
               (events (compressToTargetSizeBuffer Pipeline toBuffer resize
                          dimensions elapsed replaceExtension self readFile
                          inst format options originalSize t))) <= 8)%nat).
  { intros t Ht. unfold ImageCompressor.compressToTargetSizeBuffer.
    replace (10 * t <? originalSize) with false
      by (symmetry; apply Z.ltb_ge; exact Ht).
    unfold ImageCompressor.standardCompressionBuffer.
    destruct (includes _ format).
    - split.
      + unfold ImageCompressor.binarySearchQualityBuffer.
        rewrite bind_events.
        pose proof (searchLoop_touched maxAttempts inst format t searchStart)
          as Hl. revert Hl.
        generalize (searchLoop maxAttempts inst format t searchStart).
        intros loop Hl. destruct (outcome loop) as [st|e]; [|exact Hl].
        rewrite touched_app, Hl. destruct (bestBuffer st); reflexivity.
      + apply buffer_search_at_most_8.
    - split; [reflexivity | simpl; lia]. }
  unfold run, ImageCompressor.compressToBuffer.
  destruct (o_targetSize options) as [[|t|t]|].
  - destruct (bufferEncode self format _) as [method opts].
    repeat split. simpl. lia.
  - destruct Hcase as [Hc|Hc]; [discriminate|].
    destruct (Hstd (Zpos t) Hc) as [H1 H2]. repeat split; assumption.
  - destruct Hcase as [Hc|Hc]; [discriminate|].
    destruct (Hstd (Zneg t) Hc) as [H1 H2]. repeat split; assumption.
  - destruct (bufferEncode self format _) as [method opts].
    repeat split. simpl. lia.
Qed.

End EngineFacts.

(* ------------------------------------------------------------------ *)
(** ** The strategy catalog and the output format *)

Section CatalogFacts.

Import ImageCompressor.

Lemma presets_shape fmt :
  Forall (fun s => 10 <= s_quality s <= 35 /\ s_resize s = None /\
                   s_format s = fmt /\ knownFormat (s_format s) = true)
    (presets fmt).
Proof.
  unfold presets.
  destruct (fmt === "avif") eqn:E1;
    [apply String.eqb_eq in E1; subst;
     repeat constructor; simpl; lia|].
  destruct (fmt === "webp") eqn:E2;
    [apply String.eqb_eq in E2; subst;
     repeat constructor; simpl; lia|].
  destruct (fmt === "jpeg") eqn:E3;
    [apply String.eqb_eq in E3; subst;
     repeat constructor; simpl; lia|].
  destruct (fmt === "png") eqn:E4;
    [apply String.eqb_eq in E4; subst;
     repeat constructor; simpl; lia|].
  constructor.
Qed.

(** X13: every strategy of the catalog, for any format preference, has a
    quality in [10, 50], a resize factor (if any) strictly between 0
    and 1, and one of the four formats the encoder has a case for.  A
    format preference governs the presets only: the resized strategies
    are always the same 24 (AVIF, WebP and JPEG at eight factors, never
    PNG), and [keepDimensions] removes exactly them. *)
Theorem catalog_shape (keepDims : bool) (preferredFormat : string) :
  let catalog := generateCompressionStrategies keepDims preferredFormat in
  let resized :=
    filter (fun s => match s_resize s with Some _ => true | None => false end)
      catalog in
  Forall (fun s => 10 <= s_quality s <= 50 /\
                   knownFormat (s_format s) = true /\
                   match s_resize s with
                   | Some r => (0 < r)%Q /\ (r < 1)%Q
                   | None => True
                   end) catalog /\
  resized
  = (if keepDims then []
     else flat_map (fun r => [strat_resized "avif" 30 (Some 2) r;
                              strat_resized "webp" 40 (Some 2) r;
                              strat_resized "jpeg" 50 None r]) resizes) /\
  List.length resized = (if keepDims then 0 else 24)%nat /\
  Forall (fun s => s_format s =
                   if truthy_string preferredFormat
                      && negb (preferredFormat === "auto")
                   then preferredFormat else s_format s)
    (filter (fun s => match s_resize s with Some _ => false | None => true end)
       catalog).
Proof.
  cbv zeta. unfold generateCompressionStrategies.
  set (formats := if truthy_string preferredFormat
                     && negb (preferredFormat === "auto")
                  then [preferredFormat] else ["avif"; "webp"; "jpeg"; "png"]%string).
  assert (Hpre : Forall (fun s => 10 <= s_quality s <= 35 /\
                   s_resize s = None /\ In (s_format s) formats /\
                   knownFormat (s_format s) = true)
                   (flat_map presets formats)).
  { apply Forall_forall. intros s Hs. apply in_flat_map in Hs.
    destruct Hs as (fmt & Hfmt & Hs).
    pose proof (presets_shape fmt) as Hp. rewrite Forall_forall in Hp.
    destruct (Hp s Hs) as (H1 & H2 & H3 & H4).
    repeat split; try assumption; try lia. now rewrite H3. }
  assert (Hnone : forall l : list Strategy,
            Forall (fun s => s_resize s = None) l ->
            filter (fun s => match s_resize s with
                             | Some _ => true | None => false end) l = [] /\
            filter (fun s => match s_resize s with
                             | Some _ => false | None => true end) l = l).
  { induction l as [|a l IHl]; intros Hl; [now split|].
    inversion Hl as [|? ? Ha Hl']; subst. destruct (IHl Hl') as [I1 I2].
    simpl. rewrite Ha, I1, I2. now split. }
  destruct (Hnone (flat_map presets formats)) as [Hf1 Hf2].
  { eapply Forall_impl; [|exact Hpre]. simpl. tauto. }
  split; [|split; [|split]].
  - apply Forall_app. split.
    + eapply Forall_impl; [|exact Hpre]. simpl.
      intros s (H1 & H2 & _ & H4). rewrite H2. repeat split; try lia.
      exact H4.
    + destruct keepDims; [constructor|].
      simpl. repeat constructor; simpl; try lia; reflexivity.
  - rewrite filter_app, Hf1. destruct keepDims; reflexivity.
  - rewrite filter_app, Hf1. destruct keepDims; reflexivity.
  - rewrite filter_app, Hf2.
    assert (Hres : filter (fun s => match s_resize s with
                                    | Some _ => false | None => true end)
                     (if negb keepDims
                      then flat_map (fun r =>
                             [strat_resized "avif" 30 (Some 2) r;
                              strat_resized "webp" 40 (Some 2) r;
                              strat_resized "jpeg" 50 None r]) resizes
                      else []) = [])
      by (destruct keepDims; reflexivity).
    rewrite Hres, app_nil_r.
    eapply Forall_impl; [|exact Hpre]. simpl.
    intros s (_ & _ & Hin & _). unfold formats in Hin.
    destruct (truthy_string preferredFormat
              && negb (preferredFormat === "auto"))%bool; [|reflexivity].
    destruct Hin as [<-|[]]. reflexivity.
Qed.

Variable extname_lower : string -> string.

(** X14: the extension a format is written under reads back as that
    format.  Unless [format] names a member of [Object.prototype], for
    which the lookup of [getExtensionForFormat] finds that member and
    not a string, its extension is a string, and a path with that
    extension is taken, when no format is asked for, as [format] itself
    for AVIF, WebP, JPEG and PNG, and as JPEG for any other format,
    whose extension is [.jpg]. *)
Theorem extension_reads_back_as_format (format path ext : string) :
  getExtensionForFormat format = Str ext ->
  extname_lower path = ext ->
  determineOutputFormat extname_lower path None
  = Str (if knownFormat format then format else "jpeg"%string).
Proof.
  unfold getExtensionForFormat, determineOutputFormat, knownFormat, includes.
  cbn [existsb]. intros Hext ->.
  destruct (format === "avif") eqn:E1;
    [apply String.eqb_eq in E1; subst; now injection Hext as <-|].
  destruct (format === "webp") eqn:E2;
    [apply String.eqb_eq in E2; subst; now injection Hext as <-|].
  destruct (format === "jpeg") eqn:E3;
    [apply String.eqb_eq in E3; subst; now injection Hext as <-|].
  destruct (format === "png") eqn:E4;
    [apply String.eqb_eq in E4; subst; now injection Hext as <-|].
  destruct (existsb (String.eqb format) objectPrototypeKeys);
    [discriminate|].
  now injection Hext as <-.
Qed.

End CatalogFacts.

Section FormatFailureFacts.

Import ImageCompressor.

Variable Pipeline : Type.
Variable toBuffer : Pipeline -> string -> JsObject -> Buffer + string.
Variable resize : Pipeline -> Z -> Z -> Pipeline.
Variable dimensions : Pipeline -> Z * Z.
Variable elapsed : Strategy -> Z.
Variable replaceExtension : string -> string -> string.
Variable extname_lower : string -> string.
Variable self : Self.

(** X15: the format race swallows encode errors, but not all of them:
    when every candidate's encode throws, [findBestFormat] still
    returns -- the AVIF entry, with its error and no buffer -- and
    [compressToFile] then throws at the write, with no file
    written. *)
Theorem format_race_total_failure (inst : Pipeline) (outputPath : string)
        (options : CompressionOptions) (originalSize : Z) (hasAlpha : bool) :
  (o_targetSize options = None \/ o_targetSize options = Some 0) ->
  formatIsAuto (o_format options) = true ->
  (forall c, In c (formatCandidates hasAlpha
                     (qualityOrDefault (o_quality options))) ->
     exists e, toBuffer inst (c_format c) (c_opts c) = inr e) ->
  let quality := qualityOrDefault (o_quality options) in
  let run := ImageCompressor.compressToFile Pipeline toBuffer resize
               dimensions elapsed replaceExtension extname_lower self inst
               outputPath options originalSize hasAlpha in
  (exists best e,
     outcome (ImageCompressor.findBestFormat Pipeline toBuffer inst hasAlpha
                quality originalSize) = inl best /\
     r_format best = "avif"%string /\ r_result best = inr e) /\
  (exists e, outcome run = inr e) /\
  touched (events run) = [].
Proof.
  intros Htarget Hauto Hfail quality run.
  set (candidates := formatCandidates hasAlpha quality) in *.
  set (results := map (fun f => mkFormatResult (c_format f) (c_extension f)
                                  (toBuffer inst (c_format f) (c_opts f)))
                    candidates).
  assert (Hgen : forall cs : list Candidate,
            (forall c, In c cs ->
               exists e, toBuffer inst (c_format c) (c_opts c) = inr e) ->
            filter (qualifies originalSize)
              (map (fun f => mkFormatResult (c_format f) (c_extension f)
                               (toBuffer inst (c_format f) (c_opts f))) cs)
            = []).
  { induction cs as [|c cs IH]; intros Hcs; [reflexivity|].
    simpl. destruct (Hcs c (or_introl eq_refl)) as [e He].
    unfold qualifies at 1. simpl. rewrite He.
    apply IH. intros c' Hc'. apply Hcs. now right. }
  assert (Hnone : filter (qualifies originalSize) results = [])
    by (apply Hgen; exact Hfail).
  destruct (Hfail (mkCandidate "avif" ".avif"
              [("quality"%string, VNum (Z.max 20 (quality - 35)));
               ("effort"%string, VNum 4);
               ("chromaSubsampling"%string, VStr "4:2:0")])
              (or_introl eq_refl)) as [e He].
  assert (Hfind : ImageCompressor.findBestFormat Pipeline toBuffer inst
                    hasAlpha quality originalSize
                  = (map (fun f => EvCodec (c_format f) (c_opts f)) candidates,
                     inl (mkFormatResult "avif" ".avif" (inr e)))).
  { unfold ImageCompressor.findBestFormat, raceFormats, bind.
    cbn [fst snd]. fold candidates. fold results.
    unfold pickBest. rewrite Hnone. cbn [js_sort].
    unfold results, candidates, formatCandidates. cbn [map app hd_error].
    rewrite He. cbn [ret fst snd]. now rewrite app_nil_r. }
  split.
  { exists (mkFormatResult "avif" ".avif" (inr e)), e.
    rewrite Hfind. repeat split. }
  assert (Hc : forall cs : list Candidate,
            touched (map (fun f => EvCodec (c_format f) (c_opts f)) cs) = [])
    by (induction cs; auto).
  split.
  { unfold run, ImageCompressor.compressToFile. fold quality.
    rewrite Hauto. destruct Htarget as [-> | ->];
      rewrite bind_outcome, Hfind, outcome_pair; cbn [r_result];
      eexists; reflexivity. }
  unfold run, ImageCompressor.compressToFile. fold quality.
  rewrite Hauto. destruct Htarget as [-> | ->];
    rewrite bind_events, Hfind, outcome_pair, events_pair; cbn [r_result];
    rewrite touched_app, Hc; reflexivity.
Qed.

End FormatFailureFacts.

Lemma extension_reads_back_as_format_witness :
  ImageCompressor.determineOutputFormat Demo.webp_extname "photo.webp" None
  = Str "webp".
Proof.
  apply (extension_reads_back_as_format Demo.webp_extname "webp"
           "photo.webp" ".webp" eq_refl eq_refl).
Defined.

(** A format named like a member of [Object.prototype] has no string for
    an extension, and as a format option it is no format name. *)
Example inherited_format_samples :
  ImageCompressor.getExtensionForFormat "constructor"
  = Inherited "constructor" /\
  ImageCompressor.getExtensionForFormat "gif" = Str ".jpg" /\
  ImageCompressor.determineOutputFormat Demo.webp_extname "photo.webp"
    (Some "Constructor"%string)
  = Inherited "constructor" /\
  ImageCompressor.determineOutputFormat Demo.webp_extname "photo.webp"
    (Some "JPG"%string)
  = Str "jpeg".
Proof. repeat split. Qed.

Lemma format_race_total_failure_witness :
  ImageCompressor.touched
    (events (ImageCompressor.compressToFile unit Demo.broken_codec
               Demo.no_resize Demo.dimensions Demo.elapsed
               Demo.replaceExtension Demo.extname Demo.self tt "in.png"
               Demo.auto_options 1000 false))
  = [].
Proof.
  apply (format_race_total_failure unit Demo.broken_codec Demo.no_resize
           Demo.dimensions Demo.elapsed Demo.replaceExtension Demo.extname
           Demo.self tt "in.png"%string Demo.auto_options 1000 false
           (or_introl eq_refl) eq_refl
           (fun c _ => ex_intro _ "out of memory"%string eq_refl)).
Defined.

Lemma compressToBuffer_stays_in_memory_witness :
  ImageCompressor.touched
    (events (ImageCompressor.compressToBuffer unit Demo.linear_codec
               Demo.no_resize Demo.dimensions Demo.elapsed
               Demo.replaceExtension Demo.self Demo.no_disk tt "webp"
               (ImageCompressor.mkCompressionOptions None None None false
                  (Some 50))
               200))
  = [].
Proof.
  apply (compressToBuffer_stays_in_memory unit Demo.linear_codec
           Demo.no_resize Demo.dimensions Demo.elapsed Demo.replaceExtension
           Demo.self Demo.no_disk tt "webp"%string
           (ImageCompressor.mkCompressionOptions None None None false
              (Some 50))
           200).
  right. lia.
Defined.

(* ------------------------------------------------------------------ *)
(** ** The entry point: validation, target sizes and file groups *)

Section ApiFacts.

Import Api.

Variable stat_size : string -> Z.

Lemma ret_then {X : Type} (k : M X) : bind (ret tt) (fun _ => k) = k.
Proof. destruct k as [t r]. reflexivity. Qed.

Lemma throw_then {X : Type} (e : string) (k : M X) :
  bind (@throw unit e) (fun _ => k) = throw e.
Proof. reflexivity. Qed.

(** X16: [compress] validates before it does anything else: either it
    throws without a single event, or it is exactly the processing of
    the resolved files. *)
Theorem compress_validates_before_processing {R : Type}
        (resolvedFiles : list string) (options : Options)
        (processFiles : list string -> M R) :
  compress stat_size resolvedFiles options processFiles
  = processFiles resolvedFiles \/
  exists message,
    compress stat_size resolvedFiles options processFiles
    = ([], inr message).
Proof.
  unfold Api.compress.
  destruct (quality options) as [[q|]|];
    [destruct ((q <? 1) || (100 <? q))%bool| |];
    rewrite ?throw_then, ?ret_then; try (right; eexists; reflexivity);
    (destruct (threads options) as [[n|]|];
     [destruct (n <? 1)| |];
     rewrite ?throw_then, ?ret_then; try (right; eexists; reflexivity));
    (destruct (targetSize options) as [[s|n']|];
     [destruct (truthy_target (Some (TargetString s))) eqn:Es;
      [destruct (matchTargetSize s) eqn:Em|] | |];
     rewrite ?throw_then, ?ret_then; try (right; eexists; reflexivity));
    (destruct resolvedFiles as [|file [|file' rest]];
     rewrite ?throw_then, ?ret_then; try (right; eexists; reflexivity));
    try (left; reflexivity);
    rewrite ?Es;
    try (destruct (truthy_target (Some (TargetNumber n'))));
    rewrite ?ret_then; try (left; reflexivity);
    unfold validateSingleFileTarget; cbn [targetToString]; rewrite ?Em;
    try (destruct (matchTargetSize _));
    try (destruct (stat_size file <=? targetBytes _));
    rewrite ?throw_then, ?ret_then;
    try (left; reflexivity); right; eexists; reflexivity.
Qed.

End ApiFacts.

Section TargetFacts.

Import Api.

(** The code units [toString] prints for a run of decimal digits. *)
Local Abbreviation chars d :=
  (code_units (NilEmpty.string_of_uint d)).

Lemma span_chars (d : Decimal.uint) (rest : CodeUnits) :
  match rest with [] => True | c :: _ => is_digit c = false end ->
  span is_digit (chars d ++ rest) = (chars d, rest).
Proof.
  intros Hrest. unfold code_units.
  induction d as [|d IH|d IH|d IH|d IH|d IH|d IH|d IH|d IH|d IH|d IH];
    cbn [NilEmpty.string_of_uint list_ascii_of_string map app];
    try (cbn [span]; change (is_digit _) with true; cbv iota;
         rewrite IH; reflexivity).
  destruct rest as [|c rest]; [reflexivity|].
  cbn [span]. now rewrite Hrest.
Qed.

Lemma digits_acc (d : Decimal.uint) (acc : positive) :
  fold_left (fun a c => 10 * a + (Z.of_N c - 48)) (chars d) (Zpos acc)
  = Zpos (Pos.of_uint_acc d acc).
Proof.
  revert acc. unfold code_units.
  induction d as [|d IH|d IH|d IH|d IH|d IH|d IH|d IH|d IH|d IH|d IH];
    intros acc;
    cbn [NilEmpty.string_of_uint list_ascii_of_string map fold_left
         Pos.of_uint_acc];
    [reflexivity|..];
    rewrite <- IH; f_equal;
    change (Z.of_N (N.of_nat (nat_of_ascii _)) - 48) with 0 +
    change (Z.of_N (N.of_nat (nat_of_ascii _)) - 48) with 1 +
    change (Z.of_N (N.of_nat (nat_of_ascii _)) - 48) with 2 +
    change (Z.of_N (N.of_nat (nat_of_ascii _)) - 48) with 3 +
    change (Z.of_N (N.of_nat (nat_of_ascii _)) - 48) with 4 +
    change (Z.of_N (N.of_nat (nat_of_ascii _)) - 48) with 5 +
    change (Z.of_N (N.of_nat (nat_of_ascii _)) - 48) with 6 +
    change (Z.of_N (N.of_nat (nat_of_ascii _)) - 48) with 7 +
    change (Z.of_N (N.of_nat (nat_of_ascii _)) - 48) with 8 +
    change (Z.of_N (N.of_nat (nat_of_ascii _)) - 48) with 9; lia.
Qed.

Lemma digits_value_chars (d : Decimal.uint) :
  digits_value (chars d) = Z.of_N (Pos.of_uint d).
Proof.
  unfold digits_value, code_units.
  induction d as [|d IH|d IH|d IH|d IH|d IH|d IH|d IH|d IH|d IH|d IH];
    cbn [NilEmpty.string_of_uint list_ascii_of_string map fold_left
         Pos.of_uint];
    [reflexivity | exact IH | ..];
    apply (digits_acc d).
Qed.

Lemma chars_nonempty (d : Decimal.uint) :
  d <> Decimal.Nil -> exists c cs, chars d = c :: cs.
Proof. destruct d; [easy|..]; intros _; eexists _, _; reflexivity. Qed.

(** A non-negative integer prints as its decimal digits, which the
    pattern reads back as a whole number of bytes. *)
Lemma matchTargetSize_number (n : Z) :
  0 <= n ->
  exists m, matchTargetSize (code_units (js_number_toString n)) = Some m /\
            targetBytes m = n.
Proof.
  intros Hn. destruct n as [|p|p]; [|clear Hn|lia].
  - eexists. split; reflexivity.
  - unfold js_number_toString. cbn [Z.to_int NilZero.string_of_int].
    pose proof (DecimalPos.Unsigned.to_uint_nonnil p) as Hnil.
    pose proof (DecimalPos.Unsigned.of_to p) as Hback.
    revert Hnil Hback. generalize (Pos.to_uint p). intros d Hnil Hback.
    assert (Hs : NilZero.string_of_uint d = NilEmpty.string_of_uint d)
      by (destruct d; [easy|..]; reflexivity).
    rewrite Hs. unfold matchTargetSize.
    pose proof (span_chars d [] I) as Hspan. rewrite app_nil_r in Hspan.
    rewrite Hspan.
    destruct (chars_nonempty d Hnil) as (c & cs & Hc).
    pose proof (digits_value_chars d) as Hv. rewrite Hback in Hv.
    revert Hv. rewrite Hc. intros Hv.
    eexists. split; [reflexivity|].
    unfold targetBytes. cbn [intDigits fracDigits unit_ truthy_string
      List.length Z.of_nat]. rewrite Hv.
    change (digits_value []) with 0. cbn.
    rewrite Z.div_1_r. lia.
Qed.

Variable stat_size : string -> Z.

(** X19: a numeric target size below [10^21] reads back as itself when
    it is not negative: the compressor's parser returns it and the
    single-file check compares the file's size with it.  A negative one
    matches no size: the single-file check lets it pass unchecked and
    the compressor's parser throws. *)
Theorem numeric_target_reads_back (n : Z) (file : string) :
  - 10 ^ 21 < n < 10 ^ 21 ->
  if 0 <=? n then
    parseTargetSize (TargetNumber n) = ret n /\
    validateSingleFileTarget stat_size file (TargetNumber n)
    = (if stat_size file <=? n
       then throw "Target size must be smaller than original file"%string
       else ret tt)
  else
    (exists message, parseTargetSize (TargetNumber n) = throw message) /\
    validateSingleFileTarget stat_size file (TargetNumber n) = ret tt.
Proof.
  intros _. destruct (0 <=? n) eqn:Hn.
  - apply Z.leb_le in Hn.
    destruct (matchTargetSize_number n Hn) as (m & Hm & Hb).
    unfold parseTargetSize, validateSingleFileTarget.
    cbn [targetToString]. rewrite Hm, Hb. split; reflexivity.
  - apply Z.leb_gt in Hn. destruct n as [|p|p]; try lia.
    split; [eexists|]; reflexivity.
Qed.

End TargetFacts.

Section GroupFacts.

Import Api.

Variable mimeLookup : string -> option string.

Local Abbreviation isImage :=
  (ThreadManager.mimeStartsWith mimeLookup "image/").
Local Abbreviation isVideo :=
  (ThreadManager.mimeStartsWith mimeLookup "video/").

Lemma groupSteps_closed (files : list string) (groups : FileGroups) :
  let after := fold_left (groupStep mimeLookup) files groups in
  images after = images groups ++ filter isImage files /\
  videos after
  = videos groups ++ filter (fun f => negb (isImage f) && isVideo f) files /\
  other after
  = other groups
    ++ filter (fun f => negb (isImage f) && negb (isVideo f)) files.
Proof.
  revert groups. induction files as [|f rest IH]; intros groups.
  - cbn. now rewrite !app_nil_r.
  - cbn [fold_left filter]. cbv zeta in IH |- *.
    destruct (IH (groupStep mimeLookup groups f)) as (H1 & H2 & H3).
    rewrite H1, H2, H3. unfold groupStep, ThreadManager.mimeStartsWith.
    destruct (mimeLookup f) as [mimeType|]; cbn [negb andb];
      [destruct (prefix "image/" mimeType); cbn [negb andb];
       [|destruct (prefix "video/" mimeType)]|];
      cbn [images videos other]; rewrite <- ?app_assoc; repeat split.
Qed.

Lemma three_way_split {A : Type} (p q : A -> bool) (l : list A) :
  Permutation
    (filter p l ++ filter (fun x => negb (p x) && q x) l
     ++ filter (fun x => negb (p x) && negb (q x)) l) l.
Proof.
  induction l as [|x l IH]; [constructor|].
  cbn [filter]. destruct (p x); cbn [negb andb].
  - cbn [app]. now constructor.
  - destruct (q x); cbn [negb andb].
    + apply Permutation_sym, Permutation_cons_app.
      now apply Permutation_sym.
    + apply Permutation_sym.
      rewrite app_assoc. apply Permutation_cons_app.
      rewrite <- app_assoc. now apply Permutation_sym.
Qed.

(** X20: [groupFilesByType] puts every file in exactly one group and
    keeps the order of the input inside each group: the images are the
    files whose MIME type starts with [image/], the videos those of the
    rest whose type starts with [video/], and everything else, files
    without a MIME type included, is in [other]. *)
Theorem groupFilesByType_partitions (files : list string) :
  let groups := groupFilesByType mimeLookup files in
  images groups = filter isImage files /\
  videos groups = filter (fun f => negb (isImage f) && isVideo f) files /\
  other groups
  = filter (fun f => negb (isImage f) && negb (isVideo f)) files /\
  Permutation (images groups ++ videos groups ++ other groups) files.
Proof.
  intros groups.
  destruct (groupSteps_closed files (mkFileGroups [] [] []))
    as (H1 & H2 & H3).
  cbv zeta in H1, H2, H3. cbn [images videos other app] in H1, H2, H3.
  fold (groupFilesByType mimeLookup files) in H1, H2, H3.
  fold groups in H1, H2, H3.
  rewrite H1, H2, H3. repeat split. apply three_way_split.
Qed.

End GroupFacts.

(* ------------------------------------------------------------------ *)
(** ** System warnings and progress accounting *)

Section SystemWarningFacts.

Import SystemWarnings.

(** X21: when no thread count is given the check never warns of
    over-subscription, with or without [ultrafast]: its warnings are
    the memory warning and the disk warning, each when its condition
    holds, in that order. *)
Theorem default_threads_never_oversubscribe (cpuCores : Z)
        (memoryHigh isHDD : bool) (options : SystemOptimizationOptions) :
  0 <= cpuCores ->
  threads options = None ->
  map type_ (checkSystemOptimization cpuCores memoryHigh isHDD options)
  = (if memoryHigh then [Memory] else [])
    ++ (if isHDD then [DiskIo] else []).
Proof.
  intros Hc Ht. unfold checkSystemOptimization, threadCount. rewrite Ht.
  assert (Hq : (3 * cpuCores) / 4 <= cpuCores)
    by (apply Z.div_le_upper_bound; lia).
  replace (3 * cpuCores <?
           2 * (if ultrafast options then cpuCores else 3 * cpuCores / 4))
    with false
    by (symmetry; apply Z.ltb_ge; destruct (ultrafast options); lia).
  now destruct memoryHigh, isHDD.
Qed.

End SystemWarningFacts.

Section ProgressFacts.

Import ProgressManager.

Lemma calls_keep_totals (calls : list Call) (self : Self) :
  processedFiles self = Z.of_nat (List.length (results self)) ->
  totalOriginalSize self
  = ThreadManager.zsum (map originalSize (results self)) ->
  totalCompressedSize self
  = ThreadManager.zsum (map compressedSize (results self)) ->
  let after := fold_left call calls self in
  processedFiles after = Z.of_nat (List.length (results after)) /\
  totalOriginalSize after
  = ThreadManager.zsum (map originalSize (results after)) /\
  totalCompressedSize after
  = ThreadManager.zsum (map compressedSize (results after)) /\
  totalFiles after = totalFiles self.
Proof.
  revert self. induction calls as [|c calls IH]; intros self H1 H2 H3.
  - cbn. repeat split; assumption.
  - cbn [fold_left]. cbv zeta in IH |- *.
    destruct (IH (call self c)) as (I1 & I2 & I3 & I4).
    + destruct c as [result|now]; cbn [call update reset processedFiles
        results List.length]; [|reflexivity].
      rewrite length_app, Nat2Z.inj_add, H1. reflexivity.
    + destruct c as [result|now]; cbn [call update reset totalOriginalSize
        results map]; [|reflexivity].
      rewrite map_app, zsum_app, H2. cbn. lia.
    + destruct c as [result|now]; cbn [call update reset
        totalCompressedSize results map]; [|reflexivity].
      rewrite map_app, zsum_app, H3. cbn. lia.
    + repeat split; try assumption. rewrite I4. now destruct c.
Qed.

(** X22: after any sequence of [update] and [reset] calls on a new
    progress manager, the counters agree with the recorded results: the
    processed count is their number, the two size totals are their
    sums, and the space saved that [getStats] reports is the sum of the
    per-file savings.  The number of files announced never changes. *)
Theorem progress_totals_match_results (start total now : Z)
        (calls : list Call) :
  let self := fold_left call calls (constructor start total) in
  let stats := getStats now self in
  s_processedFiles stats = Z.of_nat (List.length (results self)) /\
  s_totalOriginalSize stats
  = ThreadManager.zsum (map originalSize (results self)) /\
  s_totalCompressedSize stats
  = ThreadManager.zsum (map compressedSize (results self)) /\
  s_spaceSaved stats
  = ThreadManager.zsum
      (map (fun r => originalSize r - compressedSize r) (results self)) /\
  s_totalFiles stats = total.
Proof.
  intros self stats.
  destruct (calls_keep_totals calls (constructor start total)
              eq_refl eq_refl eq_refl) as (H1 & H2 & H3 & H4).
  cbv zeta in H1, H2, H3, H4. fold self in H1, H2, H3, H4.
  unfold stats, getStats.
  cbn [s_processedFiles s_totalOriginalSize s_totalCompressedSize
       s_spaceSaved s_totalFiles].
  repeat split; try assumption.
  rewrite H2, H3. clear. induction (results self) as [|r rs IH];
    [reflexivity|]. cbn [map]. unfold ThreadManager.zsum in *.
  cbn [fold_right]. lia.
Qed.

(** X23: [formatTime] loses no whole second: for a time that is not
    negative it prints hours [h], minutes [m] and seconds [s] with
    [m] and [s] below 60 and [3600 h + 60 m + s] the whole seconds of
    the time, leaving out the hours when they are zero and the minutes
    as well when both are. *)
Theorem formatTime_keeps_whole_seconds (milliseconds : Z) :
  0 <= milliseconds ->
  exists h m s,
    0 <= h /\ 0 <= m < 60 /\ 0 <= s < 60 /\
    3600 * h + 60 * m + s = milliseconds / 1000 /\
    formatTime milliseconds
    = if 0 <? h then
        (js_number_toString h ++ "h " ++ js_number_toString m ++ "m "
         ++ js_number_toString s ++ "s")%string
      else if 0 <? m then
        (js_number_toString m ++ "m " ++ js_number_toString s ++ "s")%string
      else (js_number_toString s ++ "s")%string.
Proof.
  intros Hms. unfold formatTime. cbv zeta.
  set (seconds := milliseconds / 1000).
  assert (Hs : 0 <= seconds) by (apply Z.div_pos; lia).
  set (minutes := seconds / 60).
  assert (Hm : 0 <= minutes) by (apply Z.div_pos; lia).
  set (hours := minutes / 60).
  assert (Hh : 0 <= hours) by (apply Z.div_pos; lia).
  rewrite !Z.rem_mod_nonneg by lia.
  exists hours, (minutes mod 60), (seconds mod 60).
  pose proof (Z.mod_pos_bound minutes 60 ltac:(lia)) as Bm.
  pose proof (Z.mod_pos_bound seconds 60 ltac:(lia)) as Bs.
  pose proof (Z.div_mod minutes 60 ltac:(lia)) as Dm.
  pose proof (Z.div_mod seconds 60 ltac:(lia)) as Ds.
  fold hours in Dm. fold minutes in Ds.
  split; [exact Hh|]. split; [exact Bm|]. split; [exact Bs|].
  split; [lia|].
  destruct (0 <? hours) eqn:Eh; [reflexivity|].
  apply Z.ltb_ge in Eh. assert (hours = 0) as H0 by lia.
  assert (Hmm : minutes mod 60 = minutes) by lia. rewrite Hmm.
  destruct (0 <? minutes) eqn:Em; [reflexivity|].
  apply Z.ltb_ge in Em. assert (minutes = 0) as M0 by lia.
  assert (Hss : seconds mod 60 = seconds) by lia. now rewrite Hss.
Qed.

End ProgressFacts.

Lemma numeric_target_reads_back_witness :
  parseTargetSize (Api.TargetNumber 500) = ret 500 /\
  Api.validateSingleFileTarget Demo.stat100 "a.png" (Api.TargetNumber 500)
  = throw "Target size must be smaller than original file".
Proof.
  apply (numeric_target_reads_back Demo.stat100 500 "a.png").
  split; reflexivity.
Defined.

Lemma default_threads_never_oversubscribe_witness :
  map SystemWarnings.type_
    (SystemWarnings.checkSystemOptimization 8 true false
       (SystemWarnings.mkOptions None true))
  = [SystemWarnings.Memory].
Proof.
  apply (default_threads_never_oversubscribe 8 true false
           (SystemWarnings.mkOptions None true)); [lia | reflexivity].
Defined.

Lemma formatTime_keeps_whole_seconds_witness :
  exists h m s,
    0 <= h /\ 0 <= m < 60 /\ 0 <= s < 60 /\
    3600 * h + 60 * m + s = 3725999 / 1000 /\
    ProgressManager.formatTime 3725999
    = if 0 <? h then
        (js_number_toString h ++ "h " ++ js_number_toString m ++ "m "
         ++ js_number_toString s ++ "s")%string
      else if 0 <? m then
        (js_number_toString m ++ "m " ++ js_number_toString s ++ "s")%string
      else (js_number_toString s ++ "s")%string.
Proof.
  apply (formatTime_keeps_whole_seconds 3725999). lia.
Defined.

(** One hour, two minutes and five seconds. *)
Example formatTime_3725999 :
  ProgressManager.formatTime 3725999 = "1h 2m 5s"%string.
Proof. reflexivity. Qed.

(** [1.5MB] is 1572864 bytes; [-5] has no size format. *)
Example parseTargetSize_samples :
  parseTargetSize (Api.TargetString (Api.code_units "1.5MB"))
  = ret 1572864 /\
  parseTargetSize (Api.TargetString (Api.code_units "2 kb")) = ret 2048 /\
  parseTargetSize (Api.TargetNumber (-5)) = throw "Invalid format: -5".
Proof. repeat split. Qed.

(* ------------------------------------------------------------------ *)
(** ** File names *)

Section FileUtilsFacts.

Import FileUtils.

Lemma replaceRuns_keeps (q p : N -> bool) (inRun : bool) (s : JsString) :
  q underscore = true ->
  Forall (fun c => q c = true) s ->
  Forall (fun c => q c = true) (replaceRuns p inRun s).
Proof.
  intros Hu Hs. revert inRun.
  induction Hs as [|c s Hc Hs IH]; intros inRun; cbn [replaceRuns];
    [constructor|].
  destruct (p c); [destruct inRun|]; try constructor; auto.
Qed.

Lemma replaceRuns_removes (p : N -> bool) (inRun : bool) (s : JsString) :
  p underscore = false ->
  Forall (fun c => p c = false) (replaceRuns p inRun s).
Proof.
  intros Hu. revert inRun.
  induction s as [|c s IH]; intros inRun; cbn [replaceRuns]; [constructor|].
  destruct (p c) eqn:Ec; [destruct inRun|]; try constructor; auto.
Qed.

Lemma replaceRuns_length (p : N -> bool) (inRun : bool) (s : JsString) :
  (List.length (replaceRuns p inRun s) <= List.length s)%nat.
Proof.
  revert inRun. induction s as [|c s IH]; intros inRun; cbn [replaceRuns];
    [constructor|].
  destruct (p c); [destruct inRun|]; cbn [List.length];
    try apply le_n_S; try apply le_S; apply IH.
Qed.

Lemma replaceRuns_no_double (inRun : bool) (s : JsString) :
  noDoubleUnderscore inRun (replaceRuns (N.eqb underscore) inRun s) = true.
Proof.
  revert inRun. induction s as [|c s IH]; intros inRun; [reflexivity|].
  cbn [replaceRuns]. destruct (N.eqb underscore c) eqn:Ec.
  - destruct inRun; [apply IH|].
    cbn [noDoubleUnderscore]. change (N.eqb underscore underscore) with true.
    cbv iota. cbn [negb andb]. apply IH.
  - cbn [noDoubleUnderscore]. rewrite Ec. apply IH.
Qed.

Lemma trimStart_id (s : JsString) :
  Forall (fun c => whiteSpace c = false) s -> trimStart s = s.
Proof. intros [|c s' Hc _]; [reflexivity|]. cbn. now rewrite Hc. Qed.

Lemma trim_id (s : JsString) :
  Forall (fun c => whiteSpace c = false) s -> trim s = s.
Proof.
  intros Hs. unfold trim. rewrite (trimStart_id s Hs).
  rewrite trimStart_id by (apply Forall_rev; exact Hs).
  apply rev_involutive.
Qed.

Lemma existsb_false_of_Forall {A : Type} (p : A -> bool) (l : list A) :
  Forall (fun x => p x = false) l -> existsb p l = false.
Proof.
  induction 1 as [|x l Hx _ IH]; [reflexivity|]. cbn. now rewrite Hx, IH.
Qed.

(** X24: [getSafeFileName] makes a name that [validatePath] accepts
    unless it is too long: the safe name is never longer than the name
    it comes from, holds none of the characters [validatePath] rejects,
    no white space and no two underscores in a row, so [validatePath]
    can only throw on it for its length. *)
Theorem safe_name_is_valid (fileName : JsString) :
  let safe := getSafeFileName fileName in
  (List.length safe <= List.length fileName)%nat /\
  existsb invalidChar safe = false /\
  existsb whiteSpace safe = false /\
  noDoubleUnderscore false safe = true /\
  validatePath safe
  = if (260 <? List.length safe)%nat
    then inr "File path too long"%string else inl true.
Proof.
  intros safe.
  set (step1 := map (fun c => if invalidChar c then underscore else c)
                  fileName).
  set (step2 := replaceRuns whiteSpace false step1).
  set (step3 := replaceRuns (N.eqb underscore) false step2).
  assert (Hv1 : Forall (fun c => negb (invalidChar c) = true) step1).
  { unfold step1. apply Forall_map, Forall_forall. intros c _.
    now destruct (invalidChar c) eqn:Ec; [|rewrite Ec]. }
  assert (Hv3 : Forall (fun c => negb (invalidChar c) = true) step3)
    by (unfold step3, step2; now repeat apply replaceRuns_keeps).
  assert (Hw2 : Forall (fun c => negb (whiteSpace c) = true) step2).
  { unfold step2.
    eapply Forall_impl; [|apply (replaceRuns_removes whiteSpace)];
      [intros c Hc; now rewrite Hc | reflexivity]. }
  assert (Hw3 : Forall (fun c => whiteSpace c = false) step3).
  { unfold step3.
    eapply Forall_impl;
      [|apply (replaceRuns_keeps (fun c => negb (whiteSpace c)));
        [reflexivity | exact Hw2]].
    intros c Hc. now apply negb_true_iff. }
  assert (Hsafe : safe = step3) by (apply trim_id; exact Hw3).
  rewrite Hsafe.
  assert (Hinv : existsb invalidChar step3 = false).
  { apply existsb_false_of_Forall.
    eapply Forall_impl; [|exact Hv3]. intros c Hc.
    now apply negb_true_iff. }
  split.
  { unfold step3, step2.
    etransitivity; [apply replaceRuns_length|].
    etransitivity; [apply replaceRuns_length|].
    unfold step1. now rewrite length_map. }
  split; [exact Hinv|].
  split; [now apply existsb_false_of_Forall|].
  split; [apply replaceRuns_no_double|].
  unfold validatePath. now rewrite Hinv.
Qed.

End FileUtilsFacts.

(** [a<b  c__d ] with its trailing space becomes [a_b_c_d_]. *)
Example getSafeFileName_sample :
  FileUtils.getSafeFileName [97; 60; 98; 32; 32; 99; 95; 95; 100; 32]%N
  = [97; 95; 98; 95; 99; 95; 100; 95]%N.
Proof. reflexivity. Qed.
